(** * ABE multi-runner benchmark pipeline: a shallow embedding

    The development follows the TypeScript pipeline of the benchmark
    driver: [parseRunnerFilter], [compileApp], [runApp], [stopApp],
    [analyzeApp], [runSingleRunner] and [runMultiRunnerBenchmark].

    Asynchronous code is sequential here: an [await] is a monadic bind.
    The outside world (runner back ends, npm, the dev server, the browser,
    the file system) answers through environment records that are inputs
    of the model; the clock [Date.now()] and the observable actions
    (processes spawned, signals sent, workspaces deleted, warnings logged)
    live in the [World] that every function threads. *)

From Stdlib Require Import ZArith List String Ascii Bool Lia DecimalString.
From Stdlib Require Import Permutation.
Import ListNotations.

Local Open Scope string_scope.
Local Open Scope Z_scope.

(** ** Values thrown and the world *)

(** A thrown JavaScript [Error]. The errors of [child_process.exec] carry the
    captured [stdout] and [stderr]; [None] is [undefined]. *)
Record JsError := mkJsError {
  message : string;
  err_stdout : option string;
  err_stderr : option string
}.

Definition Error (msg : string) : JsError := mkJsError msg None None.

Inductive Signal := SIGTERM | SIGKILL.

(** Observable actions, in the order they happen: the calls the driver
    itself makes. Progress messages printed with [console.log] are not
    recorded; [console.warn] and [console.error] are, with their text after
    the leading pictogram. [EvWriteFile] is a call of [fs.writeFile] and
    [EvScreenshot] a call of [page.screenshot], which writes the picture. *)
Inductive Event :=
| EvGenerate (runner prompt model : string)
| EvExec (cmd cwd : string)
| EvSpawn (cwd : string)
| EvKill (sig : Signal) (delivered : bool)
| EvAnalyze (url testId : string)
| EvScreenshot (file : string)
| EvBrowserClose
| EvCleanup (dir : string) (done : bool)
| EvCopyFile (src dest : string)
| EvMkdir (dir : string)
| EvWriteFile (file : string)
| EvWarn (msg : string)
| EvErrorLog (msg : string).

Record World := mkWorld {
  now : Z;
  trace : list Event
}.

(** ** A state monad with exceptions and pending promises

    [Throw] is a JavaScript exception (or a rejected promise that is
    awaited); [Hang] is an [await] on a promise that never settles. *)
Inductive Res (A : Type) :=
| Ok (a : A)
| Throw (e : JsError)
| Hang.
Arguments Ok {A} a.
Arguments Throw {A} e.
Arguments Hang {A}.

Definition M (S A : Type) : Type := S -> Res A * S.

Section Monad.
Context {S : Type}.

Definition ret {A} (a : A) : M S A := fun s => (Ok a, s).

Definition bind {A B} (m : M S A) (k : A -> M S B) : M S B :=
  fun s =>
    match m s with
    | (Ok a, s') => k a s'
    | (Throw e, s') => (Throw e, s')
    | (Hang, s') => (Hang, s')
    end.

Definition throw {A} (e : JsError) : M S A := fun s => (Throw e, s).

(** [try { m } catch (e) { h e }]: state changes made before the throw
    are kept. *)
Definition try_catch {A} (m : M S A) (h : JsError -> M S A) : M S A :=
  fun s =>
    match m s with
    | (Throw e, s') => h e s'
    | r => r
    end.

Definition get : M S S := fun s => (Ok s, s).
Definition modify (f : S -> S) : M S unit := fun s => (Ok tt, f s).
End Monad.

Declare Scope js_scope.
Delimit Scope js_scope with js.
Notation "x <- m ;; k" := (bind m (fun x => k))
  (at level 61, m at next level, right associativity) : js_scope.
Notation "m ;; k" := (bind m (fun _ => k))
  (at level 61, right associativity) : js_scope.
Local Open Scope js_scope.

(** World-level primitives. *)
Definition date_now : M World Z := fun w => (Ok (now w), w).
Definition sleep (ms : Z) : M World unit :=
  modify (fun w => mkWorld (now w + ms) (trace w)).
Definition emit (ev : Event) : M World unit :=
  modify (fun w => mkWorld (now w) (trace w ++ [ev])).

(** Functions with mutable local variables run over the world paired with
    their locals. *)
Definition lift {L A} (m : M World A) : M (World * L) A :=
  fun s => let (r, w') := m (fst s) in (r, (w', snd s)).
Definition local {L} : M (World * L) L := fun s => (Ok (snd s), s).
Definition set_local {L} (l : L) : M (World * L) unit :=
  fun s => (Ok tt, (fst s, l)).
Definition with_locals {L A} (init : L) (m : M (World * L) A) : M World A :=
  fun w => let (r, s) := m (w, init) in (r, fst s).

(** ** Text helpers *)

(** Template-literal rendering of an integer. *)
Definition show_Z (z : Z) : string := NilZero.string_of_int (Z.to_int z).

(** A string is truthy when it is not empty. *)
Definition truthy (s : string) : bool :=
  match s with EmptyString => false | _ => true end.

(** [a || b] on possibly-undefined strings. *)
Definition or_else (a : option string) (b : string) : string :=
  match a with
  | Some s => if truthy s then s else b
  | None => b
  end.

(** [s.substring(0, n)] *)
Definition prefix (n : nat) (s : string) : string := substring 0 n s.

Fixpoint span (p : ascii -> bool) (s : string) : string * string :=
  match s with
  | EmptyString => (EmptyString, EmptyString)
  | String c s' =>
      if p c then let (a, b) := span p s' in (String c a, b)
      else (EmptyString, s)
  end.

(** [s.split(',')] for a one-character separator. *)
Fixpoint split_on (sep : ascii) (s : string) : list string :=
  match s with
  | EmptyString => [EmptyString]
  | String c s' =>
      if Ascii.eqb c sep then EmptyString :: split_on sep s'
      else
        match split_on sep s' with
        | piece :: rest => String c piece :: rest
        | [] => [String c EmptyString]
        end
  end.

(** [l.join(sep)] *)
Fixpoint join (sep : string) (l : list string) : string :=
  match l with
  | [] => EmptyString
  | [x] => x
  | x :: rest => x ++ sep ++ join sep rest
  end.

Definition code (c : ascii) : nat := nat_of_ascii c.

(** The line feed. *)
Definition newline : string := String (ascii_of_nat 10) EmptyString.

Definition is_digit (c : ascii) : bool :=
  (Nat.leb 48 (code c) && Nat.leb (code c) 57)%bool.

(** The class [\s], on code units below 256: TAB, LF, VT, FF, CR, SPACE and
    NO-BREAK SPACE. *)
Definition is_space (c : ascii) : bool :=
  let n := code c in
  ((Nat.leb 9 n && Nat.leb n 13) || Nat.eqb n 32 || Nat.eqb n 160)%bool.

(** Case folding of the [i] flag: only ASCII letters fold onto ASCII
    letters. *)
Definition fold_case (c : ascii) : ascii :=
  let n := code c in
  if (Nat.leb 65 n && Nat.leb n 90)%bool then ascii_of_nat (n + 32) else c.

Definition eqb_ci (a b : ascii) : bool :=
  Ascii.eqb (fold_case a) (fold_case b).

(** Matches the literal [pat] at the head of [s] ignoring case; returns the
    matched text and the rest. *)
Fixpoint literal_ci (pat s : string) : option (string * string) :=
  match pat with
  | EmptyString => Some (EmptyString, s)
  | String p pat' =>
      match s with
      | EmptyString => None
      | String c s' =>
          if eqb_ci p c then
            match literal_ci pat' s' with
            | Some (m, r) => Some (String c m, r)
            | None => None
            end
          else None
      end
  end.

(** [/\x1B\[[0-9;]*[mGKHF]/] at the head of [s]: the length of the match. *)
Definition is_ansi_param (c : ascii) : bool :=
  (is_digit c || Nat.eqb (code c) 59)%bool.
Definition is_ansi_final (c : ascii) : bool :=
  let n := code c in
  (Nat.eqb n 109 || Nat.eqb n 71 || Nat.eqb n 75 || Nat.eqb n 72
   || Nat.eqb n 70)%bool.

Definition ansi_here (s : string) : option nat :=
  match s with
  | String e (String b r) =>
      if (Nat.eqb (code e) 27 && Nat.eqb (code b) 91)%bool then
        let (ps, r') := span is_ansi_param r in
        match r' with
        | String f _ =>
            if is_ansi_final f then Some (3 + String.length ps)%nat else None
        | EmptyString => None
        end
      else None
  | _ => None
  end.

(** [text.replace(/\x1B\[[0-9;]*[mGKHF]/g, '')]; [skip] counts the
    characters of a match still to be dropped. *)
Fixpoint strip_from (skip : nat) (s : string) : string :=
  match s with
  | EmptyString => EmptyString
  | String c s' =>
      match skip with
      | S k => strip_from k s'
      | O =>
          match ansi_here s with
          | Some n => strip_from (Nat.pred n) s'
          | None => String c (strip_from 0 s')
          end
      end
  end.

Definition strip_ansi (s : string) : string := strip_from 0 s.

(** [/Local:\s+(http:\/\/localhost:\d+)/i] at the head of [s]: group 1. *)
Definition local_here (s : string) : option string :=
  match literal_ci "Local:" s with
  | None => None
  | Some (_, r1) =>
      match span is_space r1 with
      | (EmptyString, _) => None
      | (_, r2) =>
          match literal_ci "http://localhost:" r2 with
          | None => None
          | Some (lit, r3) =>
              match span is_digit r3 with
              | (EmptyString, _) => None
              | (ds, _) => Some (lit ++ ds)
              end
          end
      end
  end.

(** [cleanText.match(...)]: the leftmost match; its group 1. *)
Fixpoint local_match (s : string) : option string :=
  match local_here s with
  | Some u => Some u
  | None =>
      match s with
      | EmptyString => None
      | String _ s' => local_match s'
      end
  end.

(** ** Result records *)

Record ChildProcess := mkChild {
  spawn_cwd : string;
  killed : bool
}.

Module CompileResult.
Record t := mk {
  success : bool;
  duration : Z;
  buildDuration : option Z;
  installDuration : option Z;
  installNeeded : option bool;
  stdout : option string;
  stderr : option string;
  error : option string
}.
End CompileResult.

Module RunResult.
Record t := mk {
  success : bool;
  serverUrl : option string;
  process : option ChildProcess;
  duration : Z;
  output : option string;
  error : option string
}.
End RunResult.

Module AnalyzeResult.
Record t := mk {
  success : bool;
  duration : Z;
  navigationDuration : option Z;
  screenshotPath : option string;
  title : option string;
  consoleMessages : option (list (string * string));
  consoleErrors : option (list string);
  pageErrors : option (list string);
  hasErrors : option bool;
  error : option string
}.
End AnalyzeResult.

Module BuildResult.
Record t := mk {
  success : bool;
  duration : Z;
  contentPreview : option string;
  error : option string
}.
End BuildResult.

Module BenchmarkResult.
Record t := mk {
  prompt : string;
  model : string;
  timestamp : string;
  workspaceDir : string;
  workspaceId : string;
  build : BuildResult.t
}.
End BenchmarkResult.

Record Durations := mkDurations {
  codeGeneration : Z;
  compilation : Z;
  serverStartup : Z;
  analysis : Z
}.

Record ErrorCounts := mkErrorCounts {
  consoleErrors : Z;
  pageErrors : Z
}.

Module RunnerBenchmarkResult.
Record t := mk {
  runner : string;
  model : string;
  success : bool;
  totalDuration : Z;
  durations : Durations;
  errors : ErrorCounts;
  screenshotPath : option string;
  workspaceDir : option string;
  error : option string
}.
End RunnerBenchmarkResult.

(** ** Compile stage *)

(** What [execAsync] meets: how long the command would run and how it ends
    ([exec_partial] is the output captured when the time limit kills it).
    The clock of the model is ideal, here and for the timers of [runApp] and
    [stopApp]: what is due after a delay happens when the delay has passed,
    where the real call settles no earlier than that. *)
Inductive ExecOutcome :=
| ExecOk (out err : string)
| ExecFail (e : JsError).

Record ExecEnv := mkExecEnv {
  exec_ms : Z;
  exec_outcome : ExecOutcome;
  exec_partial : string * string
}.

Definition execAsync (cmd cwd : string) (timeout : Z) (env : ExecEnv)
  : M World (string * string) :=
  emit (EvExec cmd cwd);;
  if timeout <? exec_ms env then
    sleep timeout;;
    throw (mkJsError
             ("Command failed: " ++ cmd ++ newline ++ snd (exec_partial env))
             (Some (fst (exec_partial env))) (Some (snd (exec_partial env))))
  else
    sleep (exec_ms env);;
    match exec_outcome env with
    | ExecOk out err => ret (out, err)
    | ExecFail e => throw e
    end.

Record CompileEnv := mkCompileEnv {
  node_modules_present : bool;
  install_env : ExecEnv;
  build_env : ExecEnv
}.

Definition compileApp (workspacePath : string) (env : CompileEnv)
  : M World CompileResult.t :=
  startTime <- date_now;;
  try_catch
    ((* fs.access(node_modules) *)
     let installNeeded := negb (node_modules_present env) in
     proceed <-
       (if installNeeded then
          installStart <- date_now;;
          try_catch
            (_ <- execAsync "npm install" workspacePath (5 * 60 * 1000)
                   (install_env env);;
             ret None)
            (fun installError =>
               t1 <- date_now;;
               let installDuration := t1 - installStart in
               t2 <- date_now;;
               ret (Some (CompileResult.mk false (t2 - startTime) None
                            (Some installDuration) None None
                            (Some (or_else (err_stderr installError)
                                     (message installError)))
                            (Some "npm install failed"))))
        else ret None);;
     match proceed with
     | Some failed => ret failed
     | None =>
         buildStart <- date_now;;
         oe <- execAsync "npm run build" workspacePath (3 * 60 * 1000)
                 (build_env env);;
         t1 <- date_now;;
         let buildDuration := t1 - buildStart in
         t2 <- date_now;;
         let totalDuration := t2 - startTime in
         ret (CompileResult.mk true totalDuration (Some buildDuration) None
                (Some installNeeded)
                (Some (prefix 500 (fst oe))) (Some (prefix 500 (snd oe)))
                None)
     end)
    (fun error =>
       t <- date_now;;
       let duration := t - startTime in
       ret (CompileResult.mk false duration None None None
              (Some (or_else (err_stdout error) ""))
              (Some (or_else (err_stderr error) ""))
              (Some (message error)))).

(** ** Serve stage *)

Inductive ChildEvent :=
| StdoutData (text : string)
| StderrData (text : string)
| ErrorEvent (e : JsError)
| ExitEvent (exitCode : option Z).

Inductive Settlement :=
| Resolved (r : RunResult.t)
| Rejected (e : JsError).

(** The closure of [runApp]: its two variables, the pending timer, the child
    handle, and every call of [resolve] or [reject] with the time (ms since
    the spawn) it was made at. The promise takes the first call. *)
Record ServeState := mkServe {
  sv_output : string;
  sv_resolved : bool;
  sv_timer : bool;
  sv_child : ChildProcess;
  sv_exited : bool;
  sv_calls : list (Z * Settlement);
  sv_kills : list Event
}.

Definition serve_init (cwd : string) : ServeState :=
  mkServe "" false true (mkChild cwd false) false [] [].

Definition startup_timeout : Z := 30000.

(** [child.kill(sig)]: Node sends the signal when the process still runs and
    then sets [killed]; the flag records that a signal was sent, not that the
    process ended. *)
Definition kill_process (sig : Signal) (alive : bool) (p : ChildProcess)
  : ChildProcess * Event :=
  (if alive then mkChild (spawn_cwd p) true else p, EvKill sig alive).

Definition show_code (c : option Z) : string :=
  match c with Some z => show_Z z | None => "null" end.

Definition settle (t : Z) (s : Settlement) (st : ServeState) : ServeState :=
  mkServe (sv_output st) (sv_resolved st) (sv_timer st) (sv_child st)
    (sv_exited st) (sv_calls st ++ [(t, s)]) (sv_kills st).

(** [resolved = true; clearTimeout(timeout)] *)
Definition latch (st : ServeState) : ServeState :=
  mkServe (sv_output st) true false (sv_child st) (sv_exited st)
    (sv_calls st) (sv_kills st).

Definition append_output (text : string) (st : ServeState) : ServeState :=
  mkServe (sv_output st ++ text) (sv_resolved st) (sv_timer st) (sv_child st)
    (sv_exited st) (sv_calls st) (sv_kills st).

Definition on_timeout (st : ServeState) : ServeState :=
  if negb (sv_resolved st) then
    let (p, ev) := kill_process SIGTERM (negb (sv_exited st)) (sv_child st) in
    settle startup_timeout (Rejected (Error "Server startup timeout (30s)"))
      (mkServe (sv_output st) (sv_resolved st) (sv_timer st) p (sv_exited st)
         (sv_calls st) (sv_kills st ++ [ev]))
  else st.

Definition on_stdout (t : Z) (text : string) (st : ServeState) : ServeState :=
  let st1 := append_output text st in
  let cleanText := strip_ansi text in
  match local_match cleanText with
  | Some serverUrl =>
      if negb (sv_resolved st1) then
        settle t
          (Resolved (RunResult.mk true (Some serverUrl) (Some (sv_child st1))
                       t (Some (prefix 1000 (sv_output st1))) None))
          (latch st1)
      else st1
  | None => st1
  end.

Definition on_stderr (text : string) (st : ServeState) : ServeState :=
  append_output text st.

Definition on_error (t : Z) (e : JsError) (st : ServeState) : ServeState :=
  if negb (sv_resolved st) then settle t (Rejected e) (latch st) else st.

Definition on_exit (t : Z) (c : option Z) (st : ServeState) : ServeState :=
  let st1 := mkServe (sv_output st) (sv_resolved st) (sv_timer st)
               (sv_child st) true (sv_calls st) (sv_kills st) in
  if negb (sv_resolved st1) then
    settle t (Rejected (Error ("Server exited with code " ++ show_code c)))
      (latch st1)
  else st1.

Definition handle (t : Z) (ev : ChildEvent) (st : ServeState) : ServeState :=
  match ev with
  | StdoutData text => on_stdout t text st
  | StderrData text => on_stderr text st
  | ErrorEvent e => on_error t e st
  | ExitEvent c => on_exit t c st
  end.

(** The 30 s timer is one-shot: it runs [on_timeout] when still pending. *)
Definition fire_timer (st : ServeState) : ServeState :=
  if sv_timer st then
    on_timeout (mkServe (sv_output st) (sv_resolved st) false (sv_child st)
                  (sv_exited st) (sv_calls st) (sv_kills st))
  else st.

(** The event loop over the child's events, each stamped with the time since
    the spawn. A pending timer runs before the first event that is due at
    30000 ms or later, and at the latest when no event is left. *)
Fixpoint serve_loop (evs : list (Z * ChildEvent)) (st : ServeState)
  : ServeState :=
  match evs with
  | [] => fire_timer st
  | (t, ev) :: rest =>
      let st1 := if startup_timeout <=? t then fire_timer st else st in
      serve_loop rest (handle t ev st1)
  end.

Fixpoint emit_all (evs : list Event) : M World unit :=
  match evs with
  | [] => ret tt
  | ev :: rest => emit ev;; emit_all rest
  end.

Definition runApp (workspacePath : string) (evs : list (Z * ChildEvent))
  : M World RunResult.t :=
  emit (EvSpawn workspacePath);;
  let st := serve_loop evs (serve_init workspacePath) in
  match sv_calls st with
  | [] => fun w => (Hang, w)
  | (t, s) :: _ =>
      sleep t;;
      emit_all (sv_kills st);;
      match s with
      | Resolved r => ret r
      | Rejected e => throw e
      end
  end.

(** ** Stop stage *)

(** What [stopApp] meets: whether the process still runs when it is called,
    and how long after SIGTERM it exits ([None]: it does not). *)
Record StopEnv := mkStopEnv {
  proc_alive : bool;
  exit_delay : option Z
}.

Definition grace_period : Z := 5000.

(** Returns the handle as the call leaves it. The promise resolves at the
    exit event or in the timer callback, whichever is first; the callback
    runs at 5000 ms in either case. *)
Definition stopApp (childProcess : option ChildProcess) (env : StopEnv)
  : M World (option ChildProcess) :=
  match childProcess with
  | None => ret None
  | Some p =>
      if killed p then ret (Some p)
      else
        let (p1, ev1) := kill_process SIGTERM (proc_alive env) p in
        emit ev1;;
        let exits_first :=
          match exit_delay env with
          | Some d => (proc_alive env && (d <? grace_period))%bool
          | None => false
          end in
        sleep (if exits_first
               then match exit_delay env with Some d => d | None => 0 end
               else grace_period);;
        if negb (killed p1) then
          let (p2, ev2) := kill_process SIGKILL (proc_alive env) p1 in
          emit ev2;;
          ret (Some p2)
        else ret (Some p1)
  end.

(** ** Paths *)

Definition is_slash (c : ascii) : bool := Nat.eqb (code c) 47.

(** [normalizeString] of the POSIX [path] module: the segments of the path
    are read from the left, and [kept] holds those kept so far, the last one
    first. An empty segment and [.] are skipped. [..] removes the last kept
    segment, unless there is none or it is [..] itself: then [..] is kept on
    a relative path and dropped on an absolute one. *)
Fixpoint normalize_segments (allowAboveRoot : bool)
  (segments kept : list string) : list string :=
  match segments with
  | [] => rev kept
  | segment :: rest =>
      if (String.eqb segment "" || String.eqb segment ".")%bool then
        normalize_segments allowAboveRoot rest kept
      else if String.eqb segment ".." then
        let above := if allowAboveRoot then ".." :: kept else kept in
        normalize_segments allowAboveRoot rest
          match kept with
          | last :: kept' => if String.eqb last ".." then above else kept'
          | [] => above
          end
      else normalize_segments allowAboveRoot rest (segment :: kept)
  end.

Definition last_is_slash (p : string) : bool :=
  match rev (list_ascii_of_string p) with
  | c :: _ => is_slash c
  | [] => false
  end.

(** POSIX [path.normalize]. *)
Definition path_normalize (p : string) : string :=
  if truthy p then
    let isAbsolute :=
      match p with String c _ => is_slash c | EmptyString => false end in
    let trailingSeparator := last_is_slash p in
    let body :=
      join "/" (normalize_segments (negb isAbsolute) (split_on "/" p) []) in
    if truthy body then
      (if isAbsolute then "/" else "") ++ body
      ++ (if trailingSeparator then "/" else "")
    else if isAbsolute then "/"
    else if trailingSeparator then "./" else "."
  else ".".

(** POSIX [path.join(...paths)]: the arguments that are not empty, joined by
    a slash and normalised. *)
Definition path_join_all (paths : list string) : string :=
  match List.filter truthy paths with
  | [] => "."
  | parts => path_normalize (join "/" parts)
  end.

Definition path_join (a b : string) : string := path_join_all [a; b].

Fixpoint drop_while (p : ascii -> bool) (l : list ascii) : list ascii :=
  match l with
  | [] => []
  | c :: l' => if p c then drop_while p l' else l
  end.

Fixpoint take_while (p : ascii -> bool) (l : list ascii) : list ascii :=
  match l with
  | [] => []
  | c :: l' => if p c then c :: take_while p l' else []
  end.

(** POSIX [path.basename]: the last component, trailing slashes ignored. *)
Definition basename (p : string) : string :=
  let back := drop_while is_slash (rev (list_ascii_of_string p)) in
  string_of_list_ascii (rev (take_while (fun c => negb (is_slash c)) back)).

(** ** Analyze stage *)

Inductive AnalyzeStep :=
| Launch | NewPage | Goto | SettleDelay | MkdirShots | Screenshot
| PageTitle | Evaluate | CloseBrowser.

Definition step_eqb (a b : AnalyzeStep) : bool :=
  match a, b with
  | Launch, Launch | NewPage, NewPage | Goto, Goto
  | SettleDelay, SettleDelay | MkdirShots, MkdirShots
  | Screenshot, Screenshot | PageTitle, PageTitle | Evaluate, Evaluate
  | CloseBrowser, CloseBrowser => true
  | _, _ => false
  end.

(** What the browser does: the first awaited call that rejects (if any),
    whether [browser.close()] rejects inside the catch handler, the time each
    call takes, and what the page listeners have collected. *)
Record AnalyzeEnv := mkAnalyzeEnv {
  an_failure : option (AnalyzeStep * JsError);
  an_close_rejects : option JsError;
  an_step_ms : AnalyzeStep -> Z;
  an_console : list (string * string);
  an_page_errors : list string;
  an_title : string
}.

Definition an_step (env : AnalyzeEnv) (s : AnalyzeStep) : M World unit :=
  sleep (match s with SettleDelay => 1000 | _ => an_step_ms env s end);;
  match an_failure env with
  | Some (s', e) => if step_eqb s s' then throw e else ret tt
  | None => ret tt
  end.

Definition console_errors (env : AnalyzeEnv) : list string :=
  map snd (filter (fun m => String.eqb (fst m) "error") (an_console env)).

(** The local is [browser]: [true] once [chromium.launch] has returned. *)
Definition analyzeApp (serverUrl testId resultsDir : string)
  (env : AnalyzeEnv) : M World AnalyzeResult.t :=
  startTime <- date_now;;
  emit (EvAnalyze serverUrl testId);;
  with_locals false
    (try_catch
       (lift (an_step env Launch);;
        set_local true;;
        lift (an_step env NewPage);;
        navigationStart <- lift date_now;;
        lift (an_step env Goto);;
        t1 <- lift date_now;;
        let navigationDuration := t1 - navigationStart in
        lift (an_step env SettleDelay);;
        let screenshotsDir := path_join resultsDir "screenshots" in
        lift (emit (EvMkdir screenshotsDir));;
        lift (an_step env MkdirShots);;
        t2 <- lift date_now;;
        let screenshotPath :=
          path_join screenshotsDir (testId ++ "-" ++ show_Z t2 ++ ".png") in
        lift (emit (EvScreenshot screenshotPath));;
        lift (an_step env Screenshot);;
        lift (an_step env PageTitle);;
        lift (an_step env Evaluate);;
        lift (emit EvBrowserClose);;
        lift (an_step env CloseBrowser);;
        t3 <- lift date_now;;
        let duration := t3 - startTime in
        ret (AnalyzeResult.mk true duration (Some navigationDuration)
               (Some screenshotPath) (Some (an_title env))
               (Some (firstn 20 (an_console env)))
               (Some (console_errors env)) (Some (an_page_errors env))
               (Some (negb (Nat.eqb (List.length (console_errors env)) 0)
                      || negb (Nat.eqb (List.length (an_page_errors env)) 0))%bool)
               None))
       (fun error =>
          browser <- local;;
          (if browser : bool then
             lift (emit EvBrowserClose);;
             match an_close_rejects env with
             | Some e => throw e
             | None => ret tt
             end
           else ret tt);;
          t <- lift date_now;;
          let duration := t - startTime in
          ret (AnalyzeResult.mk false duration None None None None
                 (Some (console_errors env)) (Some (an_page_errors env))
                 None (Some (message error))))).

(** ** Runner registry *)

(** [runBenchmark] and [cleanupWorkspace] are calls into a back end; the
    record keeps whether [cleanupWorkspace] is defined. *)
Record RunnerConfig := mkRunnerConfig {
  id : string;
  name : string;
  defaultModel : string;
  cleanupWorkspace : bool
}.

Definition RUNNERS : list (string * RunnerConfig) :=
  [ ("sigrid", mkRunnerConfig "sigrid" "Sigrid (OpenAI)" "gpt-5" true);
    ("claude", mkRunnerConfig "claude" "Claude Code CLI" "sonnet" true) ].

(** [Object.keys(RUNNERS)] *)
Definition getAvailableRunners : list string := map fst RUNNERS.

(** [RUNNERS[runnerId]]; the keys are distinct and none is inherited. *)
Fixpoint lookup (k : string) (l : list (string * RunnerConfig))
  : option RunnerConfig :=
  match l with
  | [] => None
  | (k', v) :: l' => if String.eqb k k' then Some v else lookup k l'
  end.

(** As declared, [RunnerConfig | undefined]: the entry under one of the
    registry's own keys. These are the only names the orchestrator looks up,
    since [parseRunnerFilter] has checked them against [Object.keys(RUNNERS)];
    [RUNNERS_at] below is the lookup for an arbitrary string, which can also
    hit a member inherited from [Object.prototype]. *)
Definition getRunner (runnerId : string) : option RunnerConfig :=
  lookup runnerId RUNNERS.

Definition includes (x : string) (l : list string) : bool :=
  existsb (String.eqb x) l.

Definition trim (s : string) : string :=
  let front := drop_while is_space (list_ascii_of_string s) in
  string_of_list_ascii (rev (drop_while is_space (rev front))).

Definition of_res {S A} (r : Res A) : M S A := fun s => (r, s).

Definition parseRunnerFilter (filter : string) (allRunners : list string)
  : Res (list string) :=
  if negb (truthy filter) then Ok allRunners
  else
    let requested := map trim (split_on "," filter) in
    let invalid :=
      List.filter (fun r => negb (includes r allRunners)) requested in
    if (0 <? Z.of_nat (List.length invalid)) then
      Throw (Error ("Invalid runner(s): " ++ join ", " invalid ++ ". "
                    ++ "Available runners: " ++ join ", " allRunners))
    else Ok requested.

(** ** Single-runner executor *)

(** What the call of the back end meets: the time it takes and whether it
    returns or throws. The environments of this model describe calls that
    settle; a back end that stays pending (a CLI that never exits) is outside
    of them, and so is a browser call or a deletion that never returns. *)
Record GenEnv := mkGenEnv {
  gen_ms : Z;
  gen_outcome : BenchmarkResult.t + JsError
}.

Record CleanupEnv := mkCleanupEnv {
  cleanup_ms : Z;
  cleanup_rejects : option JsError
}.

(** Everything one runner's pipeline meets. *)
Record RunnerEnv := mkRunnerEnv {
  generate_env : GenEnv;
  compile_env : CompileEnv;
  serve_env : list (Z * ChildEvent);
  analyze_env : AnalyzeEnv;
  stop_env : StopEnv;
  cleanup_env : CleanupEnv;
  copy_rejects : option JsError
}.

(** [runnerConfig.runBenchmark(prompt, model)] *)
Definition call_runBenchmark (cfg : RunnerConfig) (prompt model : string)
  (env : GenEnv) : M World BenchmarkResult.t :=
  emit (EvGenerate (id cfg) prompt model);;
  sleep (gen_ms env);;
  match gen_outcome env with
  | inl r => ret r
  | inr e => throw e
  end.

(** [runnerConfig.cleanupWorkspace(dir)] *)
Definition call_cleanupWorkspace (dir : string) (env : CleanupEnv)
  : M World unit :=
  sleep (cleanup_ms env);;
  match cleanup_rejects env with
  | None => emit (EvCleanup dir true)
  | Some e => emit (EvCleanup dir false);; throw e
  end.

(** The [!] of [runResult.serverUrl!] checks nothing at run time. *)
Definition non_null (o : option string) : string :=
  match o with Some s => s | None => "undefined" end.

(** [xs?.length || 0] *)
Definition count_or_zero (o : option (list string)) : Z :=
  match o with Some l => Z.of_nat (List.length l) | None => 0 end.

Definition no_errors : ErrorCounts := mkErrorCounts 0 0.

Definition TypeError_undefined (prop : string) : JsError :=
  Error ("Cannot read properties of undefined (reading '" ++ prop ++ "')").

(** The body of the [try] block; the local is [serverProcess]. *)
Definition runner_try (runnerConfig : RunnerConfig)
  (runnerId prompt : string) (keepWorkspaces : bool) (dirname : string)
  (env : RunnerEnv) (startTime : Z)
  : M (World * option ChildProcess) RunnerBenchmarkResult.t :=
  let model := defaultModel runnerConfig in
       ((* 1. Code generation *)
        buildResult <-
          lift (call_runBenchmark runnerConfig prompt model
                  (generate_env env));;
        let build := BenchmarkResult.build buildResult in
        let workspaceDir := BenchmarkResult.workspaceDir buildResult in
        if negb (BuildResult.success build) then
          t <- lift date_now;;
          ret (RunnerBenchmarkResult.mk runnerId model false (t - startTime)
                 (mkDurations (BuildResult.duration build) 0 0 0)
                 no_errors None None (Some "Code generation failed"))
        else
        (* 2. Compile *)
        compileResult <- lift (compileApp workspaceDir (compile_env env));;
        if negb (CompileResult.success compileResult) then
          t <- lift date_now;;
          ret (RunnerBenchmarkResult.mk runnerId model false (t - startTime)
                 (mkDurations (BuildResult.duration build)
                    (CompileResult.duration compileResult) 0 0)
                 no_errors None (Some workspaceDir)
                 (Some "Compilation failed"))
        else
        (* 3. Run server *)
        runResult <- lift (runApp workspaceDir (serve_env env));;
        set_local (RunResult.process runResult);;
        if negb (RunResult.success runResult) then
          t <- lift date_now;;
          ret (RunnerBenchmarkResult.mk runnerId model false (t - startTime)
                 (mkDurations (BuildResult.duration build)
                    (CompileResult.duration compileResult)
                    (RunResult.duration runResult) 0)
                 no_errors None (Some workspaceDir)
                 (Some "Server startup failed"))
        else
        (* 4. Analyze app *)
        let resultsDir := path_join dirname "results" in
        analyzeResult <-
          lift (analyzeApp (non_null (RunResult.serverUrl runResult))
                  (runnerId ++ "-temp") resultsDir (analyze_env env));;
        (* 5. Stop server *)
        serverProcess <- local;;
        (match serverProcess with
         | Some _ =>
             p <- lift (stopApp serverProcess (stop_env env));;
             set_local p
         | None => ret tt
         end);;
        t <- lift date_now;;
        let totalDuration := t - startTime in
        let result :=
          RunnerBenchmarkResult.mk runnerId model true totalDuration
            (mkDurations (BuildResult.duration build)
               (CompileResult.duration compileResult)
               (RunResult.duration runResult)
               (AnalyzeResult.duration analyzeResult))
            (mkErrorCounts
               (count_or_zero (AnalyzeResult.consoleErrors analyzeResult))
               (count_or_zero (AnalyzeResult.pageErrors analyzeResult)))
            (AnalyzeResult.screenshotPath analyzeResult)
            (Some workspaceDir) None in
        (* 6. Cleanup workspace if requested *)
        (if (negb keepWorkspaces && cleanupWorkspace runnerConfig
             && truthy workspaceDir)%bool
         then lift (call_cleanupWorkspace workspaceDir (cleanup_env env))
         else ret tt);;
        ret result).

(** The [catch] block. *)
Definition runner_catch (runnerConfig : RunnerConfig) (runnerId : string)
  (env : RunnerEnv) (startTime : Z) (error : JsError)
  : M (World * option ChildProcess) RunnerBenchmarkResult.t :=
  let model := defaultModel runnerConfig in
          ((* Cleanup server if running *)
          serverProcess <- local;;
          (match serverProcess with
           | Some _ =>
               try_catch
                 (p <- lift (stopApp serverProcess (stop_env env));;
                  set_local p)
                 (fun _ => ret tt)
           | None => ret tt
           end);;
          t <- lift date_now;;
          ret (RunnerBenchmarkResult.mk runnerId model false (t - startTime)
                 (mkDurations 0 0 0 0) no_errors None None
                 (Some (message error)))).

Definition runSingleRunner (runnerId prompt : string) (keepWorkspaces : bool)
  (dirname : string) (env : RunnerEnv) : M World RunnerBenchmarkResult.t :=
  match getRunner runnerId with
  | None => throw (TypeError_undefined "defaultModel")
  | Some runnerConfig =>
      startTime <- date_now;;
      with_locals (None : option ChildProcess)
        (try_catch
           (runner_try runnerConfig runnerId prompt keepWorkspaces dirname
              env startTime)
           (runner_catch runnerConfig runnerId env startTime))
  end.

(** ** Multi-runner orchestrator *)

Record Summary := mkSummary {
  totalRunners : Z;
  successfulRunners : Z;
  failedRunners : Z;
  fastestRunner : option string;
  fastestTime : option Z
}.

Record BenchmarkMetadata := mkMetadata {
  appName : string;
  timestamp : string;
  dateStr : string;
  prompt : string;
  runners : list RunnerBenchmarkResult.t;
  summary : Summary
}.

Record Options := mkOptions {
  filter : option string;
  keepWorkspaces : option bool
}.

(** [new Date().toISOString()], [__dirname], and whether creating the output
    directory or writing the metadata file rejects. *)
Record OrchestratorEnv := mkOrchestratorEnv {
  iso_now : string;
  dirname : string;
  mkdir_rejects : option JsError;
  write_rejects : option JsError
}.

Fixpoint replace_first (c d : ascii) (s : string) : string :=
  match s with
  | EmptyString => EmptyString
  | String x s' =>
      if Ascii.eqb x c then String d s' else String x (replace_first c d s')
  end.

Fixpoint remove_all (c : ascii) (s : string) : string :=
  match s with
  | EmptyString => EmptyString
  | String x s' =>
      if Ascii.eqb x c then remove_all c s' else String x (remove_all c s')
  end.

Definition not_newline (c : ascii) : bool :=
  negb (Nat.eqb (code c) 10 || Nat.eqb (code c) 13)%bool.

(** [s.replace(/\..+/, '')] *)
Fixpoint cut_fraction (s : string) : string :=
  match s with
  | EmptyString => EmptyString
  | String x s' =>
      if Ascii.eqb x "." then
        match span not_newline s' with
        | (EmptyString, _) => String x (cut_fraction s')
        | (_, rest) => rest
        end
      else String x (cut_fraction s')
  end.

(** [s.replace(/-/g, (match, offset) => offset < 8 ? match : '')] *)
Fixpoint keep_early_dashes (offset : nat) (s : string) : string :=
  match s with
  | EmptyString => EmptyString
  | String x s' =>
      if (Ascii.eqb x "-" && negb (Nat.ltb offset 8))%bool
      then keep_early_dashes (S offset) s'
      else String x (keep_early_dashes (S offset) s')
  end.

Definition make_dateStr (iso : string) : string :=
  keep_early_dashes 0
    (cut_fraction (remove_all ":" (replace_first "T" "-" iso))).

Definition hd_string (l : list string) : string :=
  match l with x :: _ => x | [] => "undefined" end.

Definition copyScreenshot (sourcePath benchmarkDir runnerId dateStr : string)
  (rejects : option JsError) : M World string :=
  let dateOnly := hd_string (split_on "-" dateStr) in
  let filename := runnerId ++ "_" ++ dateOnly ++ ".png" in
  let destPath := path_join benchmarkDir filename in
  emit (EvCopyFile sourcePath destPath);;
  match rejects with
  | Some e => throw e
  | None => ret filename
  end.

Definition is_some_truthy (o : option string) : bool :=
  match o with Some s => truthy s | None => false end.

(** The result pushed when the executor throws. *)
Definition synthetic_failure (runnerId model : string) (error : JsError)
  : RunnerBenchmarkResult.t :=
  RunnerBenchmarkResult.mk runnerId model false 0 (mkDurations 0 0 0 0)
    no_errors None None (Some (message error)).

(** The entry written to the metadata: the screenshot path is reduced to its
    base name. *)
Definition persisted (r : RunnerBenchmarkResult.t) : RunnerBenchmarkResult.t :=
  RunnerBenchmarkResult.mk
    (RunnerBenchmarkResult.runner r) (RunnerBenchmarkResult.model r)
    (RunnerBenchmarkResult.success r) (RunnerBenchmarkResult.totalDuration r)
    (RunnerBenchmarkResult.durations r) (RunnerBenchmarkResult.errors r)
    (match RunnerBenchmarkResult.screenshotPath r with
     | Some p => if truthy p then Some (basename p) else None
     | None => None
     end)
    (RunnerBenchmarkResult.workspaceDir r) (RunnerBenchmarkResult.error r).

(** [successfulRunners.reduce((min, r) =>
      r.totalDuration < min.totalDuration ? r : min)] on a non-empty array. *)
Definition faster (min r : RunnerBenchmarkResult.t) : RunnerBenchmarkResult.t :=
  if RunnerBenchmarkResult.totalDuration r
     <? RunnerBenchmarkResult.totalDuration min
  then r else min.

Definition make_summary (results : list RunnerBenchmarkResult.t) : Summary :=
  let successful := List.filter RunnerBenchmarkResult.success results in
  let failed :=
    List.filter (fun r => negb (RunnerBenchmarkResult.success r)) results in
  let fastest :=
    match successful with
    | [] => None
    | first :: rest => Some (fold_left faster rest first)
    end in
  mkSummary (Z.of_nat (List.length results))
    (Z.of_nat (List.length successful)) (Z.of_nat (List.length failed))
    (option_map RunnerBenchmarkResult.runner fastest)
    (option_map RunnerBenchmarkResult.totalDuration fastest).

Section Orchestrator.

(** The executor the loop calls; [runSingleRunner] below. *)
Variable executor :
  string -> string -> bool -> string -> RunnerEnv ->
  M World RunnerBenchmarkResult.t.

Definition push (r : RunnerBenchmarkResult.t)
  : M (World * list RunnerBenchmarkResult.t) unit :=
  fun s => (Ok tt, (fst s, (snd s ++ [r])%list)).

(** One iteration of the loop; the local is the array [results]. *)
Definition run_iteration (oenv : OrchestratorEnv)
  (benchmarkDir dateStr prompt : string) (keep : bool)
  (runnerId : string) (env : RunnerEnv)
  : M (World * list RunnerBenchmarkResult.t) unit :=
  match getRunner runnerId with
  | None => throw (TypeError_undefined "name")
  | Some cfg =>
      try_catch
        (result <- lift (executor runnerId prompt keep (dirname oenv) env);;
         push result;;
         if (RunnerBenchmarkResult.success result
             && is_some_truthy (RunnerBenchmarkResult.screenshotPath result))%bool
         then
           try_catch
             (_ <- lift (copyScreenshot
                           (non_null
                              (RunnerBenchmarkResult.screenshotPath result))
                           benchmarkDir runnerId dateStr
                           (copy_rejects env));;
              ret tt)
             (fun error =>
                lift (emit (EvWarn ("Failed to copy screenshot: "
                                    ++ message error))))
         else ret tt)
        (fun error =>
           lift (emit (EvErrorLog ("Runner " ++ runnerId ++ " failed: "
                                   ++ message error)));;
           push (synthetic_failure runnerId (defaultModel cfg) error))
  end.

(** [for (let i = 0; i < runnersToRun.length; i++)]; [envs i] is what the
    [i]-th runner meets. *)
Fixpoint run_loop (oenv : OrchestratorEnv)
  (benchmarkDir dateStr prompt : string) (keep : bool)
  (envs : nat -> RunnerEnv) (i : nat) (runnersToRun : list string)
  : M (World * list RunnerBenchmarkResult.t) unit :=
  match runnersToRun with
  | [] => ret tt
  | runnerId :: rest =>
      run_iteration oenv benchmarkDir dateStr prompt keep runnerId (envs i);;
      run_loop oenv benchmarkDir dateStr prompt keep envs (S i) rest
  end.

Definition fs_call (ev : Event) (rejects : option JsError) : M World unit :=
  emit ev;;
  match rejects with
  | Some e => throw e
  | None => ret tt
  end.

Definition runMultiRunnerBenchmark_with (appName prompt : string)
  (options : Options) (oenv : OrchestratorEnv) (envs : nat -> RunnerEnv)
  : M World (string * BenchmarkMetadata) :=
  let keep := match keepWorkspaces options with
              | Some b => b | None => false end in
  let allRunners := getAvailableRunners in
  runnersToRun <-
    of_res (parseRunnerFilter (or_else (filter options) "") allRunners);;
  let dateStr := make_dateStr (iso_now oenv) in
  let benchmarkDir :=
    path_join_all
      [dirname oenv; "benchmarks"; prefix 15 dateStr; appName] in
  fs_call (EvMkdir benchmarkDir) (mkdir_rejects oenv);;
  with_locals ([] : list RunnerBenchmarkResult.t)
    (run_loop oenv benchmarkDir dateStr prompt keep envs 0 runnersToRun;;
     results <- local;;
     let metadata :=
       mkMetadata appName (iso_now oenv) dateStr prompt
         (map persisted results) (make_summary results) in
     let metadataPath := path_join benchmarkDir "metadata.json" in
     lift (fs_call (EvWriteFile metadataPath) (write_rejects oenv));;
     ret (benchmarkDir, metadata)).

End Orchestrator.

Definition runMultiRunnerBenchmark :=
  runMultiRunnerBenchmark_with runSingleRunner.

(** ** Reading an environment *)

(** The command ends within its time limit with exit code 0. *)
Definition exec_succeeds (timeout : Z) (env : ExecEnv) : bool :=
  (negb (timeout <? exec_ms env)
   && match exec_outcome env with ExecOk _ _ => true | ExecFail _ => false end)%bool.

(** The error [execAsync] rejects with, when it does. *)
Definition exec_error (cmd : string) (timeout : Z) (env : ExecEnv)
  : option JsError :=
  if timeout <? exec_ms env then
    Some (mkJsError
            ("Command failed: " ++ cmd ++ newline ++ snd (exec_partial env))
            (Some (fst (exec_partial env))) (Some (snd (exec_partial env))))
  else
    match exec_outcome env with
    | ExecOk _ _ => None
    | ExecFail e => Some e
    end.

Definition compile_succeeds (env : CompileEnv) : bool :=
  ((node_modules_present env || exec_succeeds (5 * 60 * 1000) (install_env env))
   && exec_succeeds (3 * 60 * 1000) (build_env env))%bool.

(** The first call of [resolve] or [reject]: what the promise of [runApp]
    settles with. *)
Definition serve_outcome (cwd : string) (evs : list (Z * ChildEvent))
  : option (Z * Settlement) :=
  hd_error (sv_calls (serve_loop evs (serve_init cwd))).

(** A chunk of standard output in which the ready pattern matches. *)
Definition ready (text : string) : bool :=
  match local_match (strip_ansi text) with Some _ => true | None => false end.



(** [analyzeApp] itself throws: a call after the launch rejects and then
    [browser.close()] rejects in the catch handler. *)
Definition analyze_throws (env : AnalyzeEnv) : bool :=
  match an_failure env, an_close_rejects env with
  | Some (s, _), Some _ => negb (step_eqb s Launch)
  | _, _ => false
  end.

(** [s.includes(needle)] *)
Definition contains (needle s : string) : bool :=
  match index 0 needle s with Some _ => true | None => false end.

(** The build command was run. *)
Definition is_build (ev : Event) : Prop :=
  match ev with EvExec cmd _ => cmd = "npm run build" | _ => False end.

(** ** Properties of a computation *)

Class Traced (S : Type) := trace_of : S -> list Event.
#[local] Instance Traced_World : Traced World := trace.
#[local] Instance Traced_locals (L : Type) : Traced (World * L) :=
  fun s => trace (fst s).

(** Every event [m] adds to the trace satisfies [P]. *)
Definition emits_only {S A} `{Traced S} (P : Event -> Prop) (m : M S A)
  : Prop :=
  forall s, exists evs,
    trace_of (snd (m s)) = (trace_of s ++ evs)%list /\ Forall P evs.

(** [m] never waits for ever. *)
Definition settles {S A} (m : M S A) : Prop :=
  forall s, fst (m s) <> Hang.

(** [m] always returns a value. *)
Definition total {S A} (m : M S A) : Prop :=
  forall s, exists a s', m s = (Ok a, s').

(** Every value [m] returns satisfies [Q]. *)
Definition ensures {S A} (m : M S A) (Q : A -> Prop) : Prop :=
  forall s a s', m s = (Ok a, s') -> Q a.

(** ** Predicates used in the statements *)

(** The error of the 30 s timer. *)
Definition timeout_error : JsError := Error "Server startup timeout (30s)".

(** How long [execAsync] takes. *)
Definition exec_elapsed (timeout : Z) (env : ExecEnv) : Z :=
  if timeout <? exec_ms env then timeout else exec_ms env.

(** While no call was made the timer is pending and the latch is open. *)
Definition unsettled_ok (st : ServeState) : Prop :=
  sv_calls st = [] -> sv_timer st = true /\ sv_resolved st = false.

(** Nothing has happened yet but output. *)
Definition pristine (st : ServeState) : Prop :=
  sv_resolved st = false /\ sv_timer st = true /\ sv_calls st = []
  /\ sv_kills st = [] /\ sv_exited st = false.

(** What a first call of [resolve] carries. *)
Definition resolved_shape (cwd : string) (t : Z) (r : RunResult.t) : Prop :=
  RunResult.success r = true
  /\ RunResult.process r = Some (mkChild cwd false)
  /\ (exists url, RunResult.serverUrl r = Some url)
  /\ RunResult.duration r = t.

(** The first call, when it is a [resolve], has that shape. *)
Definition first_call_ok (cwd : string) (st : ServeState) : Prop :=
  match sv_calls st with
  | [] => sv_child st = mkChild cwd false
  | (t, Resolved r) :: _ => resolved_shape cwd t r
  | (_, Rejected _) :: _ => True
  end.

(** Classes of events: no deletion attempted, no deletion completed, no
    analysis started, no warning logged. *)
Definition not_cleanup (ev : Event) : Prop :=
  match ev with EvCleanup _ _ => False | _ => True end.

Definition not_cleaned (ev : Event) : Prop :=
  match ev with EvCleanup _ true => False | _ => True end.


Definition not_warning (ev : Event) : Prop :=
  match ev with EvWarn _ => False | _ => True end.

(** The entry the loop records for a runner: what the executor returned, or
    the failed result made of what it threw. *)
Definition recorded
  (executor : string -> string -> bool -> string -> RunnerEnv ->
              M World RunnerBenchmarkResult.t)
  (oenv : OrchestratorEnv) (prompt : string) (keep : bool)
  (runnerId : string) (env : RunnerEnv) (w : World)
  (r : RunnerBenchmarkResult.t) : Prop :=
  match fst (executor runnerId prompt keep (dirname oenv) env w) with
  | Ok r0 => r = r0
  | Throw e =>
      exists cfg, getRunner runnerId = Some cfg
                  /\ r = synthetic_failure runnerId (defaultModel cfg) e
  | Hang => False
  end.

(** The same, in some world the iteration may start from. *)
Definition recorded_somewhere
  (executor : string -> string -> bool -> string -> RunnerEnv ->
              M World RunnerBenchmarkResult.t)
  (oenv : OrchestratorEnv) (prompt : string) (keep : bool)
  (runnerId : string) (r : RunnerBenchmarkResult.t) : Prop :=
  exists env w, recorded executor oenv prompt keep runnerId env w r.

(** The duration the reduction compares. *)
Definition total_of := RunnerBenchmarkResult.totalDuration.

(** The result the catch block of the executor builds. *)
Definition failed_as (runnerId : string) (cfg : RunnerConfig) (e : JsError)
  (r : RunnerBenchmarkResult.t) : Prop :=
  RunnerBenchmarkResult.runner r = runnerId
  /\ RunnerBenchmarkResult.model r = defaultModel cfg
  /\ RunnerBenchmarkResult.success r = false
  /\ RunnerBenchmarkResult.error r = Some (message e)
  /\ RunnerBenchmarkResult.durations r = mkDurations 0 0 0 0
  /\ RunnerBenchmarkResult.errors r = no_errors
  /\ RunnerBenchmarkResult.screenshotPath r = None
  /\ RunnerBenchmarkResult.workspaceDir r = None.

(** Whenever [m] does not return, every event it added satisfies [P]. *)
Definition throws_only {S A} `{Traced S} (P : Event -> Prop) (m : M S A)
  : Prop :=
  forall s,
    match fst (m s) with
    | Ok _ => True
    | _ => exists evs,
        trace_of (snd (m s)) = (trace_of s ++ evs)%list /\ Forall P evs
    end.

(** What the child has written by the end of [evs]. *)
Fixpoint outputs (evs : list (Z * ChildEvent)) : string :=
  match evs with
  | [] => ""
  | (_, StdoutData text) :: rest => text ++ outputs rest
  | (_, StderrData text) :: rest => text ++ outputs rest
  | _ :: rest => outputs rest
  end.

(** An event before 30000 ms that is output without a ready line. *)
Definition early_quiet (e : Z * ChildEvent) : Prop :=
  fst e < startup_timeout
  /\ match snd e with
     | StdoutData text => ready text = false
     | StderrData _ => True
     | ErrorEvent _ | ExitEvent _ => False
     end.

(** The escape character that opens an ANSI sequence. *)
Definition esc : string := String (ascii_of_nat 27) EmptyString.

(** ** Sample environments *)

Definition w0 : World := mkWorld 1000000 [].

Definition exec_in (ms : Z) : ExecEnv := mkExecEnv ms (ExecOk "done" "") ("", "").

(** The error of [exec] for a command that exits with a code other than 0:
    its message is the command line and, after a line feed, what the command
    wrote to its standard error. *)
Definition command_failed (cmd err : string) : JsError :=
  mkJsError ("Command failed: " ++ cmd ++ newline ++ err) (Some "") (Some err).

Definition exec_failing (ms : Z) (err : string) : ExecEnv :=
  mkExecEnv ms (ExecFail (command_failed "npm install" err)) ("", "").

Definition build_failing (ms : Z) (err : string) : ExecEnv :=
  mkExecEnv ms (ExecFail (command_failed "npm run build" err)) ("", "").

(** A command that ends with exit code 0 after writing to both streams. *)
Definition exec_writes (ms : Z) (out err : string) : ExecEnv :=
  mkExecEnv ms (ExecOk out err) ("", "").

Definition generated_in (ms : Z) (dir : string) : GenEnv :=
  mkGenEnv ms
    (inl (BenchmarkResult.mk "Build a todo app" "model" "2025-10-15" dir "ws"
            (BuildResult.mk true ms None None))).

Definition generated_a : BenchmarkResult.t :=
  BenchmarkResult.mk "Build a todo app" "model" "2025-10-15" "/tmp/ws/a" "ws"
    (BuildResult.mk true 4000 None None).

Definition browser_fine : AnalyzeEnv :=
  mkAnalyzeEnv None None (fun _ => 100) [("log", "ready")] [] "Todo".

Definition browser_cannot_navigate : AnalyzeEnv :=
  mkAnalyzeEnv (Some (Goto, Error "Timeout 30000ms exceeded")) None
    (fun _ => 100) [("error", "net::ERR")] [] "".

Definition browser_cannot_close : AnalyzeEnv :=
  mkAnalyzeEnv (Some (Goto, Error "Timeout 30000ms exceeded"))
    (Some (Error "Target closed")) (fun _ => 100) [] [] "".

Definition vite_ready_at (ms : Z) : list (Z * ChildEvent) :=
  [ (ms - 50, StderrData "(node) warning");
    (ms, StdoutData "  Local:   http://localhost:5173/") ].

Definition started_a : RunResult.t :=
  RunResult.mk true (Some "http://localhost:5173")
    (Some (mkChild "/tmp/ws/a" false)) 300
    (Some "(node) warning  Local:   http://localhost:5173/") None.


(** A run in which every stage succeeds; the total is [gen + 5000] ms. *)
Definition smooth_run (gen : Z) (dir : string) : RunnerEnv :=
  mkRunnerEnv (generated_in gen dir)
    (mkCompileEnv true (exec_in 0) (exec_in 2000))
    (vite_ready_at 300) browser_fine (mkStopEnv true (Some 900))
    (mkCleanupEnv 10 None) None.

Definition with_compile (c : CompileEnv) (e : RunnerEnv) : RunnerEnv :=
  mkRunnerEnv (generate_env e) c (serve_env e) (analyze_env e) (stop_env e)
    (cleanup_env e) (copy_rejects e).

Definition with_serve (s : list (Z * ChildEvent)) (e : RunnerEnv) : RunnerEnv :=
  mkRunnerEnv (generate_env e) (compile_env e) s (analyze_env e) (stop_env e)
    (cleanup_env e) (copy_rejects e).

Definition with_analyze (a : AnalyzeEnv) (e : RunnerEnv) : RunnerEnv :=
  mkRunnerEnv (generate_env e) (compile_env e) (serve_env e) a (stop_env e)
    (cleanup_env e) (copy_rejects e).

Definition with_cleanup (c : CleanupEnv) (e : RunnerEnv) : RunnerEnv :=
  mkRunnerEnv (generate_env e) (compile_env e) (serve_env e) (analyze_env e)
    (stop_env e) c (copy_rejects e).

Definition install_breaks : CompileEnv :=
  mkCompileEnv false (exec_failing 700 "npm ERR! code E404") (exec_in 2000).

Definition long_stderr : string := string_of_list_ascii (repeat "x"%char 501).

Definition cleanup_breaks : CleanupEnv :=
  mkCleanupEnv 10 (Some (Error "EBUSY: resource busy or locked")).

(** A serve stage that rejects after the workspace was generated and
    compiled. *)
Definition server_dies : RunnerEnv :=
  with_serve [(1200, ExitEvent (Some 1))] (smooth_run 4000 "/tmp/ws/a").

Definition sigrid_config : RunnerConfig :=
  mkRunnerConfig "sigrid" "Sigrid (OpenAI)" "gpt-5" true.

(** The state in which the [try] block leaves that run. *)
Definition server_dies_state : World * option ChildProcess :=
  Eval vm_compute in
    snd (runner_try sigrid_config "sigrid" "Build a todo app" false "/abe"
           server_dies (now w0) (w0, None)).

Definition sample_oenv : OrchestratorEnv :=
  mkOrchestratorEnv "2025-10-15T12:34:56.789Z" "/abe" None None.

Definition both_runners : Options := mkOptions (Some "sigrid, claude") None.

(** An executor that crashes for one runner and runs the pipeline for the
    others. *)
Definition crashing_for (victim : string)
  (runnerId prompt : string) (keep : bool) (dir : string) (env : RunnerEnv)
  : M World RunnerBenchmarkResult.t :=
  if String.eqb runnerId victim then throw (Error "executor crashed")
  else runSingleRunner runnerId prompt keep dir env.

(** The scenario of the specification: sigrid takes 12000 ms, claude 9000. *)
Definition two_successes (i : nat) : RunnerEnv :=
  match i with
  | O => smooth_run 7000 "/tmp/ws/a"
  | _ => smooth_run 4000 "/tmp/ws/b"
  end.

Definition scenario : Res (string * BenchmarkMetadata) * World :=
  Eval vm_compute in
    runMultiRunnerBenchmark "todo-app" "Build a todo app" both_runners
      sample_oenv two_successes w0.

Definition scenario_dir : string :=
  Eval vm_compute in
    match fst scenario with Ok (d, _) => d | _ => "" end.

Definition scenario_md : BenchmarkMetadata :=
  Eval vm_compute in
    match fst scenario with
    | Ok (_, md) => md
    | _ => mkMetadata "" "" "" "" [] (make_summary [])
    end.

(** * The rest of the driver

    The prompt loader, the legacy single-runner benchmark, the command line
    and the Claude Code back end. *)

(** ** More text helpers *)

(** The double quote and the backslash. *)
Definition quote : string := String (ascii_of_nat 34) EmptyString.
Definition backslash : string := String (ascii_of_nat 92) EmptyString.

(** [s.endsWith(suffix)]: some tail of [s] is [suffix]. *)
Fixpoint ends_with (suffix s : string) : bool :=
  if String.eqb suffix s then true
  else
    match s with
    | EmptyString => false
    | String _ s' => ends_with suffix s'
    end.

(** [s.slice(n)] *)
Fixpoint drop (n : nat) (s : string) : string :=
  match n, s with
  | O, _ => s
  | S k, String _ s' => drop k s'
  | S _, EmptyString => EmptyString
  end.

(** [s.replace(pat, rep)] for a string pattern: the first occurrence only. *)
Fixpoint replace_first_sub (pat rep s : string) : string :=
  if String.prefix pat s then rep ++ drop (String.length pat) s
  else
    match s with
    | EmptyString => EmptyString
    | String c s' => String c (replace_first_sub pat rep s')
    end.

(** [s] without its suffix [suffix], when it has it. *)
Fixpoint strip_suffix (suffix s : string) : option string :=
  if String.eqb suffix s then Some EmptyString
  else
    match s with
    | EmptyString => None
    | String c s' => option_map (String c) (strip_suffix suffix s')
    end.

(** POSIX [path.basename(p, ext)] for a non-empty [ext], on a path that does
    not end in a slash: the last component without [ext]; a component that
    is [ext] itself is kept, and a path that is [ext] itself gives the empty
    string. *)
Definition basename_ext (p ext : string) : string :=
  if String.eqb ext p then EmptyString
  else
    let base := basename p in
    match strip_suffix ext base with
    | Some stem => if truthy stem then stem else base
    | None => base
    end.

(** [xs.sort(cmp)]: the sort is stable; [x] goes after [y] when
    [cmp x y > 0]. *)
Fixpoint insert_by {A} (cmp : A -> A -> Z) (x : A) (l : list A) : list A :=
  match l with
  | [] => [x]
  | y :: l' => if cmp x y <=? 0 then x :: l else y :: insert_by cmp x l'
  end.

Definition sort_by {A} (cmp : A -> A -> Z) (l : list A) : list A :=
  fold_right (insert_by cmp) [] l.

Definition of_sum {S A} (r : A + JsError) : M S A :=
  match r with
  | inl a => ret a
  | inr e => throw e
  end.

(** [xs.push(x)] on the array held in the locals. *)
Definition push_to {A} (x : A) : M (World * list A) unit :=
  fun s => (Ok tt, (fst s, (snd s ++ [x])%list)).

(** ** Prompts *)

Module TestPrompt.
Record t := mk {
  id : string;
  prompt : string
}.
End TestPrompt.

(** What the file system answers to [fs.readFile(p, 'utf-8')],
    [fs.readdir(p)] and [fs.access(p)] (whether it resolves), and the
    collation [a.localeCompare(b)] of the host. *)
Record FsEnv := mkFsEnv {
  readFile : string -> string + JsError;
  readdir : string -> list string + JsError;
  access : string -> bool;
  localeCompare : string -> string -> Z
}.

Definition loadPromptFromFile (filePath : string) (fs : FsEnv)
  : M World string :=
  content <- of_sum (readFile fs filePath);;
  ret (trim content).

(** The body of the [for] loop; the local is the array [prompts]. *)
Fixpoint load_each (promptsDir : string) (fs : FsEnv) (txtFiles : list string)
  : M (World * list TestPrompt.t) unit :=
  match txtFiles with
  | [] => ret tt
  | file :: rest =>
      let id := replace_first_sub ".txt" "" file in
      let filePath := path_join promptsDir file in
      prompt <- lift (loadPromptFromFile filePath fs);;
      push_to (TestPrompt.mk id prompt);;
      load_each promptsDir fs rest
  end.

Definition loadAllPrompts (dirname : string) (fs : FsEnv)
  : M World (list TestPrompt.t) :=
  let promptsDir := path_join dirname "prompts" in
  try_catch
    (files <- of_sum (readdir fs promptsDir);;
     let txtFiles := List.filter (ends_with ".txt") files in
     with_locals ([] : list TestPrompt.t)
       (load_each promptsDir fs txtFiles;;
        prompts <- local;;
        ret (sort_by
               (fun a b => localeCompare fs (TestPrompt.id a) (TestPrompt.id b))
               prompts)))
    (fun error =>
       emit (EvWarn ("Warning: Could not load prompts from " ++ promptsDir));;
       ret []).

Definition resolvePrompt (input dirname : string) (fs : FsEnv)
  : M World TestPrompt.t :=
  let isFilePath :=
    (contains "/" input || contains backslash input
     || ends_with ".txt" input)%bool in
  if isFilePath then
    try_catch
      (prompt <- loadPromptFromFile input fs;;
       let id := basename_ext input ".txt" in
       ret (TestPrompt.mk id prompt))
      (fun error =>
         throw (Error ("Failed to load prompt from file " ++ quote ++ input
                       ++ quote ++ ": " ++ message error)))
  else
    let promptsDir := path_join dirname "prompts" in
    let builtInPath := path_join promptsDir (input ++ ".txt") in
    try_catch
      ((if access fs builtInPath then ret tt
        else throw (Error ("ENOENT: no such file or directory, access '"
                           ++ builtInPath ++ "'")));;
       prompt <- loadPromptFromFile builtInPath fs;;
       ret (TestPrompt.mk input prompt))
      (fun _ => ret (TestPrompt.mk "custom" input)).

(** ** The legacy benchmark of one runner over several prompts *)

Module FullBenchmarkResult.
(** The spread [...benchmarkResult] is written out; its [prompt] comes after
    the literal's and replaces it. [model] is absent when neither the options
    nor the registry entry give one. *)
Record t := mk {
  id : string;
  prompt : string;
  success : bool;
  model : option string;
  timestamp : string;
  workspaceDir : string;
  workspaceId : string;
  build : BuildResult.t;
  compile : option CompileResult.t;
  run : option RunResult.t;
  analyze : option AnalyzeResult.t;
  error : option string
}.
End FullBenchmarkResult.

Module BenchmarkOptions.
Record t := mk {
  model : option string;
  runner : option string;
  resultsDir : option string;
  keepWorkspaces : option bool
}.
End BenchmarkOptions.

Module BenchmarkSummary.
Record t := mk {
  runner : string;
  model : option string;
  timestamp : string;
  totalDuration : Z;
  totalPrompts : Z;
  successCount : Z;
  failureCount : Z;
  keepWorkspaces : bool;
  results : list FullBenchmarkResult.t;
  summaryFile : option string
}.
End BenchmarkSummary.

(** The first argument: a string, an array of strings and prompt objects, or
    any other value. *)
Inductive Prompts :=
| OnePrompt (p : string)
| ManyPrompts (ps : list (string + TestPrompt.t))
| OtherValue.

(** [RUNNERS[runnerId]] for an arbitrary string: an entry of the registry, a
    member that the object inherits from [Object.prototype] (a function or
    an object, so a truthy value without [defaultModel], [runBenchmark] or
    [cleanupWorkspace]), or [undefined]. *)
Inductive Member :=
| Own (cfg : RunnerConfig)
| Inherited
| Undefined.

Definition object_prototype_names : list string :=
  [ "constructor"; "__proto__"; "hasOwnProperty"; "isPrototypeOf";
    "propertyIsEnumerable"; "toLocaleString"; "toString"; "valueOf";
    "__defineGetter__"; "__defineSetter__"; "__lookupGetter__";
    "__lookupSetter__" ].

Definition RUNNERS_at (runnerId : string) : Member :=
  match lookup runnerId RUNNERS with
  | Some cfg => Own cfg
  | None =>
      if includes runnerId object_prototype_names then Inherited
      else Undefined
  end.

(** What the legacy benchmark meets: [__dirname], [toISOString] of the clock,
    the two file-system calls of its own, the stages of the [i]-th prompt,
    the stop of the [k]-th running server and the deletion of the [k]-th
    result's workspace. *)
Record LegacyEnv := mkLegacyEnv {
  lg_dirname : string;
  lg_iso : Z -> string;
  lg_mkdir_rejects : option JsError;
  lg_write_rejects : option JsError;
  lg_prompt_env : nat -> RunnerEnv;
  lg_stop_env : nat -> StopEnv;
  lg_cleanup_env : nat -> CleanupEnv
}.

(** The locals of the loop: [results] and [runningProcesses]. *)
Definition LegacyLocals : Type :=
  (list FullBenchmarkResult.t * list (string * ChildProcess))%type.

Definition push_result (r : FullBenchmarkResult.t)
  : M (World * LegacyLocals) unit :=
  fun s => (Ok tt, (fst s, ((fst (snd s) ++ [r])%list, snd (snd s)))).

Definition push_process (p : string * ChildProcess)
  : M (World * LegacyLocals) unit :=
  fun s => (Ok tt, (fst s, (fst (snd s), (snd (snd s) ++ [p])%list))).

(** [{ id, prompt, success, ...benchmarkResult, compile, run, analyze }] *)
Definition spread (id : string) (success : bool) (b : BenchmarkResult.t)
  (compile : option CompileResult.t) (run : option RunResult.t)
  (analyze : option AnalyzeResult.t) : FullBenchmarkResult.t :=
  FullBenchmarkResult.mk id (BenchmarkResult.prompt b) success
    (Some (BenchmarkResult.model b)) (BenchmarkResult.timestamp b)
    (BenchmarkResult.workspaceDir b) (BenchmarkResult.workspaceId b)
    (BenchmarkResult.build b) compile run analyze None.

(** The [run] and [analyze] entries list their fields one by one: the
    process handle, the navigation time and the console messages are left
    out. *)
Definition run_entry (r : RunResult.t) : RunResult.t :=
  RunResult.mk (RunResult.success r) (RunResult.serverUrl r) None
    (RunResult.duration r) (RunResult.output r) (RunResult.error r).

Definition analyze_entry (a : AnalyzeResult.t) : AnalyzeResult.t :=
  AnalyzeResult.mk (AnalyzeResult.success a) (AnalyzeResult.duration a) None
    (AnalyzeResult.screenshotPath a) (AnalyzeResult.title a) None
    (AnalyzeResult.consoleErrors a) (AnalyzeResult.pageErrors a)
    (AnalyzeResult.hasErrors a) (AnalyzeResult.error a).

Definition failed_run (msg : string) : RunResult.t :=
  RunResult.mk false None None 0 None (Some msg).

Definition failed_analysis (msg : string) : AnalyzeResult.t :=
  AnalyzeResult.mk false 0 None None None None None None None (Some msg).

(** Step 1-3 of an iteration: the call of the runner's back end. A member
    inherited from [Object.prototype] has no [runBenchmark]. *)
Definition legacy_generate (runnerConfig : option RunnerConfig)
  (model : option string) (prompt : string) (env : RunnerEnv)
  : M (World * LegacyLocals) BenchmarkResult.t :=
  match runnerConfig, model with
  | Some cfg, Some m =>
      lift (call_runBenchmark cfg prompt m (generate_env env))
  | _, _ => throw (Error "runnerConfig.runBenchmark is not a function")
  end.

(** Step 5 of an iteration, with its own [try]: a server that starts is
    added to [runningProcesses]. *)
Definition legacy_run (id workspaceDir : string) (env : RunnerEnv)
  : M (World * LegacyLocals) RunResult.t :=
  try_catch
    (r <- lift (runApp workspaceDir (serve_env env));;
     match RunResult.process r with
     | Some serverProcess => push_process (id, serverProcess)
     | None => ret tt
     end;;
     ret r)
    (fun runError => ret (failed_run (message runError))).

(** Step 6 of an iteration: only if the server started. *)
Definition legacy_analyze (runResult : RunResult.t)
  (id resultsDir : string) (env : RunnerEnv)
  : M (World * LegacyLocals) AnalyzeResult.t :=
  if RunResult.success runResult then
    try_catch
      (lift (analyzeApp (non_null (RunResult.serverUrl runResult)) id
               resultsDir (analyze_env env)))
      (fun analyzeError => ret (failed_analysis (message analyzeError)))
  else ret (failed_analysis "Server not running").

(** What follows the code generation inside the [try] block. *)
Definition legacy_stages (benchmarkResult : BenchmarkResult.t)
  (id resultsDir : string) (env : RunnerEnv)
  : M (World * LegacyLocals) unit :=
  let build := BenchmarkResult.build benchmarkResult in
  let workspaceDir := BenchmarkResult.workspaceDir benchmarkResult in
  if negb (BuildResult.success build) then
    push_result (spread id false benchmarkResult None None None)
  else
  (* Step 4: compile *)
  compileResult <- lift (compileApp workspaceDir (compile_env env));;
  if negb (CompileResult.success compileResult) then
    push_result
      (spread id false benchmarkResult (Some compileResult) None None)
  else
  runResult <- legacy_run id workspaceDir env;;
  analyzeResult <- legacy_analyze runResult id resultsDir env;;
  let overallSuccess :=
    (BuildResult.success build && CompileResult.success compileResult
     && RunResult.success runResult
     && AnalyzeResult.success analyzeResult)%bool in
  push_result
    (spread id overallSuccess benchmarkResult (Some compileResult)
       (Some (run_entry runResult))
       (Some (analyze_entry analyzeResult))).

(** The [catch] block of an iteration. Here and below a logged line is
    given without its leading line break and pictogram. *)
Definition legacy_catch (model : option string) (lenv : LegacyEnv)
  (testPrompt : TestPrompt.t) (error : JsError)
  : M (World * LegacyLocals) unit :=
  let errorMessage := message error in
  lift (emit (EvErrorLog ("Error running " ++ TestPrompt.id testPrompt
                          ++ ": " ++ errorMessage)));;
  t <- lift date_now;;
  push_result
    (FullBenchmarkResult.mk (TestPrompt.id testPrompt)
       (TestPrompt.prompt testPrompt) false model (lg_iso lenv t) "" ""
       (BuildResult.mk false 0 None (Some errorMessage))
       None None None (Some errorMessage)).

(** One iteration of the loop over the prompts. *)
Definition legacy_iteration (runnerConfig : option RunnerConfig)
  (model : option string) (resultsDir : string) (lenv : LegacyEnv)
  (i : nat) (testPrompt : TestPrompt.t)
  : M (World * LegacyLocals) unit :=
  let env := lg_prompt_env lenv i in
  try_catch
    (benchmarkResult <-
       legacy_generate runnerConfig model (TestPrompt.prompt testPrompt) env;;
     legacy_stages benchmarkResult (TestPrompt.id testPrompt) resultsDir env)
    (legacy_catch model lenv testPrompt).

Fixpoint legacy_loop (runnerConfig : option RunnerConfig)
  (model : option string) (resultsDir : string) (lenv : LegacyEnv)
  (i : nat) (promptsToRun : list TestPrompt.t)
  : M (World * LegacyLocals) unit :=
  match promptsToRun with
  | [] => ret tt
  | testPrompt :: rest =>
      legacy_iteration runnerConfig model resultsDir lenv i testPrompt;;
      legacy_loop runnerConfig model resultsDir lenv (S i) rest
  end.

(** [for (const { id, process } of runningProcesses)] *)
Fixpoint stop_all (lenv : LegacyEnv) (k : nat)
  (runningProcesses : list (string * ChildProcess)) : M World unit :=
  match runningProcesses with
  | [] => ret tt
  | (id, process) :: rest =>
      try_catch
        (_ <- stopApp (Some process) (lg_stop_env lenv k);; ret tt)
        (fun error =>
           emit (EvWarn ("Failed to stop " ++ id ++ ": " ++ message error)));;
      stop_all lenv (S k) rest
  end.

(** [for (const result of results)] of the deletion step. *)
Fixpoint cleanup_all (lenv : LegacyEnv) (k : nat)
  (results : list FullBenchmarkResult.t) : M World unit :=
  match results with
  | [] => ret tt
  | result :: rest =>
      let dir := FullBenchmarkResult.workspaceDir result in
      (if truthy dir then
         try_catch
           (call_cleanupWorkspace dir (lg_cleanup_env lenv k))
           (fun error =>
              emit (EvWarn ("Failed to delete workspace " ++ dir ++ ": "
                            ++ message error)))
       else ret tt);;
      cleanup_all lenv (S k) rest
  end.

Definition normalize_prompts (prompts : Prompts)
  : Res (list TestPrompt.t) :=
  match prompts with
  | OnePrompt p => Ok [TestPrompt.mk "custom" p]
  | ManyPrompts ps =>
      Ok (map (fun p => match p with
                        | inl s => TestPrompt.mk "custom" s
                        | inr tp => tp
                        end) ps)
  | OtherValue =>
      Throw (Error "prompts must be a string or array of strings/objects")
  end.

Definition truthy_string (o : option string) : option string :=
  match o with
  | Some s => if truthy s then Some s else None
  | None => None
  end.

Definition runBenchmark (prompts : Prompts) (options : BenchmarkOptions.t)
  (lenv : LegacyEnv) : M World BenchmarkSummary.t :=
  let runnerId :=
    match BenchmarkOptions.runner options with
    | Some r => r | None => "sigrid" end in
  let resultsDir :=
    match BenchmarkOptions.resultsDir options with
    | Some d => d | None => path_join (lg_dirname lenv) "results" end in
  let keepWorkspaces :=
    match BenchmarkOptions.keepWorkspaces options with
    | Some b => b | None => false end in
  match RUNNERS_at runnerId with
  | Undefined =>
      throw (Error ("Runner " ++ quote ++ runnerId ++ quote
                    ++ " not found. Available runners: "
                    ++ join ", " getAvailableRunners))
  | member =>
      let runnerConfig :=
        match member with Own cfg => Some cfg | _ => None end in
      let model :=
        match runnerConfig with
        | Some cfg =>
            Some (or_else (BenchmarkOptions.model options) (defaultModel cfg))
        | None => truthy_string (BenchmarkOptions.model options)
        end in
      promptsToRun <- of_res (normalize_prompts prompts);;
      startTime <- date_now;;
      fs_call (EvMkdir resultsDir) (lg_mkdir_rejects lenv);;
      with_locals (([], []) : LegacyLocals)
        (legacy_loop runnerConfig model resultsDir lenv 0 promptsToRun;;
         locals <- local;;
         let results := fst locals in
         let runningProcesses := snd locals in
         (* Stop all running servers *)
         lift (stop_all lenv 0 runningProcesses);;
         t1 <- lift date_now;;
         let totalDuration := t1 - startTime in
         let successCount :=
           Z.of_nat (List.length
                       (List.filter FullBenchmarkResult.success results)) in
         (* Clean up workspaces if requested *)
         (if (negb keepWorkspaces
              && match runnerConfig with
                 | Some cfg => cleanupWorkspace cfg
                 | None => false
                 end)%bool
          then lift (cleanup_all lenv 0 results)
          else ret tt);;
         (* Save summary *)
         t2 <- lift date_now;;
         let summaryFile :=
           path_join resultsDir ("summary-" ++ show_Z t2 ++ ".json") in
         t3 <- lift date_now;;
         let summary :=
           BenchmarkSummary.mk runnerId model (lg_iso lenv t3) totalDuration
             (Z.of_nat (List.length results)) successCount
             (Z.of_nat (List.length results) - successCount)
             keepWorkspaces results (Some summaryFile) in
         lift (fs_call (EvWriteFile summaryFile) (lg_write_rejects lenv));;
         ret summary)
  end.

(** ** The command line *)

(** [program.opts()] *)
Record CliOptions := mkCliOptions {
  opt_filter : string;
  opt_prompt : string;
  opt_keepWorkspaces : bool
}.

(** [process.argv]; what [program.parse()] does with it (it ends the process
    with an exit code, or gives the options and the app name); and what the
    calls made from [main] meet. *)
Record MainEnv := mkMainEnv {
  argv : list string;
  parsed : Z + (CliOptions * string);
  main_fs : FsEnv;
  main_oenv : OrchestratorEnv;
  main_envs : nat -> RunnerEnv
}.

(** The value is the code [process.exit] is called with. *)
Definition main (env : MainEnv) : M World Z :=
  let here := dirname (main_oenv env) in
  if (includes "--list-prompts" (argv env) || includes "-l" (argv env))%bool
  then
    _ <- loadAllPrompts here (main_fs env);;
    ret 0
  else
    match parsed env with
    | inl code => ret code
    | inr (options, appName) =>
        let filter := opt_filter options in
        let keepWorkspaces := opt_keepWorkspaces options in
        let customPrompt := opt_prompt options in
        (* Validate runner filter if provided *)
        valid <-
          (if truthy filter then
             try_catch
               (_ <- of_res (parseRunnerFilter filter getAvailableRunners);;
                ret true)
               (fun error => emit (EvErrorLog (message error));; ret false)
           else ret true);;
        if negb valid then ret 1
        else
          (* Resolve prompt *)
          resolved <-
            (if truthy customPrompt then ret (Some (customPrompt, appName))
             else
               try_catch
                 (r <- resolvePrompt appName here (main_fs env);;
                  ret (Some (TestPrompt.prompt r, TestPrompt.id r)))
                 (fun error =>
                    allPrompts <- loadAllPrompts here (main_fs env);;
                    emit (EvErrorLog ("App/Prompt " ++ quote ++ appName
                                      ++ quote ++ " not found"));;
                    emit (EvErrorLog
                            ("Available prompt IDs: "
                             ++ join ", " (map TestPrompt.id allPrompts)));;
                    emit (EvErrorLog
                            "Use --list-prompts to see all available prompts");;
                    emit (EvErrorLog
                            "Or provide a file path (e.g., prompts/todo-app.txt)");;
                    emit (EvErrorLog
                            "Or use --prompt to provide a custom prompt string");;
                    ret None));;
          match resolved with
          | None => ret 1
          | Some (prompt, resolvedAppName) =>
              try_catch
                (r <- runMultiRunnerBenchmark resolvedAppName prompt
                        (mkOptions (Some filter) (Some keepWorkspaces))
                        (main_oenv env) (main_envs env);;
                 let hasFailures :=
                   0 <? failedRunners (summary (snd r)) in
                 ret (if hasFailures then 1 else 0))
                (fun error =>
                   emit (EvErrorLog ("Unexpected error: " ++ message error));;
                   ret 1)
          end
    end.

(** ** The Claude Code back end *)

Module ClaudeRunner.

Record Workspace := mkWorkspace {
  path : string;
  id : string
}.

(** What the back end meets: the random workspace id, whether creating the
    directory or extracting the tarball rejects, what [spawn] does, and
    [toISOString] of the clock. [spawn] either throws at once (an argument
    with a NUL byte, an argument list that is too long) or starts the CLI,
    whose events are stamped with the time since the spawn. *)
Record Env := mkEnv {
  random_hex : string;
  mkdir_fails : option JsError;
  extract_fails : option JsError;
  cli_events : list (Z * ChildEvent) + JsError;
  iso : Z -> string
}.

Record BuildOutcome := mkBuildOutcome {
  success : bool;
  content : option string;
  duration : Z;
  error : option string
}.

Definition createTempWorkspace (env : Env) : M World Workspace :=
  let id := random_hex env in
  let workspacePath := path_join_all ["/tmp"; "claude-workspaces"; id] in
  fs_call (EvMkdir workspacePath) (mkdir_fails env);;
  ret (mkWorkspace workspacePath id).

(** Which tarball is taken is only logged; [tar.x] may reject. *)
Definition populateWorkspace (workspace : Workspace) (env : Env)
  : M World unit :=
  match extract_fails env with
  | Some e => throw e
  | None => ret tt
  end.

(** The handlers of the spawned CLI: the output is gathered until the first
    [exit] or [error] event, which resolves the promise. *)
Fixpoint cli_loop (evs : list (Z * ChildEvent)) (stdout stderr : string)
  : option (Z * BuildOutcome) :=
  match evs with
  | [] => None
  | (_, StdoutData data) :: rest => cli_loop rest (stdout ++ data) stderr
  | (_, StderrData data) :: rest => cli_loop rest stdout (stderr ++ data)
  | (t, ExitEvent code) :: _ =>
      Some (t,
            match code with
            | Some 0 => mkBuildOutcome true (Some stdout) t None
            | _ =>
                mkBuildOutcome false None t
                  (Some ("Process exited with code " ++ show_code code
                         ++ ": " ++ stderr))
            end)
  | (t, ErrorEvent error) :: _ =>
      Some (t, mkBuildOutcome false None t (Some (message error)))
  end.

(** An exception of [spawn] is thrown inside the executor of the promise,
    which rejects with it. *)
Definition buildAppWithPrompt (workspace : Workspace) (prompt model : string)
  (env : Env) : M World BuildOutcome :=
  match cli_events env with
  | inr error => throw error
  | inl events =>
      emit (EvSpawn (path workspace));;
      match cli_loop events "" "" with
      | None => fun w => (Hang, w)
      | Some (t, outcome) => sleep t;; ret outcome
      end
  end.

(** [content?.substring(0, 200) || null] *)
Definition contentPreview (content : option string) : option string :=
  match content with
  | Some c => truthy_string (Some (prefix 200 c))
  | None => None
  end.

(** The [catch] block prints the error object and throws it again; the log
    event keeps its message. *)
Definition runBenchmark (prompt : string) (model : option string) (env : Env)
  : M World BenchmarkResult.t :=
  let model := match model with Some m => m | None => "sonnet" end in
  try_catch
    (workspace <- createTempWorkspace env;;
     populateWorkspace workspace env;;
     buildResult <- buildAppWithPrompt workspace prompt model env;;
     t <- date_now;;
     ret (BenchmarkResult.mk prompt model (iso env t) (path workspace)
            (id workspace)
            (BuildResult.mk (success buildResult) (duration buildResult)
               (contentPreview (content buildResult))
               (error buildResult))))
    (fun error =>
       emit (EvErrorLog ("Unexpected error: " ++ message error));;
       throw error).

End ClaudeRunner.

(** ** Predicates used in the further statements *)

(** Every character of [s] satisfies [p]. *)
Fixpoint all_chars (p : ascii -> bool) (s : string) : bool :=
  match s with
  | EmptyString => true
  | String c s' => (p c && all_chars p s')%bool
  end.

(** Equal up to the case of ASCII letters. *)
Fixpoint same_ci (a b : string) : bool :=
  match a, b with
  | EmptyString, EmptyString => true
  | String x a', String y b' => (eqb_ci x y && same_ci a' b')%bool
  | _, _ => false
  end.

(** What group 1 of the ready pattern can hold: the scheme and host in any
    letter case, then a port of one digit or more. *)
Definition localhost_url (u : string) : Prop :=
  exists lit port,
    u = lit ++ port /\ same_ci "http://localhost:" lit = true
    /\ port <> "" /\ all_chars is_digit port = true.

(** What a call of [resolve] in [runApp] carries, apart from the handle and
    the time. *)
Definition ready_result (r : RunResult.t) : Prop :=
  RunResult.success r = true /\ RunResult.error r = None
  /\ (exists u, RunResult.serverUrl r = Some u /\ localhost_url u)
  /\ (exists out,
         RunResult.output r = Some out /\ (String.length out <= 1000)%nat).

Definition resolves_ready (st : ServeState) : Prop :=
  Forall (fun c => match snd c with
                   | Resolved r => ready_result r
                   | Rejected _ => True
                   end) (sv_calls st).

(** The first call is made by 30000 ms and switches the timer off; a signal
    has been sent only when that call is the timer's own. *)
Definition call_made_in_time (st : ServeState) : Prop :=
  match sv_calls st with
  | [] => sv_kills st = []
  | (t, s) :: _ =>
      t <= startup_timeout /\ sv_timer st = false
      /\ (sv_kills st = []
          \/ (t = startup_timeout /\ s = Rejected timeout_error
              /\ exists alive, sv_kills st = [EvKill SIGTERM alive]))
  end.

(** [chromium.launch] returns. *)
Definition launched (env : AnalyzeEnv) : bool :=
  match an_failure env with
  | Some (Launch, _) => false
  | _ => true
  end.

(** [s] has no character [c]. *)
Definition lacks (c : ascii) (s : string) : bool :=
  all_chars (fun x => negb (Ascii.eqb x c)) s.

(** A path segment that [path.join] leaves as it is: not empty, without a
    slash, and neither [.] nor [..]. *)
Definition simple_segment (b : string) : bool :=
  (truthy b && lacks "/" b && negb (String.eqb b ".")
   && negb (String.eqb b ".."))%bool.

(** [s] is made of [n] decimal digits. *)
Definition digits (n : nat) (s : string) : bool :=
  (Nat.eqb (String.length s) n && all_chars is_digit s)%bool.

(** What [toISOString] gives for a year of four digits:
    [YYYY-MM-DDTHH:mm:ss.sssZ]. *)
Definition iso_string (Y Mo D h mi s ms : string) : string :=
  Y ++ "-" ++ Mo ++ "-" ++ D ++ "T" ++ h ++ ":" ++ mi ++ ":" ++ s ++ "."
  ++ ms ++ "Z".

Definition is_inl {A B} (x : A + B) : bool :=
  match x with inl _ => true | inr _ => false end.

(** The [.txt] files of the prompts directory, as [fs.readdir] lists them. *)
Definition txt_files (dirname : string) (fs : FsEnv) : list string :=
  match readdir fs (path_join dirname "prompts") with
  | inl files => List.filter (ends_with ".txt") files
  | inr _ => []
  end.

(** The directory can be listed and each of its [.txt] files can be read. *)
Definition prompts_readable (dirname : string) (fs : FsEnv) : bool :=
  (is_inl (readdir fs (path_join dirname "prompts"))
   && forallb
        (fun f => is_inl (readFile fs
                            (path_join (path_join dirname "prompts") f)))
        (txt_files dirname fs))%bool.

(** The entry made of one file of the prompts directory. *)
Definition prompt_of_file (dirname : string) (fs : FsEnv) (file : string)
  : TestPrompt.t :=
  TestPrompt.mk (replace_first_sub ".txt" "" file)
    (match readFile fs (path_join (path_join dirname "prompts") file) with
     | inl content => trim content
     | inr _ => ""
     end).

(** ** More sample environments *)

(** A prompts directory with two prompts and a file that is none. *)
Definition sample_fs : FsEnv :=
  mkFsEnv
    (fun p =>
       if String.eqb p "/abe/prompts/todo-app.txt"
       then inl "  Build a todo app  "
       else if String.eqb p "/abe/prompts/counter.txt"
       then inl "Build a counter"
       else inr (Error "ENOENT: no such file or directory"))
    (fun p =>
       if String.eqb p "/abe/prompts"
       then inl ["todo-app.txt"; "README.md"; "counter.txt"]
       else inr (Error "ENOENT: no such file or directory"))
    (fun p =>
       (String.eqb p "/abe/prompts/todo-app.txt"
        || String.eqb p "/abe/prompts/counter.txt")%bool)
    (fun a b =>
       match String.compare a b with Lt => -1 | Eq => 0 | Gt => 1 end).

(** Every stage of a legacy result succeeded. *)
Definition all_stages_ok (r : FullBenchmarkResult.t) : bool :=
  (BuildResult.success (FullBenchmarkResult.build r)
   && match FullBenchmarkResult.compile r with
      | Some c => CompileResult.success c
      | None => false
      end
   && match FullBenchmarkResult.run r with
      | Some x => RunResult.success x
      | None => false
      end
   && match FullBenchmarkResult.analyze r with
      | Some a => AnalyzeResult.success a
      | None => false
      end)%bool.

(** The dev server of a legacy result was started. *)
Definition server_started (r : FullBenchmarkResult.t) : bool :=
  match FullBenchmarkResult.run r with
  | Some x => RunResult.success x
  | None => false
  end.

(** What the stop step does to servers that have been sent no signal yet:
    SIGTERM, and SIGKILL after the grace period when the process had already
    exited by itself. *)
Fixpoint stop_events (lenv : LegacyEnv) (k : nat)
  (procs : list (string * ChildProcess)) : list Event :=
  match procs with
  | [] => []
  | _ :: rest =>
      ((if proc_alive (lg_stop_env lenv k) then [EvKill SIGTERM true]
        else [EvKill SIGTERM false; EvKill SIGKILL false])
       ++ stop_events lenv (S k) rest)%list
  end.

(** What the deletion step does: one attempt for each result that has a
    workspace, and a warning after an attempt that fails. *)
Fixpoint cleanup_events (lenv : LegacyEnv) (k : nat)
  (results : list FullBenchmarkResult.t) : list Event :=
  match results with
  | [] => []
  | r :: rest =>
      let dir := FullBenchmarkResult.workspaceDir r in
      ((if truthy dir then
          match cleanup_rejects (lg_cleanup_env lenv k) with
          | None => [EvCleanup dir true]
          | Some e =>
              [EvCleanup dir false;
               EvWarn ("Failed to delete workspace " ++ dir ++ ": "
                       ++ message e)]
          end
        else [])
       ++ cleanup_events lenv (S k) rest)%list
  end.

(** The events of the loop over the prompts: no deletion, no warning, no
    file written. *)
Definition loop_event (ev : Event) : Prop :=
  match ev with
  | EvCleanup _ _ | EvWarn _ | EvWriteFile _ => False
  | _ => True
  end.

(** The error of calling a member that is no function. *)
Definition not_a_function : string :=
  "runnerConfig.runBenchmark is not a function".

(** A running server that has been sent no signal. *)
Definition unkilled (p : string * ChildProcess) : Prop :=
  killed (snd p) = false.

(** The options of the legacy benchmark with their defaults, and whether
    the deletion step runs. *)
Definition runner_of (options : BenchmarkOptions.t) : string :=
  match BenchmarkOptions.runner options with
  | Some r => r
  | None => "sigrid"
  end.

Definition resultsDir_of (options : BenchmarkOptions.t) (lenv : LegacyEnv)
  : string :=
  match BenchmarkOptions.resultsDir options with
  | Some d => d
  | None => path_join (lg_dirname lenv) "results"
  end.

Definition keeps (options : BenchmarkOptions.t) : bool :=
  match BenchmarkOptions.keepWorkspaces options with
  | Some b => b
  | None => false
  end.

Definition deletes (options : BenchmarkOptions.t) : bool :=
  (negb (keeps options)
   && match RUNNERS_at (runner_of options) with
      | Own cfg => cleanupWorkspace cfg
      | _ => false
      end)%bool.


(** A legacy run of two prompts: the first passes every stage, the second
    fails to install; the second workspace cannot be deleted. *)
Definition sample_lenv : LegacyEnv :=
  mkLegacyEnv "/abe" (fun _ => "2025-10-15T12:34:56.789Z") None None
    (fun i => match i with
              | O => smooth_run 4000 "/tmp/ws/a"
              | _ => with_compile install_breaks (smooth_run 4000 "/tmp/ws/b")
              end)
    (fun _ => mkStopEnv true (Some 900))
    (fun k => match k with
              | O => mkCleanupEnv 10 None
              | _ => cleanup_breaks
              end).

Definition two_prompts : Prompts :=
  ManyPrompts [ inr (TestPrompt.mk "todo-app" "Build a todo app");
                inl "Build a counter" ].

Definition default_options : BenchmarkOptions.t :=
  BenchmarkOptions.mk None None None None.

Definition with_runner (r : string) : BenchmarkOptions.t :=
  BenchmarkOptions.mk None (Some r) None None.

(** What a child has written to its standard output, and to its standard
    error, by the end of [evs]. *)
Fixpoint stdout_of (evs : list (Z * ChildEvent)) : string :=
  match evs with
  | [] => ""
  | (_, StdoutData text) :: rest => text ++ stdout_of rest
  | _ :: rest => stdout_of rest
  end.

Fixpoint stderr_of (evs : list (Z * ChildEvent)) : string :=
  match evs with
  | [] => ""
  | (_, StderrData text) :: rest => text ++ stderr_of rest
  | _ :: rest => stderr_of rest
  end.

(** An event of a child that goes on running: output only. *)
Definition only_output (e : Z * ChildEvent) : Prop :=
  match snd e with
  | StdoutData _ | StderrData _ => True
  | ErrorEvent _ | ExitEvent _ => False
  end.

(** A Claude CLI that prints a dot and a summary and exits with code 0 after
    42 seconds; whatever comes later is not looked at. *)
Definition claude_succeeds : ClaudeRunner.Env :=
  ClaudeRunner.mkEnv "0123456789abcdef" None None
    (inl [ (100, StderrData "warming up");
           (41000, StdoutData "Created src/App.tsx");
           (42000, ExitEvent (Some 0));
           (42001, StdoutData "late") ])
    (fun _ => "2025-10-15T12:34:56.789Z").

(** A command line that selects an unknown runner, and one that runs the two
    registered runners on a built-in prompt. *)
Definition cli_unknown_runner : MainEnv :=
  mkMainEnv ["node"; "benchmark.js"; "todo-app"; "--filter"; "gemini"]
    (inr (mkCliOptions "gemini" "" false, "todo-app"))
    sample_fs sample_oenv two_successes.

Definition cli_todo_app : MainEnv :=
  mkMainEnv ["node"; "benchmark.js"; "todo-app"]
    (inr (mkCliOptions "" "" false, "todo-app"))
    sample_fs sample_oenv two_successes.

(** The path of the screenshot that [analyzeApp] takes at clock time [t]. *)
Definition screenshot_file (testId : string) (t : Z) : string :=
  testId ++ "-" ++ show_Z t ++ ".png".

Definition screenshot_at (resultsDir testId : string) (t : Z) : string :=
  path_join (path_join resultsDir "screenshots") (screenshot_file testId t).

(** A screenshot path is absent or of that form. *)
Definition shot_of (resultsDir testId : string) (p : option string) : Prop :=
  p = None \/ exists t, p = Some (screenshot_at resultsDir testId t).

(** A run in which one runner is named twice. *)
Definition sigrid_twice : Options := mkOptions (Some "sigrid,sigrid") None.





(** Neither the deletion of a workspace nor a warning. *)
Definition no_deletion_or_warning (ev : Event) : Prop :=
  match ev with
  | EvCleanup _ _ | EvWarn _ => False
  | _ => True
  end.

(** * Facts *)

Section TraceRules.
Context {S : Type} `{Traced S}.
Variable P : Event -> Prop.

Lemma emits_ret {A} (a : A) : emits_only P (ret (S:=S) a).
Proof.
  intros s. exists []. simpl. rewrite app_nil_r. split; [reflexivity | constructor].
Qed.

Lemma emits_throw {A} (e : JsError) : emits_only P (throw (S:=S) (A:=A) e).
Proof.
  intros s. exists []. simpl. rewrite app_nil_r. split; [reflexivity | constructor].
Qed.

Lemma emits_of_res {A} (r : Res A) : emits_only P (of_res (S:=S) r).
Proof.
  intros s. exists []. simpl. rewrite app_nil_r. split; [reflexivity | constructor].
Qed.

Lemma emits_bind {A B} (m : M S A) (k : A -> M S B) :
  emits_only P m -> (forall a, emits_only P (k a)) ->
  emits_only P (bind m k).
Proof.
  intros Hm Hk s. unfold bind.
  destruct (Hm s) as [e1 [E1 F1]].
  destruct (m s) as [[a | e | ] s1]; simpl in E1.
  - destruct (Hk a s1) as [e2 [E2 F2]].
    exists (e1 ++ e2)%list. rewrite E2, E1, app_assoc.
    split; [reflexivity | apply Forall_app; split; assumption].
  - exists e1. split; assumption.
  - exists e1. split; assumption.
Qed.

Lemma emits_try_catch {A} (m : M S A) (h : JsError -> M S A) :
  emits_only P m -> (forall e, emits_only P (h e)) ->
  emits_only P (try_catch m h).
Proof.
  intros Hm Hh s. unfold try_catch.
  destruct (Hm s) as [e1 [E1 F1]].
  destruct (m s) as [[a | e | ] s1]; simpl in E1.
  - exists e1. split; assumption.
  - destruct (Hh e s1) as [e2 [E2 F2]].
    exists (e1 ++ e2)%list. rewrite E2, E1, app_assoc.
    split; [reflexivity | apply Forall_app; split; assumption].
  - exists e1. split; assumption.
Qed.
End TraceRules.

Lemma emits_emit (P : Event -> Prop) (ev : Event) :
  P ev -> emits_only P (emit ev).
Proof.
  intros Hev w. exists [ev]. split; [reflexivity | repeat constructor; assumption].
Qed.

Lemma emits_sleep (P : Event -> Prop) (ms : Z) : emits_only P (sleep ms).
Proof.
  intros w. exists []. simpl. unfold trace_of, Traced_World. simpl.
  rewrite app_nil_r. split; [reflexivity | constructor].
Qed.

Lemma emits_date_now (P : Event -> Prop) : emits_only P date_now.
Proof.
  intros w. exists []. simpl. rewrite app_nil_r. split; [reflexivity | constructor].
Qed.

Lemma emits_lift (P : Event -> Prop) {L A} (m : M World A) :
  emits_only P m -> emits_only P (lift (L:=L) m).
Proof.
  intros Hm [w l]. unfold lift. simpl.
  destruct (Hm w) as [evs [E F]].
  destruct (m w) as [r w1]. simpl in *. exists evs. split; assumption.
Qed.

Lemma emits_local (P : Event -> Prop) {L} : emits_only P (local (L:=L)).
Proof.
  intros s. exists []. simpl. rewrite app_nil_r. split; [reflexivity | constructor].
Qed.

Lemma emits_set_local (P : Event -> Prop) {L} (l : L) :
  emits_only P (set_local l).
Proof.
  intros s. exists []. simpl. unfold trace_of, Traced_locals. simpl.
  rewrite app_nil_r. split; [reflexivity | constructor].
Qed.

Lemma emits_with_locals (P : Event -> Prop) {L A} (init : L)
  (m : M (World * L) A) :
  emits_only P m -> emits_only P (with_locals init m).
Proof.
  intros Hm w. unfold with_locals.
  destruct (Hm (w, init)) as [evs [E F]].
  destruct (m (w, init)) as [r s1]. simpl in *. exists evs. split; assumption.
Qed.

Lemma emits_weaken {S A} `{Traced S} (P Q : Event -> Prop) (m : M S A) :
  (forall ev, P ev -> Q ev) -> emits_only P m -> emits_only Q m.
Proof.
  intros HPQ Hm s. destruct (Hm s) as [evs [E F]].
  exists evs. split; [assumption | ].
  eapply Forall_impl; eassumption.
Qed.

(** Applies the rules along the structure of the program. *)
Ltac emits_step :=
  match goal with
  | |- emits_only _ (bind _ _) => apply emits_bind; [ | intros ]
  | |- emits_only _ (try_catch _ _) => apply emits_try_catch; [ | intros ]
  | |- emits_only _ (ret _) => apply emits_ret
  | |- emits_only _ (throw _) => apply emits_throw
  | |- emits_only _ (of_res _) => apply emits_of_res
  | |- emits_only _ (emit _) => apply emits_emit; simpl; auto
  | |- emits_only _ (sleep _) => apply emits_sleep
  | |- emits_only _ date_now => apply emits_date_now
  | |- emits_only _ (lift _) => apply emits_lift
  | |- emits_only _ local => apply emits_local
  | |- emits_only _ (set_local _) => apply emits_set_local
  | |- emits_only _ (with_locals _ _) => apply emits_with_locals
  | |- emits_only _ (if ?b then _ else _) => destruct b
  | |- emits_only _ (match ?x with _ => _ end) => destruct x
  | |- emits_only _ (let (_, _) := ?x in _) => destruct x
  end.

Ltac emits := repeat emits_step.

Section OutcomeRules.
Context {S : Type}.

Lemma settles_ret {A} (a : A) : settles (ret (S:=S) a).
Proof. intros s. simpl. discriminate. Qed.

Lemma settles_throw {A} (e : JsError) : settles (throw (S:=S) (A:=A) e).
Proof. intros s. simpl. discriminate. Qed.

Lemma settles_bind {A B} (m : M S A) (k : A -> M S B) :
  settles m -> (forall a, settles (k a)) -> settles (bind m k).
Proof.
  intros Hm Hk s. unfold bind. specialize (Hm s).
  destruct (m s) as [[a | e | ] s1]; simpl in *.
  - apply Hk.
  - discriminate.
  - congruence.
Qed.

Lemma settles_try_catch {A} (m : M S A) (h : JsError -> M S A) :
  settles m -> (forall e, settles (h e)) -> settles (try_catch m h).
Proof.
  intros Hm Hh s. unfold try_catch. specialize (Hm s).
  destruct (m s) as [[a | e | ] s1]; simpl in *.
  - discriminate.
  - apply Hh.
  - congruence.
Qed.

Lemma total_settles {A} (m : M S A) : total m -> settles m.
Proof.
  intros Hm s. destruct (Hm s) as [a [s' E]]. rewrite E. simpl. discriminate.
Qed.

Lemma total_ret {A} (a : A) : total (ret (S:=S) a).
Proof. intros s. exists a, s. reflexivity. Qed.

Lemma total_bind {A B} (m : M S A) (k : A -> M S B) :
  total m -> (forall a, total (k a)) -> total (bind m k).
Proof.
  intros Hm Hk s. unfold bind. destruct (Hm s) as [a [s1 E]]. rewrite E.
  apply Hk.
Qed.

Lemma total_try_catch {A} (m : M S A) (h : JsError -> M S A) :
  settles m -> (forall e, total (h e)) -> total (try_catch m h).
Proof.
  intros Hm Hh s. unfold try_catch. specialize (Hm s).
  destruct (m s) as [[a | e | ] s1]; simpl in *.
  - exists a, s1. reflexivity.
  - apply Hh.
  - congruence.
Qed.

Lemma ensures_ret {A} (a : A) (Q : A -> Prop) : Q a -> ensures (ret (S:=S) a) Q.
Proof. intros HQ s a' s' E. inversion E. subst. assumption. Qed.

Lemma ensures_throw {A} (e : JsError) (Q : A -> Prop) :
  ensures (throw (S:=S) e) Q.
Proof. intros s a' s' E. discriminate. Qed.

Lemma ensures_bind {A B} (m : M S A) (k : A -> M S B) (Q : B -> Prop) :
  (forall a, ensures (k a) Q) -> ensures (bind m k) Q.
Proof.
  intros Hk s b s'. unfold bind.
  destruct (m s) as [[a | e | ] s1]; intros E.
  - eapply Hk. eassumption.
  - discriminate.
  - discriminate.
Qed.

Lemma ensures_try_catch {A} (m : M S A) (h : JsError -> M S A)
  (Q : A -> Prop) :
  ensures m Q -> (forall e, ensures (h e) Q) -> ensures (try_catch m h) Q.
Proof.
  intros Hm Hh s a s'. unfold try_catch.
  destruct (m s) as [[a1 | e | ] s1] eqn:Em; intros E.
  - inversion E. subst. eapply Hm. eassumption.
  - eapply Hh. eassumption.
  - discriminate.
Qed.
End OutcomeRules.

Lemma settles_lift {L A} (m : M World A) : settles m -> settles (lift (L:=L) m).
Proof.
  intros Hm [w l]. unfold lift. simpl. specialize (Hm w).
  destruct (m w) as [r w1]. assumption.
Qed.

Lemma total_lift {L A} (m : M World A) : total m -> total (lift (L:=L) m).
Proof.
  intros Hm [w l]. unfold lift. simpl. destruct (Hm w) as [a [w1 E]].
  rewrite E. exists a, (w1, l). reflexivity.
Qed.

Lemma settles_with_locals {L A} (init : L) (m : M (World * L) A) :
  settles m -> settles (with_locals init m).
Proof.
  intros Hm w. unfold with_locals. specialize (Hm (w, init)).
  destruct (m (w, init)) as [r s1]. assumption.
Qed.

Lemma total_with_locals {L A} (init : L) (m : M (World * L) A) :
  total m -> total (with_locals init m).
Proof.
  intros Hm w. unfold with_locals. destruct (Hm (w, init)) as [a [s1 E]].
  rewrite E. exists a, (fst s1). reflexivity.
Qed.

Lemma ensures_with_locals {L A} (init : L) (m : M (World * L) A)
  (Q : A -> Prop) :
  ensures m Q -> ensures (with_locals init m) Q.
Proof.
  intros Hm w a w'. unfold with_locals.
  destruct (m (w, init)) as [r s1] eqn:E. intros E'. inversion E'. subst.
  eapply Hm. eassumption.
Qed.

Lemma total_date_now : total date_now.
Proof. intros w. exists (now w), w. reflexivity. Qed.

Lemma total_sleep ms : total (sleep ms).
Proof. intros w. eexists. eexists. reflexivity. Qed.

Lemma total_emit ev : total (emit ev).
Proof. intros w. eexists. eexists. reflexivity. Qed.

Lemma total_local {L} : total (local (L:=L)).
Proof. intros s. eexists. eexists. reflexivity. Qed.

Lemma total_set_local {L} (l : L) : total (set_local l).
Proof. intros s. eexists. eexists. reflexivity. Qed.

Ltac settles_step :=
  match goal with
  | |- settles (bind _ _) => apply settles_bind; [ | intros ]
  | |- settles (try_catch _ _) => apply settles_try_catch; [ | intros ]
  | |- settles (ret _) => apply settles_ret
  | |- settles (throw _) => apply settles_throw
  | |- settles (lift _) => apply settles_lift
  | |- settles (with_locals _ _) => apply settles_with_locals
  | |- settles date_now => apply total_settles, total_date_now
  | |- settles (sleep _) => apply total_settles, total_sleep
  | |- settles (emit _) => apply total_settles, total_emit
  | |- settles local => apply total_settles, total_local
  | |- settles (set_local _) => apply total_settles, total_set_local
  | |- settles (if ?b then _ else _) => destruct b
  | |- settles (match ?x with _ => _ end) => destruct x
  | |- settles (let (_, _) := ?x in _) => destruct x
  end.

Ltac total_step :=
  match goal with
  | |- total (bind _ _) => apply total_bind; [ | intros ]
  | |- total (try_catch _ _) => apply total_try_catch; [ | intros ]
  | |- total (ret _) => apply total_ret
  | |- total (lift _) => apply total_lift
  | |- total (with_locals _ _) => apply total_with_locals
  | |- total date_now => apply total_date_now
  | |- total (sleep _) => apply total_sleep
  | |- total (emit _) => apply total_emit
  | |- total local => apply total_local
  | |- total (set_local _) => apply total_set_local
  | |- total (if ?b then _ else _) => destruct b
  | |- total (match ?x with _ => _ end) => destruct x
  | |- total (let (_, _) := ?x in _) => destruct x
  end.

Ltac ensures_step :=
  match goal with
  | |- ensures (bind _ _) _ => apply ensures_bind; intros
  | |- ensures (try_catch _ _) _ => apply ensures_try_catch; [ | intros ]
  | |- ensures (ret _) _ => apply ensures_ret
  | |- ensures (throw _) _ => apply ensures_throw
  | |- ensures (with_locals _ _) _ => apply ensures_with_locals
  | |- ensures (if ?b then _ else _) _ => destruct b
  | |- ensures (match ?x with _ => _ end) _ => destruct x
  end.

(** Evaluation of one step. *)
Lemma bind_ok {S A B} (m : M S A) (k : A -> M S B) s a s1 :
  m s = (Ok a, s1) -> bind m k s = k a s1.
Proof. intros E. unfold bind. rewrite E. reflexivity. Qed.

Lemma bind_throw {S A B} (m : M S A) (k : A -> M S B) s e s1 :
  m s = (Throw e, s1) -> bind m k s = (Throw e, s1).
Proof. intros E. unfold bind. rewrite E. reflexivity. Qed.

Lemma try_catch_ok {S A} (m : M S A) (h : JsError -> M S A) s a s1 :
  m s = (Ok a, s1) -> try_catch m h s = (Ok a, s1).
Proof. intros E. unfold try_catch. rewrite E. reflexivity. Qed.

Lemma try_catch_throw {S A} (m : M S A) (h : JsError -> M S A) s e s1 :
  m s = (Throw e, s1) -> try_catch m h s = h e s1.
Proof. intros E. unfold try_catch. rewrite E. reflexivity. Qed.

Lemma lift_run {L A} (m : M World A) w (l : L) r w1 :
  m w = (r, w1) -> lift m (w, l) = (r, (w1, l)).
Proof. intros E. unfold lift. simpl. rewrite E. reflexivity. Qed.

(** ** The serve stage *)

Section Serve.
Variable cwd : string.

Lemma app_eq_nil_inv {A} (l : list A) (x : A) : (l ++ [x])%list <> [].
Proof. destruct l; discriminate. Qed.

Lemma handle_unsettled_ok t ev st :
  unsettled_ok st -> unsettled_ok (handle t ev st).
Proof.
  unfold unsettled_ok. intros Hst.
  destruct ev as [text | text | e | c]; simpl.
  - unfold on_stdout. simpl.
    destruct (local_match (strip_ansi text)); simpl; [ | exact Hst ].
    destruct (sv_resolved st) eqn:R; simpl; intros E.
    + destruct (Hst E) as [_ F]. discriminate F.
    + exfalso. eapply app_eq_nil_inv. exact E.
  - exact Hst.
  - unfold on_error.
    destruct (sv_resolved st) eqn:R; simpl; intros E.
    + destruct (Hst E) as [_ F]. discriminate F.
    + exfalso. eapply app_eq_nil_inv. exact E.
  - unfold on_exit. simpl.
    destruct (sv_resolved st) eqn:R; simpl; intros E.
    + destruct (Hst E) as [_ F]. discriminate F.
    + exfalso. eapply app_eq_nil_inv. exact E.
Qed.

Lemma fire_timer_unsettled_ok st :
  unsettled_ok st -> unsettled_ok (fire_timer st).
Proof.
  unfold unsettled_ok, fire_timer. intros Hst.
  destruct (sv_timer st) eqn:T.
  - unfold on_timeout. simpl.
    destruct (sv_resolved st) eqn:R; simpl; intros E.
    + destruct (Hst E) as [_ F]. discriminate F.
    + exfalso. eapply app_eq_nil_inv. exact E.
  - intros E. destruct (Hst E) as [F _]. discriminate F.
Qed.

Lemma fire_timer_settles st :
  unsettled_ok st -> sv_calls (fire_timer st) <> [].
Proof.
  unfold unsettled_ok, fire_timer. intros Hst E.
  destruct (sv_timer st) eqn:T.
  - unfold on_timeout in E. simpl in E.
    destruct (sv_resolved st) eqn:R; simpl in E.
    + destruct (Hst E) as [_ F]. discriminate.
    + eapply app_eq_nil_inv. exact E.
  - destruct (Hst E) as [F _]. discriminate.
Qed.

Lemma serve_loop_settles evs : forall st,
  unsettled_ok st -> sv_calls (serve_loop evs st) <> [].
Proof.
  induction evs as [ | [t ev] rest IH]; intros st Hst; simpl.
  - apply fire_timer_settles. exact Hst.
  - apply IH. apply handle_unsettled_ok.
    destruct (startup_timeout <=? t);
      [ apply fire_timer_unsettled_ok | ]; exact Hst.
Qed.

Lemma serve_init_unsettled_ok : unsettled_ok (serve_init cwd).
Proof. intros _. split; reflexivity. Qed.

(** Calls are only ever added at the end. *)
Lemma handle_calls t ev st :
  exists more, sv_calls (handle t ev st) = (sv_calls st ++ more)%list.
Proof.
  destruct ev as [text | text | e | c]; simpl.
  - unfold on_stdout. simpl.
    destruct (local_match (strip_ansi text)); simpl.
    + destruct (sv_resolved st); simpl.
      * exists []. rewrite app_nil_r. reflexivity.
      * eexists. reflexivity.
    + exists []. rewrite app_nil_r. reflexivity.
  - exists []. rewrite app_nil_r. reflexivity.
  - unfold on_error. destruct (sv_resolved st); simpl.
    + exists []. rewrite app_nil_r. reflexivity.
    + eexists. reflexivity.
  - unfold on_exit. simpl. destruct (sv_resolved st); simpl.
    + exists []. rewrite app_nil_r. reflexivity.
    + eexists. reflexivity.
Qed.

Lemma fire_timer_calls st :
  exists more, sv_calls (fire_timer st) = (sv_calls st ++ more)%list.
Proof.
  unfold fire_timer. destruct (sv_timer st).
  - unfold on_timeout. simpl. destruct (sv_resolved st); simpl.
    + exists []. rewrite app_nil_r. reflexivity.
    + eexists. reflexivity.
  - exists []. rewrite app_nil_r. reflexivity.
Qed.


(** Once the timer is off, no signal is sent any more. *)
Lemma handle_timer_off t ev st :
  sv_timer st = false ->
  sv_timer (handle t ev st) = false
  /\ sv_kills (handle t ev st) = sv_kills st.
Proof.
  intros T. destruct ev as [text | text | e | c]; simpl.
  - unfold on_stdout. simpl.
    destruct (local_match (strip_ansi text)); simpl; [ | auto ].
    destruct (sv_resolved st); simpl; auto.
  - auto.
  - unfold on_error. destruct (sv_resolved st); simpl; auto.
  - unfold on_exit. simpl. destruct (sv_resolved st); simpl; auto.
Qed.


(** Every signal [runApp] sends is recorded as a kill event. *)
Lemma handle_kills t ev st : sv_kills (handle t ev st) = sv_kills st.
Proof.
  destruct ev as [text | text | e | c]; simpl.
  - unfold on_stdout. simpl.
    destruct (local_match (strip_ansi text)); simpl; [ | auto ].
    destruct (sv_resolved st); simpl; auto.
  - auto.
  - unfold on_error. destruct (sv_resolved st); simpl; auto.
  - unfold on_exit. simpl. destruct (sv_resolved st); simpl; auto.
Qed.

Lemma fire_timer_kills (P : Event -> Prop) st :
  (forall sig d, P (EvKill sig d)) ->
  Forall P (sv_kills st) -> Forall P (sv_kills (fire_timer st)).
Proof.
  intros HP F. unfold fire_timer. destruct (sv_timer st); [ | exact F ].
  unfold on_timeout. simpl. destruct (sv_resolved st); simpl; [ exact F | ].
  apply Forall_app. split; [ exact F | ]. repeat constructor. apply HP.
Qed.

Lemma serve_loop_kills (P : Event -> Prop) evs :
  (forall sig d, P (EvKill sig d)) ->
  forall st, Forall P (sv_kills st) -> Forall P (sv_kills (serve_loop evs st)).
Proof.
  intros HP. induction evs as [ | [t ev] rest IH]; intros st F; simpl.
  - apply fire_timer_kills; assumption.
  - apply IH. rewrite handle_kills.
    destruct (startup_timeout <=? t);
      [ apply fire_timer_kills | ]; assumption.
Qed.

(** Once a handler has latched, neither [resolve] nor [reject] is called
    again. *)
Lemma latched_no_more_calls evs : forall st,
  sv_resolved st = true -> sv_timer st = false ->
  sv_calls (serve_loop evs st) = sv_calls st.
Proof.
  induction evs as [ | [t ev] rest IH]; intros st R T; simpl.
  - unfold fire_timer. rewrite T. reflexivity.
  - assert (F : (if startup_timeout <=? t then fire_timer st else st) = st).
    { destruct (startup_timeout <=? t); [ | reflexivity ].
      unfold fire_timer. rewrite T. reflexivity. }
    rewrite F.
    assert (H : sv_resolved (handle t ev st) = true
                /\ sv_timer (handle t ev st) = false
                /\ sv_calls (handle t ev st) = sv_calls st).
    { destruct ev as [text | text | e | c]; simpl.
      - unfold on_stdout. simpl.
        destruct (local_match (strip_ansi text)); simpl; [ | auto ].
        rewrite R. simpl. auto.
      - auto.
      - unfold on_error. rewrite R. simpl. auto.
      - unfold on_exit. simpl. rewrite R. simpl. auto. }
    destruct H as [R' [T' C']]. rewrite (IH _ R' T'). exact C'.
Qed.
End Serve.

Section ServeOutcome.
Variable cwd : string.



Lemma first_call_ok_grow st st' more c cs :
  sv_calls st = c :: cs -> sv_calls st' = (sv_calls st ++ more)%list ->
  first_call_ok cwd st -> first_call_ok cwd st'.
Proof.
  unfold first_call_ok. intros E E'. rewrite E', E. simpl. auto.
Qed.

Lemma handle_first_call_ok t ev st :
  first_call_ok cwd st -> first_call_ok cwd (handle t ev st).
Proof.
  intros Hst. destruct (sv_calls st) as [ | c cs] eqn:C.
  - unfold first_call_ok in *. rewrite C in Hst.
    destruct ev as [text | text | e | c]; simpl.
    + unfold on_stdout. simpl.
      destruct (local_match (strip_ansi text)) as [url | ]; simpl.
      * destruct (sv_resolved st); simpl; rewrite C; simpl.
        -- exact Hst.
        -- rewrite Hst. unfold resolved_shape. simpl.
           repeat split. exists url. reflexivity.
      * rewrite C. exact Hst.
    + rewrite C. exact Hst.
    + unfold on_error. destruct (sv_resolved st); simpl; rewrite C; simpl.
      * exact Hst.
      * exact I.
    + unfold on_exit. simpl.
      destruct (sv_resolved st); simpl; rewrite C; simpl.
      * exact Hst.
      * exact I.
  - destruct (handle_calls t ev st) as [more E].
    eapply first_call_ok_grow; eassumption.
Qed.

Lemma fire_timer_first_call_ok st :
  first_call_ok cwd st -> first_call_ok cwd (fire_timer st).
Proof.
  intros Hst. destruct (sv_calls st) as [ | c cs] eqn:C.
  - unfold first_call_ok in *. rewrite C in Hst.
    unfold fire_timer. destruct (sv_timer st); simpl.
    + unfold on_timeout. simpl.
      destruct (sv_resolved st); simpl; rewrite C; simpl.
      * exact Hst.
      * exact I.
    + rewrite C. exact Hst.
  - destruct (fire_timer_calls st) as [more E].
    eapply first_call_ok_grow; eassumption.
Qed.

Lemma serve_loop_first_call_ok evs : forall st,
  first_call_ok cwd st -> first_call_ok cwd (serve_loop evs st).
Proof.
  induction evs as [ | [t ev] rest IH]; intros st Hst; simpl.
  - apply fire_timer_first_call_ok. exact Hst.
  - apply IH. apply handle_first_call_ok.
    destruct (startup_timeout <=? t);
      [ apply fire_timer_first_call_ok | ]; exact Hst.
Qed.

Lemma serve_resolved_shape evs t r :
  serve_outcome cwd evs = Some (t, Resolved r) -> resolved_shape cwd t r.
Proof.
  unfold serve_outcome. intros E.
  assert (H : first_call_ok cwd (serve_loop evs (serve_init cwd))).
  { apply serve_loop_first_call_ok. reflexivity. }
  unfold first_call_ok in H.
  destruct (sv_calls (serve_loop evs (serve_init cwd))) as [ | [t' s] cs];
    [ discriminate | ].
  simpl in E. inversion E. subst. exact H.
Qed.

Lemma serve_outcome_exists evs : exists t s, serve_outcome cwd evs = Some (t, s).
Proof.
  unfold serve_outcome.
  pose proof (serve_loop_settles evs (serve_init cwd)
                (serve_init_unsettled_ok cwd)) as H.
  destruct (sv_calls (serve_loop evs (serve_init cwd))) as [ | [t s] cs].
  - congruence.
  - exists t, s. reflexivity.
Qed.

Lemma emit_all_run evs : forall w,
  emit_all evs w = (Ok tt, mkWorld (now w) (trace w ++ evs)).
Proof.
  induction evs as [ | ev rest IH]; intros w; simpl.
  - rewrite app_nil_r. destruct w. reflexivity.
  - unfold bind, emit, modify. rewrite IH. simpl.
    rewrite <- app_assoc. reflexivity.
Qed.

(** What [await runApp(...)] gives, and the world after it. *)
Lemma runApp_run evs w t s :
  serve_outcome cwd evs = Some (t, s) ->
  runApp cwd evs w
  = (match s with Resolved r => Ok r | Rejected e => Throw e end,
     mkWorld (now w + t)
       (trace w ++ EvSpawn cwd
                   :: sv_kills (serve_loop evs (serve_init cwd)))).
Proof.
  unfold serve_outcome, runApp. intros E.
  destruct (sv_calls (serve_loop evs (serve_init cwd))) as [ | [t' s'] cs];
    [ discriminate | ].
  simpl in E. inversion E. subst.
  unfold bind, emit, sleep, modify. rewrite emit_all_run. simpl.
  rewrite <- app_assoc. simpl.
  destruct s; reflexivity.
Qed.

Lemma runApp_settles evs : settles (runApp cwd evs).
Proof.
  intros w. destruct (serve_outcome_exists evs) as [t [s E]].
  rewrite (runApp_run evs w t s E). destruct s; simpl; discriminate.
Qed.

Lemma runApp_emits (P : Event -> Prop) evs :
  P (EvSpawn cwd) -> (forall sig d, P (EvKill sig d)) ->
  emits_only P (runApp cwd evs).
Proof.
  intros Hs Hk w. destruct (serve_outcome_exists evs) as [t [s E]].
  rewrite (runApp_run evs w t s E). simpl.
  eexists. split; [ reflexivity | ].
  constructor; [ exact Hs | ].
  apply serve_loop_kills; [ exact Hk | constructor ].
Qed.
Lemma string_app_assoc (a b c : string) : (a ++ b) ++ c = a ++ (b ++ c).
Proof.
induction a as [ | x a IH]; simpl; [ reflexivity | rewrite IH; reflexivity ].
Qed.

(** The first ready line before the timeout resolves the stage with its URL,
  and that is the only call of [resolve] or [reject], whatever follows. *)
Lemma first_ready_line_wins pre t text url rest : forall st,
Forall early_quiet pre ->
t < startup_timeout ->
local_match (strip_ansi text) = Some url ->
pristine st -> sv_child st = mkChild cwd false ->
sv_calls (serve_loop (pre ++ (t, StdoutData text) :: rest) st)
= [ (t, Resolved
          (RunResult.mk true (Some url) (Some (mkChild cwd false)) t
             (Some (prefix 1000 (sv_output st ++ outputs pre ++ text)))
             None)) ].
Proof.
induction pre as [ | [t0 ev0] pre IH]; intros st Hq Ht Hm Hst Hc.
- simpl app. simpl serve_loop.
  apply Z.leb_gt in Ht. rewrite Ht.
  destruct st as [o r tm c x cs ks]. unfold pristine in Hst. simpl in *.
  destruct Hst as [R [T [C [K X]]]]. subst.
  unfold on_stdout. simpl. rewrite Hm. simpl.
  rewrite latched_no_more_calls; reflexivity.
- inversion Hq as [ | e l [Ht0 Hev] Hrest]. subst.
  simpl in Ht0, Hev.
  simpl app. simpl serve_loop.
  pose proof Ht0 as Ht0'. apply Z.leb_gt in Ht0'. rewrite Ht0'.
  destruct st as [o r tm c x cs ks]. unfold pristine in Hst. simpl in *.
  destruct Hst as [R [T [C [K X]]]]. subst.
  destruct ev0 as [text0 | text0 | e0 | c0]; try contradiction.
  + simpl. unfold on_stdout. unfold ready in Hev.
    destruct (local_match (strip_ansi text0)); [ discriminate | ].
    simpl. rewrite (IH _ Hrest Ht Hm).
    * simpl. rewrite !string_app_assoc. reflexivity.
    * repeat split.
    * reflexivity.
  + simpl. unfold on_stderr. rewrite (IH _ Hrest Ht Hm).
    * simpl. rewrite !string_app_assoc. reflexivity.
    * repeat split.
    * reflexivity.
Qed.
End ServeOutcome.

(** ** The other stages *)

Lemma execAsync_fails cmd cwd timeout env e w :
  exec_error cmd timeout env = Some e ->
  execAsync cmd cwd timeout env w
  = (Throw e, mkWorld (now w + exec_elapsed timeout env)
                (trace w ++ [EvExec cmd cwd])).
Proof.
  unfold exec_error, execAsync, exec_elapsed, bind, emit, sleep, modify, throw.
  simpl. destruct (timeout <? exec_ms env); simpl.
  - intros E. inversion E. reflexivity.
  - destruct (exec_outcome env); intros E; inversion E. reflexivity.
Qed.

Lemma execAsync_settles cmd cwd timeout env :
  settles (execAsync cmd cwd timeout env).
Proof. unfold execAsync. repeat settles_step. Qed.

Lemma execAsync_emits (P : Event -> Prop) cmd cwd timeout env :
  P (EvExec cmd cwd) -> emits_only P (execAsync cmd cwd timeout env).
Proof. intros HP. unfold execAsync. emits. Qed.

Lemma compileApp_total dir env : total (compileApp dir env).
Proof.
  unfold compileApp.
  apply total_bind; [ apply total_date_now | intros startTime ].
  apply total_try_catch; [ | intros; repeat total_step ].
  repeat first [ apply execAsync_settles | settles_step ].
Qed.

Lemma compileApp_emits (P : Event -> Prop) dir env :
  (forall cmd, P (EvExec cmd dir)) -> emits_only P (compileApp dir env).
Proof.
  intros HP. unfold compileApp.
  repeat first [ apply execAsync_emits; apply HP | emits_step ].
Qed.

(** The stage reports success exactly when the commands it runs succeed. *)
Lemma compileApp_success dir env :
  ensures (compileApp dir env)
    (fun r => CompileResult.success r = compile_succeeds env).
Proof.
  intros w r w'.
  unfold compileApp, compile_succeeds, exec_succeeds, execAsync, try_catch,
    bind, date_now, emit, sleep, modify, throw, ret.
  destruct env as [nm [ims io ip] [bms bo bp]]. simpl.
  destruct nm; simpl;
    repeat match goal with
      | |- context [if ?b then _ else _] => destruct b; simpl
      | |- context [match ?o with ExecOk _ _ => _ | ExecFail _ => _ end] =>
          destruct o; simpl
      end;
    intros E; inversion E; reflexivity.
Qed.

(** An install step that fails ends the stage at once. *)
Lemma compileApp_install_fails dir env e w :
  node_modules_present env = false ->
  exec_error "npm install" (5 * 60 * 1000) (install_env env) = Some e ->
  let dt := exec_elapsed (5 * 60 * 1000) (install_env env) in
  compileApp dir env w
  = (Ok (CompileResult.mk false (now w + dt - now w) None
           (Some (now w + dt - now w)) None None
           (Some (or_else (err_stderr e) (message e)))
           (Some "npm install failed")),
     mkWorld (now w + dt) (trace w ++ [EvExec "npm install" dir])).
Proof.
  intros NM EE dt. unfold compileApp.
  unfold bind at 1. unfold date_now at 1.
  unfold try_catch at 1. rewrite NM. cbn [negb]. cbv iota.
  unfold bind at 1. unfold bind at 1. unfold date_now at 1.
  unfold try_catch at 1. unfold bind at 1.
  rewrite (execAsync_fails _ _ _ _ _ _ EE).
  reflexivity.
Qed.

Lemma an_step_settles env s : settles (an_step env s).
Proof. unfold an_step. repeat settles_step. Qed.

Lemma an_step_emits (P : Event -> Prop) env s : emits_only P (an_step env s).
Proof. unfold an_step. emits. Qed.

Lemma analyzeApp_settles url testId dir env :
  settles (analyzeApp url testId dir env).
Proof.
  unfold analyzeApp. repeat first [ apply an_step_settles | settles_step ].
Qed.

Lemma analyzeApp_emits (P : Event -> Prop) url testId dir env :
  P (EvAnalyze url testId) -> (forall d, P (EvMkdir d)) ->
  (forall f, P (EvScreenshot f)) -> P EvBrowserClose ->
  emits_only P (analyzeApp url testId dir env).
Proof.
  intros H1 H2 H3 H4. unfold analyzeApp.
  repeat first [ apply an_step_emits | emits_step ].
Qed.

(** Runs the stage on an environment whose fields are known. *)
Ltac run_analyze :=
  cbv [analyzeApp with_locals try_catch bind lift an_step local set_local
       date_now emit sleep modify throw ret an_failure an_close_rejects
       step_eqb fst snd].

(** Unless closing the browser fails in the catch handler, the stage returns
    a result, and the result says whether a call was rejected. *)
Lemma analyzeApp_returns url testId dir env w :
  analyze_throws env = false ->
  exists r w',
    analyzeApp url testId dir env w = (Ok r, w')
    /\ AnalyzeResult.success r
       = match an_failure env with None => true | Some _ => false end.
Proof.
  unfold analyze_throws.
  destruct env as [f c ms co pe ti]. cbn [an_failure an_close_rejects].
  destruct f as [[s e] | ].
  - destruct s; destruct c as [ce | ]; cbn [step_eqb negb];
      intros T; try discriminate T; run_analyze;
      eexists; eexists; split; reflexivity.
  - intros _. run_analyze. eexists; eexists; split; reflexivity.
Qed.

Lemma stopApp_total p env : total (stopApp p env).
Proof.
  unfold stopApp. destruct p as [p | ]; [ | apply total_ret ].
  destruct (killed p); [ apply total_ret | ].
  unfold kill_process. repeat total_step.
Qed.

Lemma stopApp_emits (P : Event -> Prop) p env :
  (forall sig d, P (EvKill sig d)) -> emits_only P (stopApp p env).
Proof.
  intros HP. unfold stopApp, kill_process. emits.
Qed.

Lemma call_runBenchmark_settles cfg prompt model env :
  settles (call_runBenchmark cfg prompt model env).
Proof. unfold call_runBenchmark. repeat settles_step. Qed.

Lemma call_runBenchmark_emits (P : Event -> Prop) cfg prompt model env :
  P (EvGenerate (id cfg) prompt model) ->
  emits_only P (call_runBenchmark cfg prompt model env).
Proof. intros HP. unfold call_runBenchmark. emits. Qed.

Lemma call_runBenchmark_returns cfg prompt model env r w :
  gen_outcome env = inl r ->
  call_runBenchmark cfg prompt model env w
  = (Ok r, mkWorld (now w + gen_ms env)
             (trace w ++ [EvGenerate (id cfg) prompt model])).
Proof.
  intros E. unfold call_runBenchmark, bind, emit, sleep, modify. simpl.
  rewrite E. reflexivity.
Qed.

Lemma call_cleanupWorkspace_settles dir env :
  settles (call_cleanupWorkspace dir env).
Proof. unfold call_cleanupWorkspace. repeat settles_step. Qed.

Lemma call_cleanupWorkspace_emits (P : Event -> Prop) dir env :
  (forall d, P (EvCleanup dir d)) ->
  emits_only P (call_cleanupWorkspace dir env).
Proof. intros HP. unfold call_cleanupWorkspace. emits. Qed.

(** ** The executor always returns a result labelled with its runner *)

Ltac stage_settles :=
  repeat first
    [ apply call_runBenchmark_settles | apply (total_settles _ (compileApp_total _ _))
    | apply runApp_settles | apply analyzeApp_settles
    | apply (total_settles _ (stopApp_total _ _))
    | apply call_cleanupWorkspace_settles | settles_step ].

Lemma runner_try_settles cfg runnerId prompt keep dir env startTime :
  settles (runner_try cfg runnerId prompt keep dir env startTime).
Proof. unfold runner_try. stage_settles. Qed.

Lemma runner_catch_total cfg runnerId env startTime error :
  total (runner_catch cfg runnerId env startTime error).
Proof.
  unfold runner_catch.
  apply total_bind; [ apply total_local | intros sp ].
  apply total_bind.
  - destruct sp; [ | apply total_ret ].
    apply total_try_catch; [ stage_settles | intros; apply total_ret ].
  - intros. repeat total_step.
Qed.

Lemma runSingleRunner_total runnerId prompt keep dir env cfg :
  getRunner runnerId = Some cfg ->
  total (runSingleRunner runnerId prompt keep dir env).
Proof.
  intros G. unfold runSingleRunner. rewrite G.
  apply total_bind; [ apply total_date_now | intros startTime ].
  apply total_with_locals. apply total_try_catch.
  - apply runner_try_settles.
  - intros e. apply runner_catch_total.
Qed.

Lemma runSingleRunner_settles runnerId prompt keep dir env :
  settles (runSingleRunner runnerId prompt keep dir env).
Proof.
  destruct (getRunner runnerId) as [cfg | ] eqn:G.
  - eapply total_settles, runSingleRunner_total. exact G.
  - unfold runSingleRunner. rewrite G. apply settles_throw.
Qed.

Lemma runSingleRunner_labels runnerId prompt keep dir env :
  ensures (runSingleRunner runnerId prompt keep dir env)
    (fun r => RunnerBenchmarkResult.runner r = runnerId).
Proof.
  unfold runSingleRunner. destruct (getRunner runnerId) as [cfg | ].
  - unfold runner_try, runner_catch. repeat ensures_step; reflexivity.
  - apply ensures_throw.
Qed.

(** ** What the executor may add to the trace *)

Ltac stage_emits :=
  repeat first
    [ apply call_runBenchmark_emits; simpl; exact I
    | apply compileApp_emits; intros; simpl; exact I
    | apply runApp_emits; intros; simpl; exact I
    | apply analyzeApp_emits; intros; simpl; exact I
    | apply stopApp_emits; intros; simpl; exact I
    | apply call_cleanupWorkspace_emits; intros; simpl; exact I
    | emits_step ].

Lemma runner_catch_emits (P : Event -> Prop) cfg runnerId env startTime e :
  (forall sig d, P (EvKill sig d)) ->
  emits_only P (runner_catch cfg runnerId env startTime e).
Proof.
  intros HP. unfold runner_catch.
  repeat first [ apply stopApp_emits; exact HP | emits_step ].
Qed.

(** With [keepWorkspaces] set no workspace is deleted. *)
Lemma runSingleRunner_keeps runnerId prompt dir env :
  emits_only not_cleanup (runSingleRunner runnerId prompt true dir env).
Proof.
  unfold runSingleRunner. destruct (getRunner runnerId) as [cfg | ].
  - apply emits_bind; [ apply emits_date_now | intros startTime ].
    apply emits_with_locals. apply emits_try_catch.
    + unfold runner_try. cbn [negb andb]. stage_emits.
    + intros e. apply runner_catch_emits. intros; exact I.
  - apply emits_throw.
Qed.

(** The executor logs no warning. *)
Lemma runSingleRunner_no_warning runnerId prompt keep dir env :
  emits_only not_warning (runSingleRunner runnerId prompt keep dir env).
Proof.
  unfold runSingleRunner. destruct (getRunner runnerId) as [cfg | ].
  - apply emits_bind; [ apply emits_date_now | intros startTime ].
    apply emits_with_locals. apply emits_try_catch.
    + unfold runner_try. stage_emits.
    + intros e. apply runner_catch_emits. intros; exact I.
  - apply emits_throw.
Qed.

(** ** The runner filter *)

Lemma filter_nil_all {A} (p : A -> bool) (l : list A) :
  List.filter p l = [] -> Forall (fun x => p x = false) l.
Proof.
  induction l as [ | x l IH]; simpl; intros E.
  - constructor.
  - destruct (p x) eqn:Px; [ discriminate | ].
    constructor; [ exact Px | apply IH; exact E ].
Qed.

Lemma includes_In x l : includes x l = true -> In x l.
Proof.
  unfold includes. intros E. apply existsb_exists in E.
  destruct E as [y [Hy Exy]]. apply String.eqb_eq in Exy. subst. exact Hy.
Qed.

(** A filter that parses selects registered runners only. *)
Lemma parseRunnerFilter_valid flt all selected :
  parseRunnerFilter flt all = Ok selected ->
  Forall (fun r => In r all) selected.
Proof.
  unfold parseRunnerFilter. destruct (negb (truthy flt)).
  - intros E. inversion E. subst. apply Forall_forall. auto.
  - destruct (List.filter _ _) as [ | bad rest] eqn:F.
    + simpl. intros E. inversion E. subst.
      apply filter_nil_all in F.
      eapply Forall_impl; [ | exact F ].
      intros r Hr. simpl in Hr. apply includes_In.
      destruct (includes r all); [ reflexivity | discriminate ].
    + destruct (0 <? Z.of_nat (List.length (bad :: rest))) eqn:L.
      * discriminate.
      * apply Z.ltb_ge in L. simpl List.length in L. lia.
Qed.

Lemma lookup_registered k (l : list (string * RunnerConfig)) :
  In k (map fst l) -> exists cfg, lookup k l = Some cfg.
Proof.
  induction l as [ | [k' v] l IH]; simpl; intros H.
  - contradiction.
  - destruct (String.eqb k k') eqn:E.
    + exists v. reflexivity.
    + destruct H as [H | H].
      * subst. rewrite String.eqb_refl in E. discriminate.
      * apply IH. exact H.
Qed.

(** ** The orchestrator's loop *)

Section Loop.
Variable executor :
  string -> string -> bool -> string -> RunnerEnv ->
  M World RunnerBenchmarkResult.t.
Variables (oenv : OrchestratorEnv) (benchmarkDir dateStr prompt : string).
Variable keep : bool.

Hypothesis executor_settles :
  forall id p k d env, settles (executor id p k d env).

(** Every iteration ends normally and adds exactly one entry, whatever the
    executor did. *)
Lemma run_iteration_pushes runnerId env cfg w rs :
  getRunner runnerId = Some cfg ->
  exists r w',
    run_iteration executor oenv benchmarkDir dateStr prompt keep runnerId env
      (w, rs)
    = (Ok tt, (w', (rs ++ [r])%list))
    /\ recorded executor oenv prompt keep runnerId env w r.
Proof.
  intros G. unfold run_iteration, recorded. rewrite G.
  pose proof (executor_settles runnerId prompt keep (dirname oenv) env w) as NH.
  destruct (executor runnerId prompt keep (dirname oenv) env w)
    as [[r0 | e | ] w1] eqn:E; simpl in NH.
  - exists r0. unfold try_catch at 1. unfold bind at 1.
    rewrite (lift_run _ _ _ _ _ E). unfold bind at 1. unfold push at 1.
    simpl fst. simpl snd.
    destruct (RunnerBenchmarkResult.success r0
              && is_some_truthy (RunnerBenchmarkResult.screenshotPath r0))%bool.
    + unfold copyScreenshot, try_catch, bind, lift, emit, modify, throw, ret.
      simpl. destruct (copy_rejects env); simpl; eexists; split; reflexivity.
    + eexists. split; reflexivity.
  - exists (synthetic_failure runnerId (defaultModel cfg) e).
    unfold try_catch at 1. unfold bind at 1.
    rewrite (lift_run _ _ _ _ _ E).
    unfold bind, lift, emit, modify, push. simpl.
    eexists. split; [ reflexivity | ]. exists cfg. split; reflexivity.
  - congruence.
Qed.

Lemma run_loop_pushes envs selected : forall i w rs,
  Forall (fun r => In r getAvailableRunners) selected ->
  exists rs' w',
    run_loop executor oenv benchmarkDir dateStr prompt keep envs i selected
      (w, rs)
    = (Ok tt, (w', (rs ++ rs')%list))
    /\ Forall2 (recorded_somewhere executor oenv prompt keep) selected rs'.
Proof.
  induction selected as [ | runnerId rest IH]; intros i w rs Hsel; simpl.
  - exists [], w. rewrite app_nil_r. split; [ reflexivity | constructor ].
  - inversion Hsel as [ | x l Hin Hrest]. subst.
    destruct (lookup_registered _ _ Hin) as [cfg G].
    destruct (run_iteration_pushes runnerId (envs i) cfg w rs G)
      as [r [w1 [E R]]].
    destruct (IH (S i) w1 (rs ++ [r])%list Hrest) as [rs' [w2 [E2 F2]]].
    exists (r :: rs'), w2. split.
    + rewrite (bind_ok _ _ _ _ _ E). rewrite E2.
      rewrite <- app_assoc. reflexivity.
    + constructor; [ | exact F2 ]. exists (envs i), w. exact R.
Qed.

Hypothesis executor_labels :
  forall id p k d env,
    ensures (executor id p k d env)
      (fun r => RunnerBenchmarkResult.runner r = id).

Lemma recorded_runner runnerId r :
  recorded_somewhere executor oenv prompt keep runnerId r ->
  RunnerBenchmarkResult.runner r = runnerId.
Proof.
  intros [env [w R]]. unfold recorded in R.
  destruct (executor runnerId prompt keep (dirname oenv) env w)
    as [[r0 | e | ] w1] eqn:E; simpl in R.
  - subst. eapply executor_labels. exact E.
  - destruct R as [cfg [_ R]]. subst. reflexivity.
  - contradiction.
Qed.

Lemma recorded_runners selected rs :
  Forall2 (recorded_somewhere executor oenv prompt keep) selected rs ->
  map RunnerBenchmarkResult.runner rs = selected.
Proof.
  induction 1 as [ | runnerId r sel rs' R F IH]; simpl.
  - reflexivity.
  - rewrite (recorded_runner _ _ R), IH. reflexivity.
Qed.
End Loop.

(** ** The metadata *)

Lemma runMulti_metadata executor appName prompt options oenv envs w dir md w' :
  runMultiRunnerBenchmark_with executor appName prompt options oenv envs w
  = (Ok (dir, md), w') ->
  exists results,
    runners md = map persisted results /\ summary md = make_summary results.
Proof.
  unfold runMultiRunnerBenchmark_with.
  unfold bind at 1. unfold of_res.
  destruct (parseRunnerFilter _ _) as [sel | e | ]; try discriminate.
  unfold bind at 1. unfold fs_call at 1. unfold bind at 1. unfold emit at 1.
  unfold modify at 1.
  destruct (mkdir_rejects oenv); [ discriminate | ].
  unfold ret at 1. unfold with_locals. unfold bind at 1.
  match goal with
  | |- context [run_loop ?x1 ?x2 ?x3 ?x4 ?x5 ?x6 ?x7 ?x8 ?x9 ?x10] =>
      destruct (run_loop x1 x2 x3 x4 x5 x6 x7 x8 x9 x10)
        as [[u | err | ] [w1 rs]]
  end; try discriminate.
  unfold bind at 1. unfold local at 1. simpl snd.
  unfold bind at 1. unfold lift at 1. unfold fs_call, bind, emit, modify.
  simpl. destruct (write_rejects oenv); simpl; [ discriminate | ].
  intros E. inversion E. subst. exists rs. split; reflexivity.
Qed.

Lemma runMulti_runs executor appName prompt options oenv envs w selected :
  (forall id p k d env, settles (executor id p k d env)) ->
  parseRunnerFilter (or_else (filter options) "") getAvailableRunners
  = Ok selected ->
  mkdir_rejects oenv = None -> write_rejects oenv = None ->
  exists dir md w' results,
    runMultiRunnerBenchmark_with executor appName prompt options oenv envs w
    = (Ok (dir, md), w')
    /\ runners md = map persisted results
    /\ Forall2
         (recorded_somewhere executor oenv prompt
            (match keepWorkspaces options with Some b => b | None => false end))
         selected results.
Proof.
  intros HS P MK WR.
  unfold runMultiRunnerBenchmark_with.
  unfold bind at 1. unfold of_res. rewrite P.
  unfold bind at 1. unfold fs_call at 1. unfold bind at 1. unfold emit at 1.
  unfold modify at 1. rewrite MK. unfold ret at 1. unfold with_locals.
  match goal with
  | |- context [bind (run_loop ?x1 ?x2 ?x3 ?x4 ?x5 ?x6 ?x7 ?x8 ?x9) _
                  (?w0, ?rs0)] =>
      destruct (run_loop_pushes x1 x2 x3 x4 x5 x6 HS x7 x9 x8 w0 rs0
                  (parseRunnerFilter_valid _ _ _ P))
        as [rs [w1 [E F]]]
  end.
  rewrite (bind_ok _ _ _ _ _ E).
  unfold bind, local, lift, fs_call, bind, emit, modify. simpl.
  rewrite WR. simpl.
  eexists. eexists. eexists. exists rs. split; [ reflexivity | ].
  split; [ reflexivity | exact F ].
Qed.

(** The entries of the loop, position by position: the [k]-th entry added
    belongs to the [k]-th name and is made from what the executor did in the
    environment of that position. *)
Lemma run_loop_entries executor oenv benchmarkDir dateStr prompt keep
  (HS : forall id p k d env, settles (executor id p k d env))
  envs selected : forall i w rs,
  Forall (fun r => In r getAvailableRunners) selected ->
  exists rs' w',
    run_loop executor oenv benchmarkDir dateStr prompt keep envs i selected
      (w, rs)
    = (Ok tt, (w', (rs ++ rs')%list))
    /\ List.length rs' = List.length selected
    /\ forall k runnerId,
         nth_error selected k = Some runnerId ->
         exists r wk,
           nth_error rs' k = Some r
           /\ recorded executor oenv prompt keep runnerId (envs (i + k)%nat)
                wk r.
Proof.
  induction selected as [ | runnerId rest IH]; intros i w rs Hsel; simpl.
  - exists [], w. rewrite app_nil_r. split; [ reflexivity | ].
    split; [ reflexivity | ]. intros k id H. destruct k; discriminate.
  - inversion Hsel as [ | x l Hin Hrest]. subst.
    destruct (lookup_registered _ _ Hin) as [cfg G].
    destruct (run_iteration_pushes executor oenv benchmarkDir dateStr prompt
                keep HS runnerId (envs i) cfg w rs G)
      as [r [w1 [E R]]].
    destruct (IH (S i) w1 (rs ++ [r])%list Hrest) as [rs' [w2 [E2 [L2 F2]]]].
    exists (r :: rs'), w2. split; [ | split ].
    + rewrite (bind_ok _ _ _ _ _ E). rewrite E2.
      rewrite <- app_assoc. reflexivity.
    + simpl. rewrite L2. reflexivity.
    + intros k id H. destruct k as [ | k]; simpl in H.
      * inversion H. subst. exists r, w. rewrite Nat.add_0_r.
        split; [ reflexivity | exact R ].
      * destruct (F2 k id H) as [r' [wk [N R']]].
        exists r', wk. rewrite Nat.add_succ_r. split; [ exact N | exact R' ].
Qed.

Lemma runMulti_entries executor appName prompt options oenv envs w selected :
  (forall id p k d env, settles (executor id p k d env)) ->
  parseRunnerFilter (or_else (filter options) "") getAvailableRunners
  = Ok selected ->
  mkdir_rejects oenv = None -> write_rejects oenv = None ->
  exists dir md w' results,
    runMultiRunnerBenchmark_with executor appName prompt options oenv envs w
    = (Ok (dir, md), w')
    /\ runners md = map persisted results
    /\ List.length results = List.length selected
    /\ forall k runnerId,
         nth_error selected k = Some runnerId ->
         exists r wk,
           nth_error results k = Some r
           /\ recorded executor oenv prompt
                (match keepWorkspaces options with
                 | Some b => b | None => false end)
                runnerId (envs k) wk r.
Proof.
  intros HS P MK WR.
  unfold runMultiRunnerBenchmark_with.
  unfold bind at 1. unfold of_res. rewrite P.
  unfold bind at 1. unfold fs_call at 1. unfold bind at 1. unfold emit at 1.
  unfold modify at 1. rewrite MK. unfold ret at 1. unfold with_locals.
  match goal with
  | |- context [bind (run_loop ?x1 ?x2 ?x3 ?x4 ?x5 ?x6 ?x7 ?x8 ?x9) _
                  (?w0, ?rs0)] =>
      destruct (run_loop_entries x1 x2 x3 x4 x5 x6 HS x7 x9 x8 w0 rs0
                  (parseRunnerFilter_valid _ _ _ P))
        as [rs [w1 [E [L F]]]]
  end.
  rewrite (bind_ok _ _ _ _ _ E).
  unfold bind, local, lift, fs_call, bind, emit, modify. simpl.
  rewrite WR. simpl.
  eexists. eexists. eexists. exists rs. split; [ reflexivity | ].
  split; [ reflexivity | ]. split; [ exact L | exact F ].
Qed.

Lemma persisted_runner r :
  RunnerBenchmarkResult.runner (persisted r) = RunnerBenchmarkResult.runner r.
Proof. reflexivity. Qed.

Lemma filter_persisted rs :
  List.filter RunnerBenchmarkResult.success (map persisted rs)
  = map persisted (List.filter RunnerBenchmarkResult.success rs).
Proof.
  induction rs as [ | r rs IH]; simpl; [ reflexivity | ].
  destruct (RunnerBenchmarkResult.success r); simpl; rewrite IH; reflexivity.
Qed.

(** ** The fastest successful runner *)

(** The reduction keeps the first entry of least duration. *)
Lemma fold_faster_first_least rest : forall first,
  exists before after,
    first :: rest = (before ++ fold_left faster rest first :: after)%list
    /\ (forall x, In x before ->
                  total_of (fold_left faster rest first) < total_of x)
    /\ (forall x, In x after ->
                  total_of (fold_left faster rest first) <= total_of x).
Proof.
  induction rest as [ | x rest IH]; intros first; simpl.
  - exists [], []. repeat split; intros y []; contradiction.
  - destruct (IH (faster first x)) as [before [after [E [Hb Ha]]]].
    assert (K : (faster first x = first /\ total_of first <= total_of x)
                \/ (faster first x = x /\ total_of x < total_of first)).
    { unfold faster, total_of.
      destruct (RunnerBenchmarkResult.totalDuration x
                <? RunnerBenchmarkResult.totalDuration first) eqn:L.
      - right. split; [ reflexivity | apply Z.ltb_lt; exact L ].
      - left. split; [ reflexivity | apply Z.ltb_ge; exact L ]. }
    remember (fold_left faster rest (faster first x)) as m eqn:Em.
    destruct before as [ | b bs]; simpl in E; injection E as E1 E2.
    + destruct K as [[K1 K2] | [K1 K2]].
      * exists [], (x :: rest). split; [ | split ].
        -- simpl. rewrite <- E1, K1. reflexivity.
        -- intros y [].
        -- intros y [Hy | Hy].
           ++ subst y. rewrite <- E1, K1. exact K2.
           ++ apply Ha. rewrite <- E2. exact Hy.
      * exists [first], rest. split; [ | split ].
        -- simpl. rewrite <- E1, K1. reflexivity.
        -- intros y [Hy | []]. subst y. rewrite <- E1, K1. exact K2.
        -- intros y Hy. apply Ha. rewrite <- E2. exact Hy.
    + assert (Hm : total_of m < total_of (faster first x)).
      { rewrite E1. apply Hb. left. reflexivity. }
      assert (Kle : total_of (faster first x) <= total_of first
                    /\ total_of (faster first x) <= total_of x).
      { destruct K as [[K1 K2] | [K1 K2]]; rewrite K1; lia. }
      exists (first :: x :: bs), after. split; [ | split ].
      * simpl. rewrite E2. reflexivity.
      * intros y [Hy | [Hy | Hy]].
        -- subst y. lia.
        -- subst y. lia.
        -- apply Hb. right. exact Hy.
      * exact Ha.
Qed.

(** ** Failures and the deletion of workspaces *)

Lemma throws_only_weak {S A} `{Traced S} (P : Event -> Prop) (m : M S A) :
  emits_only P m -> throws_only P m.
Proof.
  intros Hm s. destruct (fst (m s)); [ exact I | apply Hm | apply Hm ].
Qed.

Lemma throws_only_bind {S A B} `{Traced S} (P : Event -> Prop)
  (m : M S A) (k : A -> M S B) :
  emits_only P m -> (forall a, throws_only P (k a)) ->
  throws_only P (bind m k).
Proof.
  intros Hm Hk s. unfold bind.
  destruct (Hm s) as [e1 [E1 F1]].
  destruct (m s) as [[a | e | ] s1]; simpl in E1.
  - specialize (Hk a s1).
    destruct (k a s1) as [[b | e | ] s2]; simpl in *.
    + exact I.
    + destruct Hk as [e2 [E2 F2]]. exists (e1 ++ e2)%list.
      rewrite E2, E1, app_assoc.
      split; [ reflexivity | apply Forall_app; split; assumption ].
    + destruct Hk as [e2 [E2 F2]]. exists (e1 ++ e2)%list.
      rewrite E2, E1, app_assoc.
      split; [ reflexivity | apply Forall_app; split; assumption ].
  - simpl. exists e1. split; assumption.
  - simpl. exists e1. split; assumption.
Qed.

(** The last step of the [try] block: a deletion that throws has deleted
    nothing. *)
Lemma cleanup_step_throws_only {A} (c : bool) dir env (result : A) :
  throws_only not_cleaned
    ((if c then lift (L:=option ChildProcess) (call_cleanupWorkspace dir env)
      else ret tt);;
     ret result).
Proof.
  intros [w l]. destruct c.
  - unfold bind, lift, call_cleanupWorkspace, bind, sleep, emit, modify,
      throw, ret.
    simpl. destruct (cleanup_rejects env); simpl; [ | exact I ].
    exists [EvCleanup dir false]. split; [ reflexivity | ].
    repeat constructor.
  - exact I.
Qed.

Lemma runner_try_throws_only cfg runnerId prompt keep dir env startTime :
  throws_only not_cleaned
    (runner_try cfg runnerId prompt keep dir env startTime).
Proof.
  unfold runner_try.
  repeat first
    [ apply cleanup_step_throws_only
    | apply throws_only_bind; [ stage_emits | intros ]
    | match goal with
      | |- throws_only _ (if ?b then _ else _) => destruct b
      end
    | apply throws_only_weak; stage_emits ].
Qed.

Lemma runner_catch_result cfg runnerId env startTime e :
  ensures (runner_catch cfg runnerId env startTime e) (failed_as runnerId cfg e).
Proof.
  unfold runner_catch. repeat ensures_step. repeat split.
Qed.

Lemma crashing_for_settles victim id p k d env :
  settles (crashing_for victim id p k d env).
Proof.
  unfold crashing_for. destruct (String.eqb id victim).
  - apply settles_throw.
  - apply runSingleRunner_settles.
Qed.

Lemma crashing_for_labels victim id p k d env :
  ensures (crashing_for victim id p k d env)
    (fun r => RunnerBenchmarkResult.runner r = id).
Proof.
  unfold crashing_for. destruct (String.eqb id victim).
  - apply ensures_throw.
  - apply runSingleRunner_labels.
Qed.

(** ** The ready pattern on sample output *)

Example strip_ansi_colours :
  strip_ansi ("  " ++ esc ++ "[32m" ++ esc ++ "[1mLocal" ++ esc ++ "[22m:"
              ++ esc ++ "[39m   http://localhost:5173/")
  = "  Local:   http://localhost:5173/".
Proof. reflexivity. Qed.

Example local_match_ignores_case :
  local_match "  VITE v5  ready in 300 ms  LOCAL:   http://LocalHost:5173/ x"
  = Some "http://LocalHost:5173".
Proof. reflexivity. Qed.

Example local_match_needs_port :
  local_match "Local: http://localhost:/" = None
  /\ local_match "Local:http://localhost:5173" = None.
Proof. split; reflexivity. Qed.

Example parseRunnerFilter_samples :
  parseRunnerFilter "" getAvailableRunners = Ok ["sigrid"; "claude"]
  /\ parseRunnerFilter " claude ,sigrid" getAvailableRunners
     = Ok ["claude"; "sigrid"]
  /\ parseRunnerFilter "sigrid,gemini" getAvailableRunners
     = Throw (Error "Invalid runner(s): gemini. Available runners: sigrid, claude").
Proof. repeat split; reflexivity. Qed.

Example make_dateStr_sample :
  make_dateStr "2025-10-15T12:34:56.789Z" = "2025-10-15123456".
Proof. reflexivity. Qed.

(** ** Following one path through the executor *)

Ltac step_ok H :=
  rewrite (bind_ok _ _ _ _ _ (lift_run _ _ _ _ _ H)); cbv beta zeta.

(** The multi-runner orchestrator with its own executor: one entry per
    selected runner, in order. *)
Lemma runMultiRunnerBenchmark_one_result_each
  appName prompt options oenv envs w selected :
  parseRunnerFilter (or_else (filter options) "") getAvailableRunners
  = Ok selected ->
  mkdir_rejects oenv = None -> write_rejects oenv = None ->
  exists dir md w',
    runMultiRunnerBenchmark appName prompt options oenv envs w
    = (Ok (dir, md), w')
    /\ map RunnerBenchmarkResult.runner (runners md) = selected.
Proof.
  intros P MK WR.
  destruct (runMulti_runs runSingleRunner appName prompt options oenv envs w
              selected runSingleRunner_settles P MK WR)
    as [dir [md [w' [results [E [R F]]]]]].
  exists dir, md, w'. split; [ exact E | ].
  rewrite R, map_map.
  rewrite (map_ext _ RunnerBenchmarkResult.runner persisted_runner).
  eapply recorded_runners; [ | exact F ].
  apply runSingleRunner_labels.
Qed.

(** A compile stage that fails ends the run before the deletion step, whatever
    [keepWorkspaces] says. *)
Lemma compile_failure_skips_cleanup
  runnerId prompt keep dir env cfg br w :
  getRunner runnerId = Some cfg ->
  gen_outcome (generate_env env) = inl br ->
  BuildResult.success (BenchmarkResult.build br) = true ->
  compile_succeeds (compile_env env) = false ->
  exists r w' evs,
    runSingleRunner runnerId prompt keep dir env w = (Ok r, w')
    /\ RunnerBenchmarkResult.error r = Some "Compilation failed"
    /\ RunnerBenchmarkResult.workspaceDir r
       = Some (BenchmarkResult.workspaceDir br)
    /\ trace w' = (trace w ++ evs)%list
    /\ Forall not_cleanup evs.
Proof.
  intros G Hg Hs Hc.
  destruct (compileApp_total (BenchmarkResult.workspaceDir br)
              (compile_env env)
              (mkWorld (now w + gen_ms (generate_env env))
                 (trace w ++ [EvGenerate (id cfg) prompt (defaultModel cfg)])))
    as [cr [w2 Ec]].
  destruct (compileApp_emits not_cleanup (BenchmarkResult.workspaceDir br)
              (compile_env env) (fun _ => I)
              (mkWorld (now w + gen_ms (generate_env env))
                 (trace w ++ [EvGenerate (id cfg) prompt (defaultModel cfg)])))
    as [evc [Et Fc]].
  rewrite Ec in Et. unfold trace_of, Traced_World in Et. simpl in Et.
  pose proof (compileApp_success _ _ _ _ _ Ec) as Hcs. simpl in Hcs.
  rewrite Hc in Hcs.
  unfold runSingleRunner. rewrite G.
  unfold bind at 1. unfold date_now at 1. unfold with_locals.
  unfold try_catch, runner_try.
  step_ok (call_runBenchmark_returns cfg prompt (defaultModel cfg)
             (generate_env env) br w Hg).
  rewrite Hs. cbn [negb]. cbv iota.
  step_ok Ec. rewrite Hcs. cbn [negb]. cbv iota.
  unfold bind, lift, date_now, ret. simpl.
  eexists. eexists.
  exists ([EvGenerate (id cfg) prompt (defaultModel cfg)] ++ evc)%list.
  split; [ reflexivity | ].
  split; [ reflexivity | ].
  split; [ reflexivity | ].
  split.
  - rewrite Et, <- app_assoc. reflexivity.
  - apply Forall_app. split; [ repeat constructor | exact Fc ].
Qed.

(** With generation, compilation and server startup successful and an
    analyze stage that returns, the [try] block arrives at its deletion step
    with a successful result in hand. *)
Lemma runner_try_reaches_cleanup
  runnerId prompt keep dir env cfg br t rr w :
  gen_outcome (generate_env env) = inl br ->
  BuildResult.success (BenchmarkResult.build br) = true ->
  compile_succeeds (compile_env env) = true ->
  serve_outcome (BenchmarkResult.workspaceDir br) (serve_env env)
  = Some (t, Resolved rr) ->
  analyze_throws (analyze_env env) = false ->
  exists ar wa wa' s5 result,
    analyzeApp (non_null (RunResult.serverUrl rr)) (runnerId ++ "-temp")
      (path_join dir "results") (analyze_env env) wa
    = (Ok ar, wa')
    /\ AnalyzeResult.success ar
       = match an_failure (analyze_env env) with
         | None => true
         | Some _ => false
         end
    /\ RunnerBenchmarkResult.success result = true
    /\ RunnerBenchmarkResult.error result = None
    /\ serverStartup (RunnerBenchmarkResult.durations result) = t
    /\ analysis (RunnerBenchmarkResult.durations result)
       = AnalyzeResult.duration ar
    /\ RunnerBenchmarkResult.screenshotPath result
       = AnalyzeResult.screenshotPath ar
    /\ runner_try cfg runnerId prompt keep dir env (now w) (w, None)
       = ((if (negb keep && cleanupWorkspace cfg
               && truthy (BenchmarkResult.workspaceDir br))%bool
           then lift (call_cleanupWorkspace (BenchmarkResult.workspaceDir br)
                        (cleanup_env env))
           else ret tt);;
          ret result) s5.
Proof.
  intros Hg Hs Hc Ho Ha.
  destruct (serve_resolved_shape _ _ _ _ Ho) as [Rs [Rp [[url Ru] Rd]]].
  destruct (compileApp_total (BenchmarkResult.workspaceDir br)
              (compile_env env)
              (mkWorld (now w + gen_ms (generate_env env))
                 (trace w ++ [EvGenerate (id cfg) prompt (defaultModel cfg)])))
    as [cr [w2 Ec]].
  pose proof (compileApp_success _ _ _ _ _ Ec) as Hcs. simpl in Hcs.
  rewrite Hc in Hcs.
  pose proof (runApp_run _ _ w2 _ _ Ho) as Er. cbv iota in Er.
  match type of Er with _ = (_, ?w3') => set (w3 := w3') in * end.
  destruct (analyzeApp_returns (non_null (RunResult.serverUrl rr))
              (runnerId ++ "-temp") (path_join dir "results")
              (analyze_env env) w3 Ha) as [ar [w4 [Ea Has]]].
  destruct (stopApp_total (Some (mkChild (BenchmarkResult.workspaceDir br) false))
              (stop_env env) w4) as [p5 [w5 Es]].
  exists ar, w3, w4, (w5, p5).
  eexists.
  split; [ exact Ea | ].
  split; [ exact Has | ].
  unfold runner_try.
  step_ok (call_runBenchmark_returns cfg prompt (defaultModel cfg)
             (generate_env env) br w Hg).
  rewrite Hs. cbn [negb]. cbv iota.
  step_ok Ec. rewrite Hcs. cbn [negb]. cbv iota.
  step_ok Er.
  unfold bind at 1. unfold set_local at 1. cbn [fst snd].
  rewrite Rs. cbn [negb]. cbv iota.
  step_ok Ea.
  unfold bind at 1. unfold local at 1. cbn [fst snd]. rewrite Rp.
  unfold bind at 1. unfold bind at 1.
  rewrite (lift_run _ _ _ _ _ Es). unfold set_local at 1. cbn [fst snd].
  unfold bind at 1. unfold lift at 1. unfold date_now at 1. cbn [fst snd].
  split; [ | split; [ | split; [ | split; [ | split ] ] ] ];
    [ | | | | | reflexivity ]; try reflexivity.
  simpl. exact Rd.
Qed.

(** A deletion that throws turns a run that completed every stage into a
    failed result with no durations. *)
Lemma cleanup_failure_is_caught
  runnerId prompt dir env cfg br t rr e w :
  getRunner runnerId = Some cfg ->
  gen_outcome (generate_env env) = inl br ->
  BuildResult.success (BenchmarkResult.build br) = true ->
  compile_succeeds (compile_env env) = true ->
  serve_outcome (BenchmarkResult.workspaceDir br) (serve_env env)
  = Some (t, Resolved rr) ->
  analyze_throws (analyze_env env) = false ->
  cleanupWorkspace cfg = true ->
  truthy (BenchmarkResult.workspaceDir br) = true ->
  cleanup_rejects (cleanup_env env) = Some e ->
  exists r w',
    runSingleRunner runnerId prompt false dir env w = (Ok r, w')
    /\ failed_as runnerId cfg e r
    /\ Forall not_warning (skipn (List.length (trace w)) (trace w')).
Proof.
  intros G Hg Hs Hc Ho Ha Hcw Ht Hr.
  destruct (runner_try_reaches_cleanup runnerId prompt false dir env cfg br t
              rr w Hg Hs Hc Ho Ha)
    as [ar [wa [wa' [s5 [result [_ [_ [_ [_ [_ [_ [_ Eb]]]]]]]]]]]].
  rewrite Hcw, Ht in Eb. cbn [negb andb] in Eb.
  assert (Et : exists s6,
             runner_try cfg runnerId prompt false dir env (now w) (w, None)
             = (Throw e, s6)).
  { rewrite Eb. destruct s5 as [w5 p5].
    unfold bind, lift, call_cleanupWorkspace, bind, sleep, emit, modify,
      throw. rewrite Hr. cbn [fst snd]. eexists. reflexivity. }
  destruct Et as [s6 Et].
  destruct (runner_catch_total cfg runnerId env (now w) e s6) as [r [s7 Ec]].
  exists r, (fst s7). split; [ | split ].
  - unfold runSingleRunner. rewrite G.
    unfold bind at 1. unfold date_now at 1. unfold with_locals.
    rewrite (try_catch_throw _ _ _ _ _ Et). rewrite Ec. reflexivity.
  - eapply runner_catch_result. exact Ec.
  - destruct (runSingleRunner_no_warning runnerId prompt false dir env w)
      as [evs [E F]].
    assert (Ew : snd (runSingleRunner runnerId prompt false dir env w)
                 = fst s7).
    { unfold runSingleRunner. rewrite G.
      unfold bind at 1. unfold date_now at 1. unfold with_locals.
      rewrite (try_catch_throw _ _ _ _ _ Et). rewrite Ec. reflexivity. }
    rewrite Ew in E. unfold trace_of, Traced_World in E. rewrite E.
    rewrite skipn_app, skipn_all, Nat.sub_diag. simpl. exact F.
Qed.

(** [stopApp] never escalates on a running process: the only signal is
    SIGTERM. *)
Lemma stopApp_running_process p env w :
  killed p = false -> proc_alive env = true ->
  exists w',
    stopApp (Some p) env w = (Ok (Some (mkChild (spawn_cwd p) true)), w')
    /\ trace w' = (trace w ++ [EvKill SIGTERM true])%list.
Proof.
  intros K A. unfold stopApp, kill_process. rewrite K, A.
  unfold bind, emit, sleep, modify, ret. simpl.
  eexists. split; reflexivity.
Qed.

Lemma exec_error_iff cmd timeout env :
  exec_succeeds timeout env = false
  <-> exists e, exec_error cmd timeout env = Some e.
Proof.
  unfold exec_succeeds, exec_error.
  destruct (timeout <? exec_ms env); simpl.
  - split; [ intros _; eexists; reflexivity | reflexivity ].
  - destruct (exec_outcome env); split.
    + discriminate.
    + intros [e E]. discriminate.
    + intros _. eexists. reflexivity.
    + reflexivity.
Qed.


(** ** The server dies before the time-out *)







(** * The claims *)

(** C1, amended. For every invocation of the orchestrator whose filter
    parses and whose output directory and metadata file can be written, and
    for every executor (one that returns a result labelled with its runner,
    or throws), the metadata holds exactly one entry for each name of the
    parsed filter, in the order of the filter: the entry at a position
    carries the runner named there and is what the executor returned for it,
    or the failed result made of the exception it threw, with [success]
    false, the message of the exception as [error] and every duration 0. No
    runner's failure or exception removes or prevents another entry. *)
Theorem C1_one_result_per_listed_runner
  (executor : string -> string -> bool -> string -> RunnerEnv ->
              M World RunnerBenchmarkResult.t)
  (appName prompt : string) (options : Options) (oenv : OrchestratorEnv)
  (envs : nat -> RunnerEnv) (w : World) (selected : list string) :
  (forall id p k d env, settles (executor id p k d env)) ->
  (forall id p k d env,
      ensures (executor id p k d env)
        (fun r => RunnerBenchmarkResult.runner r = id)) ->
  parseRunnerFilter (or_else (filter options) "") getAvailableRunners
  = Ok selected ->
  mkdir_rejects oenv = None -> write_rejects oenv = None ->
  exists dir md w',
    runMultiRunnerBenchmark_with executor appName prompt options oenv envs w
    = (Ok (dir, md), w')
    /\ List.length (runners md) = List.length selected
    /\ map RunnerBenchmarkResult.runner (runners md) = selected
    /\ forall i runnerId,
         nth_error selected i = Some runnerId ->
         exists entry wi,
           nth_error (runners md) i = Some entry
           /\ RunnerBenchmarkResult.runner entry = runnerId
           /\ match
                fst (executor runnerId prompt
                       (match keepWorkspaces options with
                        | Some b => b | None => false end)
                       (dirname oenv) (envs i) wi)
              with
              | Ok r => entry = persisted r
              | Throw e =>
                  RunnerBenchmarkResult.success entry = false
                  /\ RunnerBenchmarkResult.error entry = Some (message e)
                  /\ RunnerBenchmarkResult.totalDuration entry = 0
                  /\ RunnerBenchmarkResult.durations entry
                     = mkDurations 0 0 0 0
                  /\ RunnerBenchmarkResult.errors entry = no_errors
                  /\ RunnerBenchmarkResult.screenshotPath entry = None
                  /\ RunnerBenchmarkResult.workspaceDir entry = None
              | Hang => False
              end.
Proof.
  intros HS HL P MK WR.
  destruct (runMulti_entries executor appName prompt options oenv envs w
              selected HS P MK WR)
    as [dir [md [w' [results [E [R [L F]]]]]]].
  exists dir, md, w'.
  assert (Each : forall i runnerId,
             nth_error selected i = Some runnerId ->
             exists entry wi,
               nth_error (runners md) i = Some entry
               /\ RunnerBenchmarkResult.runner entry = runnerId
               /\ match
                    fst (executor runnerId prompt
                           (match keepWorkspaces options with
                            | Some b => b | None => false end)
                           (dirname oenv) (envs i) wi)
                  with
                  | Ok r => entry = persisted r
                  | Throw e =>
                      RunnerBenchmarkResult.success entry = false
                      /\ RunnerBenchmarkResult.error entry = Some (message e)
                      /\ RunnerBenchmarkResult.totalDuration entry = 0
                      /\ RunnerBenchmarkResult.durations entry
                         = mkDurations 0 0 0 0
                      /\ RunnerBenchmarkResult.errors entry = no_errors
                      /\ RunnerBenchmarkResult.screenshotPath entry = None
                      /\ RunnerBenchmarkResult.workspaceDir entry = None
                  | Hang => False
                  end).
  { intros i runnerId H.
    destruct (F i runnerId H) as [r [wi [N Rec]]].
    exists (persisted r), wi.
    split; [ rewrite R; apply map_nth_error; exact N | ].
    unfold recorded in Rec.
    destruct (executor runnerId prompt
                (match keepWorkspaces options with
                 | Some b => b | None => false end)
                (dirname oenv) (envs i) wi) as [[r0 | e | ] w1] eqn:Ex;
      cbn [fst] in Rec |- *.
    - subst r0. split; [ | reflexivity ].
      rewrite persisted_runner. eapply HL. exact Ex.
    - destruct Rec as [cfg [_ Rec]]. subst r. repeat split.
    - contradiction. }
  split; [ exact E | ].
  split; [ rewrite R, length_map; exact L | ].
  split; [ | exact Each ].
  apply nth_error_ext. intros i.
  rewrite nth_error_map.
  destruct (nth_error selected i) as [runnerId | ] eqn:H.
  - destruct (Each i runnerId H) as [entry [wi [N [Lb _]]]].
    rewrite N. simpl. rewrite Lb. reflexivity.
  - apply nth_error_None in H.
    assert (N : nth_error (runners md) i = None).
    { apply nth_error_None. rewrite R, length_map, L. exact H. }
    rewrite N. reflexivity.
Qed.

(** Witness of C1: the executor crashes for sigrid; claude still runs, and
    both have their entry. *)
Lemma C1_witness :
  exists dir md w',
    runMultiRunnerBenchmark_with (crashing_for "sigrid") "todo-app"
      "Build a todo app" both_runners sample_oenv
      (fun _ => smooth_run 4000 "/tmp/ws/b") w0
    = (Ok (dir, md), w')
    /\ List.length (runners md) = List.length ["sigrid"; "claude"]
    /\ map RunnerBenchmarkResult.runner (runners md) = ["sigrid"; "claude"]
    /\ forall i runnerId,
         nth_error ["sigrid"; "claude"] i = Some runnerId ->
         exists entry wi,
           nth_error (runners md) i = Some entry
           /\ RunnerBenchmarkResult.runner entry = runnerId
           /\ match
                fst (crashing_for "sigrid" runnerId "Build a todo app" false
                       "/abe" (smooth_run 4000 "/tmp/ws/b") wi)
              with
              | Ok r => entry = persisted r
              | Throw e =>
                  RunnerBenchmarkResult.success entry = false
                  /\ RunnerBenchmarkResult.error entry = Some (message e)
                  /\ RunnerBenchmarkResult.totalDuration entry = 0
                  /\ RunnerBenchmarkResult.durations entry
                     = mkDurations 0 0 0 0
                  /\ RunnerBenchmarkResult.errors entry = no_errors
                  /\ RunnerBenchmarkResult.screenshotPath entry = None
                  /\ RunnerBenchmarkResult.workspaceDir entry = None
              | Hang => False
              end.
Proof.
  apply (C1_one_result_per_listed_runner (crashing_for "sigrid")
           "todo-app" "Build a todo app" both_runners sample_oenv
           (fun _ => smooth_run 4000 "/tmp/ws/b") w0 ["sigrid"; "claude"]
           (crashing_for_settles "sigrid") (crashing_for_labels "sigrid")).
  - reflexivity.
  - reflexivity.
  - reflexivity.
Defined.

(** Counterexample to C1 as stated: the filter names sigrid twice; it is
    the one selected runner, it is run twice, and the metadata holds two
    results for it. *)
Lemma C1_counterexample :
  exists dir md w',
    runMultiRunnerBenchmark "todo-app" "Build a todo app" sigrid_twice
      sample_oenv two_successes w0
    = (Ok (dir, md), w')
    /\ map RunnerBenchmarkResult.runner (runners md) = ["sigrid"; "sigrid"]
    /\ List.length
         (List.filter
            (fun r => String.eqb (RunnerBenchmarkResult.runner r) "sigrid")
            (runners md))
       <> 1%nat.
Proof.
  eexists. eexists. eexists.
  split; [ vm_compute; reflexivity | ].
  split; [ reflexivity | ]. vm_compute. discriminate.
Qed.

(** C2. For every invocation that returns its metadata: when no entry has
    [success], [fastestRunner] and [fastestTime] are null; otherwise they are
    the runner and the total duration of a successful entry whose duration is
    strictly below that of every successful entry before it and at most that
    of every successful entry after it (the first of least duration). *)
Theorem C2_fastest_successful_runner
  (executor : string -> string -> bool -> string -> RunnerEnv ->
              M World RunnerBenchmarkResult.t)
  (appName prompt : string) (options : Options) (oenv : OrchestratorEnv)
  (envs : nat -> RunnerEnv) (w w' : World) (dir : string)
  (md : BenchmarkMetadata) :
  runMultiRunnerBenchmark_with executor appName prompt options oenv envs w
  = (Ok (dir, md), w') ->
  match List.filter RunnerBenchmarkResult.success (runners md) with
  | [] =>
      fastestRunner (summary md) = None /\ fastestTime (summary md) = None
  | _ :: _ =>
      exists before r after,
        List.filter RunnerBenchmarkResult.success (runners md)
        = (before ++ r :: after)%list
        /\ fastestRunner (summary md) = Some (RunnerBenchmarkResult.runner r)
        /\ fastestTime (summary md)
           = Some (RunnerBenchmarkResult.totalDuration r)
        /\ (forall x, In x before ->
              RunnerBenchmarkResult.totalDuration r
              < RunnerBenchmarkResult.totalDuration x)
        /\ (forall x, In x after ->
              RunnerBenchmarkResult.totalDuration r
              <= RunnerBenchmarkResult.totalDuration x)
  end.
Proof.
  intros E.
  destruct (runMulti_metadata _ _ _ _ _ _ _ _ _ _ E) as [results [R Sm]].
  rewrite R, Sm, filter_persisted. unfold make_summary. simpl.
  destruct (List.filter RunnerBenchmarkResult.success results)
    as [ | first rest] eqn:F; simpl.
  - split; reflexivity.
  - destruct (fold_faster_first_least rest first)
      as [before [after [D [Hb Ha]]]].
    exists (map persisted before),
      (persisted (fold_left faster rest first)), (map persisted after).
    split; [ | split; [ | split; [ | split ] ] ].
    + change (persisted first :: map persisted rest)
        with (map persisted (first :: rest)).
      rewrite D, map_app. reflexivity.
    + reflexivity.
    + reflexivity.
    + intros x Hx. apply in_map_iff in Hx. destruct Hx as [y [Ey Hy]].
      subst x. apply (Hb y Hy).
    + intros x Hx. apply in_map_iff in Hx. destruct Hx as [y [Ey Hy]].
      subst x. apply (Ha y Hy).
Qed.

(** Witness of C2: both runners succeed, the second one is faster. *)
Lemma C2_witness :
  map RunnerBenchmarkResult.totalDuration (runners scenario_md) = [12000; 9000]
  /\ fastestRunner (summary scenario_md) = Some "claude"
  /\ fastestTime (summary scenario_md) = Some 9000
  /\ exists before r after,
       List.filter RunnerBenchmarkResult.success (runners scenario_md)
       = (before ++ r :: after)%list
       /\ fastestRunner (summary scenario_md)
          = Some (RunnerBenchmarkResult.runner r)
       /\ fastestTime (summary scenario_md)
          = Some (RunnerBenchmarkResult.totalDuration r)
       /\ (forall x, In x before ->
             RunnerBenchmarkResult.totalDuration r
             < RunnerBenchmarkResult.totalDuration x)
       /\ (forall x, In x after ->
             RunnerBenchmarkResult.totalDuration r
             <= RunnerBenchmarkResult.totalDuration x).
Proof.
  split; [ reflexivity | ].
  split; [ reflexivity | ].
  split; [ reflexivity | ].
  refine (C2_fastest_successful_runner runSingleRunner "todo-app"
            "Build a todo app" both_runners sample_oenv two_successes w0
            (snd scenario) scenario_dir scenario_md _).
  vm_compute. reflexivity.
Defined.

(** C3 (the code differs). All four stages complete and the deletion of the
    workspace throws: the exception reaches the executor's catch block, so the
    result reports failure with every stage duration 0, and no warning is
    logged. The same run with a deletion that works reports success with the
    recorded durations. *)
Theorem C3_cleanup_failure_fails_the_runner :
  let env := smooth_run 4000 "/tmp/ws/a" in
  let fine := runSingleRunner "sigrid" "Build a todo app" false "/abe" env w0 in
  let broken :=
    runSingleRunner "sigrid" "Build a todo app" false "/abe"
      (with_cleanup cleanup_breaks env) w0 in
  (exists r,
      fst fine = Ok r
      /\ RunnerBenchmarkResult.success r = true
      /\ RunnerBenchmarkResult.durations r = mkDurations 4000 2000 300 1800)
  /\ (exists r,
         fst broken = Ok r
         /\ RunnerBenchmarkResult.success r = false
         /\ RunnerBenchmarkResult.error r
            = Some "EBUSY: resource busy or locked"
         /\ RunnerBenchmarkResult.durations r = mkDurations 0 0 0 0)
  /\ In (EvCleanup "/tmp/ws/a" false) (trace (snd broken))
  /\ Forall not_warning (trace (snd broken)).
Proof.
  split; [ | split; [ | split ] ].
  - eexists. vm_compute. repeat split.
  - eexists. vm_compute. repeat split.
  - vm_compute. tauto.
  - vm_compute. repeat constructor.
Qed.

(** C4 (the code differs). With [keepWorkspaces = false] a runner whose
    compile stage fails returns before the deletion step: its workspace is
    reported and never deleted. The same holds for a server that fails to
    start. *)
Theorem C4_failed_stage_skips_cleanup :
  let compile_fails :=
    runSingleRunner "sigrid" "Build a todo app" false "/abe"
      (with_compile install_breaks (smooth_run 4000 "/tmp/ws/a")) w0 in
  let serve_fails :=
    runSingleRunner "sigrid" "Build a todo app" false "/abe"
      (with_serve [(1200, ExitEvent (Some 1))] (smooth_run 4000 "/tmp/ws/a"))
      w0 in
  (exists r,
      fst compile_fails = Ok r
      /\ RunnerBenchmarkResult.error r = Some "Compilation failed"
      /\ RunnerBenchmarkResult.workspaceDir r = Some "/tmp/ws/a")
  /\ Forall not_cleanup (trace (snd compile_fails))
  /\ (exists r,
         fst serve_fails = Ok r
         /\ RunnerBenchmarkResult.error r = Some "Server exited with code 1")
  /\ Forall not_cleanup (trace (snd serve_fails)).
Proof.
  split; [ | split; [ | split ] ].
  - eexists. vm_compute. repeat split.
  - vm_compute. repeat constructor.
  - eexists. vm_compute. repeat split.
  - vm_compute. repeat constructor.
Qed.




(** C6 (the code differs). The timeout handler calls [reject] without closing
    the latch: when the killed server then exits, the exit handler calls
    [reject] a second time; a late ready line calls [resolve] after the
    timeout's [reject]. *)
Theorem C6_timeout_leaves_latch_open :
  sv_calls (serve_loop [(30400, ExitEvent None)] (serve_init "/tmp/ws/a"))
  = [ (30000, Rejected (Error "Server startup timeout (30s)"));
      (30400, Rejected (Error "Server exited with code null")) ]
  /\ List.length
       (sv_calls
          (serve_loop [(31000, StdoutData "Local: http://localhost:5173/")]
             (serve_init "/tmp/ws/a")))
     = 2%nat.
Proof. split; vm_compute; reflexivity. Qed.

(** C7 (the code differs). On a running server that ignores SIGTERM,
    [stopApp] sends SIGTERM, which sets [killed]; five seconds later the
    callback finds [killed] set and sends no SIGKILL. *)
Theorem C7_no_forceful_kill_after_grace_period :
  stopApp (Some (mkChild "/tmp/ws/a" false)) (mkStopEnv true None) w0
  = (Ok (Some (mkChild "/tmp/ws/a" true)),
     mkWorld (now w0 + 5000) [EvKill SIGTERM true]).
Proof. vm_compute. reflexivity. Qed.

(** A compile stage that has to install and whose install command exits
    with a non-zero code or hits its 5-minute limit returns [success = false]
    with the error "npm install failed" and the whole stderr of the install
    error (its message when that stderr is empty), and runs no build. *)
Lemma install_failure_ends_compile
  (dir : string) (env : CompileEnv) (e : JsError) (w : World) :
  node_modules_present env = false ->
  exec_error "npm install" (5 * 60 * 1000) (install_env env) = Some e ->
  exists r w',
    compileApp dir env w = (Ok r, w')
    /\ CompileResult.success r = false
    /\ CompileResult.error r = Some "npm install failed"
    /\ CompileResult.stderr r = Some (or_else (err_stderr e) (message e))
    /\ (exists evs,
           trace w' = (trace w ++ evs)%list
           /\ evs = [EvExec "npm install" dir]
           /\ Forall (fun ev => ~ is_build ev) evs).
Proof.
  intros NM EE.
  eexists. eexists. split.
  - apply compileApp_install_fails; eassumption.
  - simpl. repeat split.
    eexists. repeat split.
    repeat constructor. simpl. discriminate.
Qed.

(** C8 (the code differs). The install command fails and has written 501
    characters to its standard error: the result carries the error "npm
    install failed" and no build is run, but its [stderr] holds all 501
    characters. A build that succeeds with the same 501 characters on its
    standard error is reported with the first 500 only: the return of a
    successful compile truncates both streams, the returns of a failed one
    do not. *)
Theorem C8_failed_install_stderr_is_not_truncated :
  let failing :=
    compileApp "/tmp/ws/a"
      (mkCompileEnv false (exec_failing 700 long_stderr) (exec_in 2000)) w0 in
  let passing :=
    compileApp "/tmp/ws/a"
      (mkCompileEnv true (exec_in 0) (exec_writes 2000 "built" long_stderr))
      w0 in
  (exists r s,
      fst failing = Ok r
      /\ CompileResult.success r = false
      /\ CompileResult.error r = Some "npm install failed"
      /\ CompileResult.stderr r = Some s
      /\ String.length s = 501%nat
      /\ trace (snd failing) = [EvExec "npm install" "/tmp/ws/a"])
  /\ (exists r s,
         fst passing = Ok r
         /\ CompileResult.success r = true
         /\ CompileResult.stderr r = Some s
         /\ String.length s = 500%nat).
Proof.
  split.
  - eexists. eexists. split; [ vm_compute; reflexivity | ].
    repeat split.
  - eexists. eexists. split; [ vm_compute; reflexivity | ].
    repeat split.
Qed.

(** C9, amended. For every single-runner execution in which code generation,
    compilation and server startup succeed, the analyze stage returns a result
    (with [success] true or false) and the deletion of the workspace is
    skipped or does not throw, the executor's result has [success = true]: it
    carries the analyze stage's duration and screenshot path whatever that
    stage's own [success] flag says. *)
Theorem C9_analysis_failure_is_not_fatal
  (runnerId prompt : string) (keep : bool) (dir : string) (env : RunnerEnv)
  (cfg : RunnerConfig) (br : BenchmarkResult.t) (t : Z) (rr : RunResult.t)
  (w : World) :
  getRunner runnerId = Some cfg ->
  gen_outcome (generate_env env) = inl br ->
  BuildResult.success (BenchmarkResult.build br) = true ->
  compile_succeeds (compile_env env) = true ->
  serve_outcome (BenchmarkResult.workspaceDir br) (serve_env env)
  = Some (t, Resolved rr) ->
  analyze_throws (analyze_env env) = false ->
  keep = true \/ cleanup_rejects (cleanup_env env) = None ->
  exists r w' ar,
    runSingleRunner runnerId prompt keep dir env w = (Ok r, w')
    /\ RunnerBenchmarkResult.success r = true
    /\ RunnerBenchmarkResult.error r = None
    /\ AnalyzeResult.success ar
       = match an_failure (analyze_env env) with
         | None => true
         | Some _ => false
         end
    /\ analysis (RunnerBenchmarkResult.durations r) = AnalyzeResult.duration ar
    /\ RunnerBenchmarkResult.screenshotPath r = AnalyzeResult.screenshotPath ar
    /\ (exists wa wa',
           analyzeApp (non_null (RunResult.serverUrl rr)) (runnerId ++ "-temp")
             (path_join dir "results") (analyze_env env) wa
           = (Ok ar, wa')).
Proof.
  intros G Hg Hs Hc Ho Ha Hk.
  destruct (runner_try_reaches_cleanup runnerId prompt keep dir env cfg br t
              rr w Hg Hs Hc Ho Ha)
    as [ar [wa [wa' [s5 [result [Ea [Has [H1 [H2 [_ [H3 [H4 Eb]]]]]]]]]]]].
  assert (Er : exists s6,
             runner_try cfg runnerId prompt keep dir env (now w) (w, None)
             = (Ok result, s6)).
  { rewrite Eb. destruct s5 as [w5 p5]. destruct Hk as [Hk | Hk].
    - subst keep. cbn [negb andb]. unfold bind, ret. eexists. reflexivity.
    - destruct (negb keep && cleanupWorkspace cfg
                && truthy (BenchmarkResult.workspaceDir br))%bool.
      + unfold bind, lift, call_cleanupWorkspace, bind, sleep, emit, modify,
          ret. rewrite Hk. cbn [fst snd]. eexists. reflexivity.
      + unfold bind, ret. eexists. reflexivity. }
  destruct Er as [s6 Er].
  unfold runSingleRunner. rewrite G.
  unfold bind at 1. unfold date_now at 1. unfold with_locals.
  rewrite (try_catch_ok _ _ _ _ _ Er).
  exists result, (fst s6), ar. repeat split; try assumption.
  exists wa, wa'. exact Ea.
Qed.

(** Witness of C9: the browser cannot load the page, the analyze stage
    reports failure, and the runner still succeeds. *)
Lemma C9_witness :
  exists r w' ar,
    runSingleRunner "sigrid" "Build a todo app" false "/abe"
      (with_analyze browser_cannot_navigate (smooth_run 4000 "/tmp/ws/a")) w0
    = (Ok r, w')
    /\ RunnerBenchmarkResult.success r = true
    /\ RunnerBenchmarkResult.error r = None
    /\ AnalyzeResult.success ar = false
    /\ analysis (RunnerBenchmarkResult.durations r) = AnalyzeResult.duration ar
    /\ RunnerBenchmarkResult.screenshotPath r = AnalyzeResult.screenshotPath ar
    /\ (exists wa wa',
           analyzeApp "http://localhost:5173" "sigrid-temp" "/abe/results"
             browser_cannot_navigate wa
           = (Ok ar, wa')).
Proof.
  refine (C9_analysis_failure_is_not_fatal "sigrid" "Build a todo app" false
            "/abe"
            (with_analyze browser_cannot_navigate (smooth_run 4000 "/tmp/ws/a"))
            sigrid_config generated_a 300 started_a w0 _ _ _ _ _ _ _).
  - reflexivity.
  - reflexivity.
  - reflexivity.
  - reflexivity.
  - vm_compute. reflexivity.
  - reflexivity.
  - right. reflexivity.
Defined.

(** Counterexample to C9 as stated: generation, compilation and server
    startup succeed, and the executor still reports failure, once because the
    analyze stage itself throws (closing the browser fails in its catch
    handler) and once because the deletion of the workspace throws. *)
Lemma C9_counterexample :
  let env := smooth_run 4000 "/tmp/ws/a" in
  let run e := runSingleRunner "sigrid" "Build a todo app" false "/abe" e w0 in
  gen_outcome (generate_env env) = inl generated_a
  /\ BuildResult.success (BenchmarkResult.build generated_a) = true
  /\ compile_succeeds (compile_env env) = true
  /\ serve_outcome "/tmp/ws/a" (serve_env env) = Some (300, Resolved started_a)
  /\ (exists r,
         fst (run (with_analyze browser_cannot_close env)) = Ok r
         /\ RunnerBenchmarkResult.success r = false
         /\ RunnerBenchmarkResult.error r = Some "Target closed")
  /\ (exists r,
         fst (run (with_cleanup cleanup_breaks env)) = Ok r
         /\ RunnerBenchmarkResult.success r = false
         /\ RunnerBenchmarkResult.error r
            = Some "EBUSY: resource busy or locked").
Proof.
  split; [ reflexivity | ].
  split; [ reflexivity | ].
  split; [ reflexivity | ].
  split; [ vm_compute; reflexivity | ].
  split.
  - eexists. vm_compute. repeat split.
  - eexists. vm_compute. repeat split.
Qed.

(** C10. Whenever the [try] block of the executor throws, the executor
    returns a failed result carrying the exception's message, with the four
    stage durations 0 and no [workspaceDir] (so none in the persisted entry
    either); the catch block deletes no workspace, and no deletion has
    completed before it: every deletion event of the run is a failed one. *)
Theorem C10_caught_exception_result
  (runnerId prompt : string) (keep : bool) (dir : string) (env : RunnerEnv)
  (cfg : RunnerConfig) (w : World) (e : JsError)
  (s' : World * option ChildProcess) :
  getRunner runnerId = Some cfg ->
  runner_try cfg runnerId prompt keep dir env (now w) (w, None)
  = (Throw e, s') ->
  exists r w',
    runSingleRunner runnerId prompt keep dir env w = (Ok r, w')
    /\ RunnerBenchmarkResult.success r = false
    /\ RunnerBenchmarkResult.error r = Some (message e)
    /\ RunnerBenchmarkResult.durations r = mkDurations 0 0 0 0
    /\ RunnerBenchmarkResult.workspaceDir r = None
    /\ RunnerBenchmarkResult.workspaceDir (persisted r) = None
    /\ (exists evs,
           trace w' = (trace (fst s') ++ evs)%list /\ Forall not_cleanup evs)
    /\ (exists evs,
           trace w' = (trace w ++ evs)%list /\ Forall not_cleaned evs).
Proof.
  intros G Hb.
  unfold runSingleRunner. rewrite G.
  unfold bind at 1. unfold date_now at 1. unfold with_locals.
  rewrite (try_catch_throw _ _ _ _ _ Hb).
  destruct (runner_catch_total cfg runnerId env (now w) e s')
    as [r [s'' Ec]].
  rewrite Ec. exists r, (fst s'').
  destruct (runner_catch_result _ _ _ _ _ _ _ _ Ec)
    as [_ [_ [Hs [He [Hd [_ [_ Hw]]]]]]].
  pose proof (runner_try_throws_only cfg runnerId prompt keep dir env (now w)
                (w, None)) as Ht.
  rewrite Hb in Ht. simpl in Ht. destruct Ht as [evs1 [E1 F1]].
  destruct (runner_catch_emits not_cleanup cfg runnerId env (now w) e
              (fun _ _ => I) s') as [evs2 [E2 F2]].
  rewrite Ec in E2. simpl in E2.
  unfold trace_of, Traced_locals in E1, E2. simpl in E1.
  repeat split; try assumption.
  - exists evs2. split; assumption.
  - exists (evs1 ++ evs2)%list. split.
    + rewrite E2, E1, app_assoc. reflexivity.
    + apply Forall_app. split; [ exact F1 | ].
      eapply Forall_impl; [ | exact F2 ].
      intros [ ] H; simpl in *; try exact I. contradiction.
Qed.

(** Witness of C10: the server exits with code 1 after generation and
    compilation succeeded; the workspace /tmp/ws/a exists and is neither
    reported nor deleted. *)
Lemma C10_witness :
  exists r w',
    runSingleRunner "sigrid" "Build a todo app" false "/abe" server_dies w0
    = (Ok r, w')
    /\ RunnerBenchmarkResult.success r = false
    /\ RunnerBenchmarkResult.error r
       = Some (message (Error "Server exited with code 1"))
    /\ RunnerBenchmarkResult.durations r = mkDurations 0 0 0 0
    /\ RunnerBenchmarkResult.workspaceDir r = None
    /\ RunnerBenchmarkResult.workspaceDir (persisted r) = None
    /\ (exists evs,
           trace w' = (trace (fst server_dies_state) ++ evs)%list
           /\ Forall not_cleanup evs)
    /\ (exists evs,
           trace w' = (trace w0 ++ evs)%list /\ Forall not_cleaned evs).
Proof.
  refine (C10_caught_exception_result "sigrid" "Build a todo app" false
            "/abe" server_dies
            (mkRunnerConfig "sigrid" "Sigrid (OpenAI)" "gpt-5" true) w0
            (Error "Server exited with code 1") server_dies_state _ _).
  - reflexivity.
  - vm_compute. reflexivity.
Defined.

(** * Further properties *)

(** ** The compile stage *)

Ltac run_compile :=
  unfold compileApp, compile_succeeds, exec_succeeds, exec_error, execAsync,
    try_catch, bind, date_now, emit, sleep, modify, throw, ret;
  simpl;
  repeat match goal with
    | |- context [if ?b then _ else _] => destruct b eqn:?; simpl
    | |- context [match ?o with ExecOk _ _ => _ | ExecFail _ => _ end] =>
        destruct o eqn:?; simpl
    end.

(** X1.  [compileApp] never throws: a command that fails or runs into its
    time limit gives a returned result. The [duration] of the result is the
    time the call took, and the result reports success exactly when the
    install, where one is needed, and the build both end within their limits
    with exit code 0. *)
Theorem compileApp_never_rejects dir env w :
  match compileApp dir env w with
  | (Ok r, w') =>
      CompileResult.duration r = now w' - now w
      /\ (CompileResult.success r = true <-> compile_succeeds env = true)
  | (Throw _, _) => False
  | (Hang, _) => True
  end.
Proof.
  destruct env as [nm [ims io ip] [bms bo bp]].
  destruct nm; run_compile;
    (split; [ lia | split; intros; congruence ]).
Qed.

(** X2.  [compileApp] runs [npm install] exactly when [node_modules] is
    missing, then [npm run build] exactly when no install was needed or the
    install succeeded, both in the workspace; it runs nothing else. *)
Theorem compileApp_commands dir env w :
  exists r w',
    compileApp dir env w = (Ok r, w')
    /\ trace w'
       = (trace w
          ++ (if node_modules_present env then []
              else [EvExec "npm install" dir])
          ++ (if (node_modules_present env
                  || exec_succeeds (5 * 60 * 1000) (install_env env))%bool
              then [EvExec "npm run build" dir] else []))%list.
Proof.
  destruct env as [nm [ims io ip] [bms bo bp]].
  destruct nm; run_compile; try discriminate;
    (eexists; eexists; split; [ reflexivity | ]); simpl;
    rewrite <- ?app_assoc; try reflexivity; rewrite ?app_nil_r; reflexivity.
Qed.

(** X3.  When the install step is skipped or succeeds and [npm run build]
    fails or times out with the error [e], the result is a failure that
    carries the message of [e] and its captured output (the empty string
    where [e] has none), and has neither [buildDuration] nor
    [installNeeded]. *)
Theorem compileApp_build_failure dir env e w :
  (node_modules_present env
   || exec_succeeds (5 * 60 * 1000) (install_env env))%bool = true ->
  exec_error "npm run build" (3 * 60 * 1000) (build_env env) = Some e ->
  exists r w',
    compileApp dir env w = (Ok r, w')
    /\ CompileResult.success r = false
    /\ CompileResult.error r = Some (message e)
    /\ CompileResult.stdout r = Some (or_else (err_stdout e) "")
    /\ CompileResult.stderr r = Some (or_else (err_stderr e) "")
    /\ CompileResult.buildDuration r = None
    /\ CompileResult.installNeeded r = None.
Proof.
  destruct env as [nm [ims io ip] [bms bo bp]].
  destruct nm; run_compile; intros Hi Hb; try discriminate;
    inversion Hb; subst;
    (eexists; eexists; split; [ reflexivity | ]); simpl;
    repeat split;
    repeat match goal with H : truthy _ = _ |- _ => rewrite H end;
    reflexivity.
Qed.

Lemma compileApp_build_failure_witness :
  exists r w',
    compileApp "/tmp/ws/a"
      (mkCompileEnv true (exec_in 0) (build_failing 2000 "TS2304")) w0
    = (Ok r, w')
    /\ CompileResult.success r = false
    /\ CompileResult.error r
       = Some ("Command failed: npm run build" ++ newline ++ "TS2304")
    /\ CompileResult.stdout r = Some ""
    /\ CompileResult.stderr r = Some "TS2304"
    /\ CompileResult.buildDuration r = None
    /\ CompileResult.installNeeded r = None.
Proof.
  apply (compileApp_build_failure "/tmp/ws/a"
           (mkCompileEnv true (exec_in 0) (build_failing 2000 "TS2304"))
           (command_failed "npm run build" "TS2304") w0);
    reflexivity.
Defined.

(** ** The serve stage, continued *)

Lemma literal_ci_same pat : forall s m r,
  literal_ci pat s = Some (m, r) -> same_ci pat m = true.
Proof.
  induction pat as [ | p pat IH]; intros s m r; simpl.
  - intros E. inversion E. reflexivity.
  - destruct s as [ | c s]; [ discriminate | ].
    destruct (eqb_ci p c) eqn:Ec; [ | discriminate ].
    destruct (literal_ci pat s) as [[m' r'] | ] eqn:El; [ | discriminate ].
    intros E. inversion E. subst. simpl. rewrite Ec.
    apply (IH _ _ _ El).
Qed.

Lemma span_all p : forall s a b, span p s = (a, b) -> all_chars p a = true.
Proof.
  induction s as [ | c s IH]; intros a b; simpl.
  - intros E. inversion E. reflexivity.
  - destruct (p c) eqn:Pc.
    + destruct (span p s) as [a' b'] eqn:Es. intros E. inversion E. subst.
      simpl. rewrite Pc. apply (IH _ _ eq_refl).
    + intros E. inversion E. reflexivity.
Qed.

Lemma local_here_url s u : local_here s = Some u -> localhost_url u.
Proof.
  unfold local_here.
  destruct (literal_ci "Local:" s) as [[m1 r1] | ]; [ | discriminate ].
  destruct (span is_space r1) as [sp r2].
  destruct sp as [ | c0 sp]; [ discriminate | ].
  destruct (literal_ci "http://localhost:" r2) as [[lit r3] | ] eqn:El;
    [ | discriminate ].
  destruct (span is_digit r3) as [ds r4] eqn:Ed.
  destruct ds as [ | d ds]; [ discriminate | ].
  intros E. inversion E. subst.
  exists lit, (String d ds). split; [ reflexivity | ].
  split; [ apply (literal_ci_same _ _ _ _ El) | ].
  split; [ discriminate | apply (span_all _ _ _ _ Ed) ].
Qed.

Lemma local_match_url : forall s u, local_match s = Some u -> localhost_url u.
Proof.
  induction s as [ | c s IH]; intros u.
  - cbn [local_match]. destruct (local_here "") eqn:E; [ | discriminate ].
    intros E'. inversion E'. subst. apply (local_here_url _ _ E).
  - cbn [local_match]. destruct (local_here (String c s)) eqn:E.
    + intros E'. inversion E'. subst. apply (local_here_url _ _ E).
    + apply IH.
Qed.

Lemma substring_length : forall s n m,
  (String.length (substring n m s) <= m)%nat.
Proof.
  induction s as [ | c s IH]; intros n m.
  - destruct n, m; simpl; lia.
  - destruct n as [ | n].
    + destruct m as [ | m]; simpl; [ lia | ]. specialize (IH 0%nat m). lia.
    + simpl. apply IH.
Qed.

Lemma handle_resolves_ready t ev st :
  resolves_ready st -> resolves_ready (handle t ev st).
Proof.
  unfold resolves_ready. intros Hst.
  destruct ev as [text | text | e | c]; simpl.
  - unfold on_stdout. simpl.
    destruct (local_match (strip_ansi text)) as [url | ] eqn:Em; simpl;
      [ | exact Hst ].
    destruct (sv_resolved st); simpl; [ exact Hst | ].
    apply Forall_app. split; [ exact Hst | ].
    constructor; [ | constructor ]. simpl. unfold ready_result. simpl.
    repeat split.
    + exists url. split; [ reflexivity | apply (local_match_url _ _ Em) ].
    + eexists. split; [ reflexivity | apply substring_length ].
  - exact Hst.
  - unfold on_error. destruct (sv_resolved st); simpl; [ exact Hst | ].
    apply Forall_app. split; [ exact Hst | repeat constructor ].
  - unfold on_exit. simpl. destruct (sv_resolved st); simpl; [ exact Hst | ].
    apply Forall_app. split; [ exact Hst | repeat constructor ].
Qed.

Lemma fire_timer_resolves_ready st :
  resolves_ready st -> resolves_ready (fire_timer st).
Proof.
  unfold resolves_ready, fire_timer. intros Hst.
  destruct (sv_timer st); [ | exact Hst ].
  unfold on_timeout. simpl. destruct (sv_resolved st); simpl; [ exact Hst | ].
  apply Forall_app. split; [ exact Hst | repeat constructor ].
Qed.

Lemma serve_loop_resolves_ready evs : forall st,
  resolves_ready st -> resolves_ready (serve_loop evs st).
Proof.
  induction evs as [ | [t ev] rest IH]; intros st Hst; simpl.
  - apply fire_timer_resolves_ready. exact Hst.
  - apply IH. apply handle_resolves_ready.
    destruct (startup_timeout <=? t);
      [ apply fire_timer_resolves_ready | ]; exact Hst.
Qed.

Lemma handle_in_time t ev st :
  unsettled_ok st -> call_made_in_time st ->
  t < startup_timeout \/ sv_calls st <> [] ->
  call_made_in_time (handle t ev st).
Proof.
  unfold unsettled_ok, call_made_in_time. intros Hu Hst Ht.
  destruct (sv_calls st) as [ | [t0 s0] cs] eqn:C.
  - destruct Ht as [Ht | Ht]; [ | congruence ].
    destruct (Hu eq_refl) as [T R].
    destruct ev as [text | text | e | c]; simpl.
    + unfold on_stdout. simpl.
      destruct (local_match (strip_ansi text)); simpl.
      * rewrite R. simpl. rewrite C. simpl.
        split; [ lia | split; [ reflexivity | left; exact Hst ] ].
      * rewrite C. exact Hst.
    + rewrite C. exact Hst.
    + unfold on_error. rewrite R. simpl. rewrite C. simpl.
      split; [ lia | split; [ reflexivity | left; exact Hst ] ].
    + unfold on_exit. simpl. rewrite R. simpl. rewrite C. simpl.
      split; [ lia | split; [ reflexivity | left; exact Hst ] ].
  - destruct Hst as [Le [T K]].
    destruct (handle_calls t ev st) as [more E]. rewrite E, C. simpl.
    destruct (handle_timer_off t ev st T) as [T' K'].
    rewrite K'. split; [ exact Le | split; [ exact T' | exact K ] ].
Qed.

Lemma fire_timer_in_time st :
  unsettled_ok st -> call_made_in_time st ->
  call_made_in_time (fire_timer st).
Proof.
  unfold unsettled_ok, call_made_in_time, fire_timer. intros Hu Hst.
  destruct (sv_calls st) as [ | [t0 s0] cs] eqn:C.
  - destruct (Hu eq_refl) as [T R]. rewrite T.
    unfold on_timeout. simpl. rewrite R. simpl. rewrite ?C, ?Hst. simpl.
    split; [ unfold startup_timeout; lia | ].
    split; [ reflexivity | ].
    right. split; [ reflexivity | ]. split; [ reflexivity | ].
    eexists. reflexivity.
  - destruct Hst as [Le [T K]]. rewrite T. rewrite ?C.
    split; [ exact Le | split; [ exact T | exact K ] ].
Qed.

Lemma serve_loop_in_time evs : forall st,
  unsettled_ok st -> call_made_in_time st ->
  call_made_in_time (serve_loop evs st).
Proof.
  induction evs as [ | [t ev] rest IH]; intros st Hu Hst; simpl.
  - apply fire_timer_in_time; assumption.
  - destruct (startup_timeout <=? t) eqn:Late.
    + apply IH.
      * apply handle_unsettled_ok, fire_timer_unsettled_ok, Hu.
      * apply handle_in_time.
        -- apply fire_timer_unsettled_ok, Hu.
        -- apply fire_timer_in_time; assumption.
        -- right. apply fire_timer_settles, Hu.
    + apply Z.leb_gt in Late. apply IH.
      * apply handle_unsettled_ok, Hu.
      * apply handle_in_time; [ exact Hu | exact Hst | left; exact Late ].
Qed.

(** X4.  [runApp] always settles, whatever the dev server does. It spawns
    one process and sends a signal in one case only: when it rejects with
    the time-out error, which happens no earlier than 30000 ms after the
    start and after one SIGTERM. *)
Theorem runApp_signals_only_at_the_timeout cwd evs w :
  match runApp cwd evs w with
  | (Ok _, w') => trace w' = (trace w ++ [EvSpawn cwd])%list
  | (Throw e, w') =>
      trace w' = (trace w ++ [EvSpawn cwd])%list
      \/ (e = timeout_error /\ 30000 <= now w' - now w
          /\ exists alive,
               trace w'
               = (trace w ++ [EvSpawn cwd; EvKill SIGTERM alive])%list)
  | (Hang, _) => False
  end.
Proof.
  destruct (serve_outcome_exists cwd evs) as [t [s E]].
  rewrite (runApp_run cwd evs w t s E).
  pose proof (serve_loop_in_time evs (serve_init cwd)
                (serve_init_unsettled_ok cwd) eq_refl) as H.
  unfold call_made_in_time in H. unfold serve_outcome in E.
  destruct (sv_calls (serve_loop evs (serve_init cwd))) as [ | [t' s'] cs];
    [ discriminate | ].
  simpl in E. inversion E. subst. destruct H as [Le [_ K]].
  unfold startup_timeout in *. simpl.
  destruct s as [r | e].
  - destruct K as [K | [_ [K _]]]; [ rewrite K; reflexivity | discriminate ].
  - destruct K as [K | [Kt [Ks [alive K]]]].
    + left. rewrite K. reflexivity.
    + right. inversion Ks. subst. split; [ reflexivity | ].
      split; [ lia | ]. exists alive. rewrite K. reflexivity.
Qed.

(** X5.  Whenever [runApp] resolves, the result reports success and no error,
    its server URL is [http://localhost:] in any letter case followed by one
    digit or more, its output has at most 1000 characters, its process is
    the handle of the spawned server with no signal sent, and its duration
    is the time that passed. *)
Theorem runApp_resolves_with_a_localhost_url cwd evs w r w' :
  runApp cwd evs w = (Ok r, w') ->
  ready_result r
  /\ RunResult.process r = Some (mkChild cwd false)
  /\ RunResult.duration r = now w' - now w.
Proof.
  destruct (serve_outcome_exists cwd evs) as [t [s E]].
  rewrite (runApp_run cwd evs w t s E).
  destruct s as [r0 | e]; intros H; inversion H; subst; clear H.
  destruct (serve_resolved_shape cwd evs t r E) as [_ [Hp [_ Hd]]].
  split; [ | split; [ exact Hp | simpl; lia ] ].
  assert (R : resolves_ready (serve_loop evs (serve_init cwd))).
  { apply serve_loop_resolves_ready. constructor. }
  unfold resolves_ready in R. unfold serve_outcome in E.
  destruct (sv_calls (serve_loop evs (serve_init cwd))) as [ | [t' s'] cs];
    [ discriminate | ].
  simpl in E. inversion E. subst. inversion R. assumption.
Qed.

Lemma runApp_resolves_with_a_localhost_url_witness :
  ready_result started_a
  /\ RunResult.process started_a = Some (mkChild "/tmp/ws/a" false)
  /\ RunResult.duration started_a = 300.
Proof.
  apply (runApp_resolves_with_a_localhost_url "/tmp/ws/a" (vite_ready_at 300)
           w0 started_a
           (mkWorld 1000300 [EvSpawn "/tmp/ws/a"])).
  vm_compute. reflexivity.
Defined.

(** ** The stop stage *)

(** X6.  [stopApp] never throws and always resolves. Given no handle, or a
    handle already marked as killed, it does nothing. On any other handle
    it first calls [kill()], which sends SIGTERM if the process still runs;
    the only thing it may do after that is the call of [kill('SIGKILL')] on
    a process that had exited already. *)
Theorem stopApp_never_rejects p env w :
  exists p' w',
    stopApp p env w = (Ok p', w')
    /\ ((p = None \/ exists c, p = Some c /\ killed c = true) ->
        w' = w /\ p' = p)
    /\ (forall c,
           p = Some c -> killed c = false ->
           trace w'
           = (trace w ++ EvKill SIGTERM (proc_alive env)
                         :: (if proc_alive env then []
                             else [EvKill SIGKILL false]))%list).
Proof.
  destruct p as [[cwd k] | ].
  - destruct k.
    + exists (Some (mkChild cwd true)), w. split; [ reflexivity | ].
      split; [ intros _; split; reflexivity | ].
      intros c H K. inversion H. subst. discriminate.
    + unfold stopApp, kill_process, grace_period, bind, emit, sleep, modify,
        ret. simpl.
      destruct (proc_alive env); simpl;
        destruct (exit_delay env) as [d | ]; simpl;
        try destruct (d <? 5000); simpl;
        (eexists; eexists; split; [ reflexivity | ]); simpl;
        (split;
         [ intros [H | [c [H K]]]; [ discriminate | ];
           inversion H; subst; discriminate
         | intros c _ _; rewrite <- ?app_assoc; reflexivity ]).
  - exists None, w. split; [ reflexivity | ].
    split; [ intros _; split; reflexivity | ].
    intros c H. discriminate.
Qed.

(** X7.  On a handle that is not marked as killed but whose process has
    already exited, [stopApp] sends SIGTERM, waits the whole 5000 ms, and
    sends SIGKILL as well; neither signal is delivered and the handle stays
    unmarked. *)
Theorem stopApp_on_an_exited_process p env w :
  killed p = false -> proc_alive env = false ->
  stopApp (Some p) env w
  = (Ok (Some p),
     mkWorld (now w + 5000)
       (trace w ++ [EvKill SIGTERM false; EvKill SIGKILL false])).
Proof.
  intros K A. destruct p as [cwd k]. simpl in K. subst.
  unfold stopApp, kill_process, grace_period, bind, emit, sleep, modify, ret.
  simpl. rewrite A. simpl.
  destruct (exit_delay env); simpl; rewrite <- app_assoc; reflexivity.
Qed.

Lemma stopApp_on_an_exited_process_witness :
  stopApp (Some (mkChild "/tmp/ws/a" false)) (mkStopEnv false None) w0
  = (Ok (Some (mkChild "/tmp/ws/a" false)),
     mkWorld 1005000 [EvKill SIGTERM false; EvKill SIGKILL false]).
Proof.
  apply (stopApp_on_an_exited_process (mkChild "/tmp/ws/a" false)
           (mkStopEnv false None) w0); reflexivity.
Defined.

(** ** The analyze stage *)

(** X8.  [analyzeApp] only adds events to the trace, and it closes the browser
    exactly when [chromium.launch] returned one: whichever later step
    fails, a launched browser is closed, and without a browser no close is
    attempted. *)
Theorem analyzeApp_closes_the_browser url testId dir env w :
  exists evs,
    trace (snd (analyzeApp url testId dir env w)) = (trace w ++ evs)%list
    /\ (In EvBrowserClose evs <-> launched env = true).
Proof.
  destruct env as [f c ms co pe ti]. unfold launched.
  cbn [an_failure].
  destruct f as [[s e] | ];
    [ destruct s; destruct c as [ce | ] | ];
    run_analyze; cbn [trace];
    rewrite <- ?app_assoc; cbn [app];
    (eexists; split; [ reflexivity | ]); cbn [In];
    (split; [ intros H; first [ reflexivity | tauto | intuition discriminate ]
            | intros H; first [ discriminate | tauto ] ]).
Qed.

(** ** Names of the output directory and of the screenshots *)

Lemma all_chars_app p a b :
  all_chars p (a ++ b) = (all_chars p a && all_chars p b)%bool.
Proof.
  induction a as [ | c a IH]; simpl; [ reflexivity | ].
  rewrite IH, andb_assoc. reflexivity.
Qed.

Lemma all_chars_impl (p q : ascii -> bool) s :
  (forall c, p c = true -> q c = true) ->
  all_chars p s = true -> all_chars q s = true.
Proof.
  intros Hpq. induction s as [ | c s IH]; simpl; [ reflexivity | ].
  intros H. apply andb_prop in H. destruct H as [Hc Hs].
  rewrite (Hpq _ Hc), (IH Hs). reflexivity.
Qed.

(** A decimal digit is none of the separators. *)
Lemma digit_lacks c s :
  is_digit c = false -> all_chars is_digit s = true -> lacks c s = true.
Proof.
  intros Hc. apply all_chars_impl. intros x Hx.
  destruct (Ascii.eqb x c) eqn:E; [ | reflexivity ].
  apply Ascii.eqb_eq in E. subst. congruence.
Qed.

Lemma digits_all n s : digits n s = true -> all_chars is_digit s = true.
Proof. unfold digits. intros H. apply andb_prop in H. apply H. Qed.

Lemma digits_length n s : digits n s = true -> String.length s = n.
Proof.
  unfold digits. intros H. apply andb_prop in H. destruct H as [H _].
  apply Nat.eqb_eq in H. exact H.
Qed.

Lemma digits_lacks n c s :
  is_digit c = false -> digits n s = true -> lacks c s = true.
Proof. intros Hc H. apply (digit_lacks c s Hc (digits_all _ _ H)). Qed.

Lemma string_app_length (a b : string) :
  String.length (a ++ b) = (String.length a + String.length b)%nat.
Proof. induction a as [ | c a IH]; simpl; [ | rewrite IH ]; reflexivity. Qed.

Lemma string_app_nil_r (a : string) : a ++ "" = a.
Proof. induction a as [ | c a IH]; simpl; [ | rewrite IH ]; reflexivity. Qed.

Lemma replace_first_app c d a b :
  lacks c a = true ->
  replace_first c d (a ++ String c b) = a ++ String d b.
Proof.
  unfold lacks. induction a as [ | x a IH]; simpl.
  - intros _. rewrite Ascii.eqb_refl. reflexivity.
  - intros H. apply andb_prop in H. destruct H as [Hx Ha].
    apply negb_true_iff in Hx. rewrite Hx, (IH Ha). reflexivity.
Qed.

Lemma remove_all_app c a b :
  remove_all c (a ++ b) = remove_all c a ++ remove_all c b.
Proof.
  induction a as [ | x a IH]; simpl; [ reflexivity | ].
  destruct (Ascii.eqb x c); simpl; rewrite IH; reflexivity.
Qed.

Lemma remove_all_lacks c a : lacks c a = true -> remove_all c a = a.
Proof.
  unfold lacks. induction a as [ | x a IH]; simpl; [ reflexivity | ].
  intros H. apply andb_prop in H. destruct H as [Hx Ha].
  apply negb_true_iff in Hx. rewrite Hx, (IH Ha). reflexivity.
Qed.

Lemma span_whole p s : all_chars p s = true -> span p s = (s, "").
Proof.
  induction s as [ | c s IH]; simpl; [ reflexivity | ].
  intros H. apply andb_prop in H. destruct H as [Hc Hs].
  rewrite Hc, (IH Hs). reflexivity.
Qed.

Lemma cut_fraction_app a b :
  lacks "." a = true -> b <> "" -> all_chars not_newline b = true ->
  cut_fraction (a ++ String "." b) = a.
Proof.
  unfold lacks. intros Ha Hb Hn. induction a as [ | x a IH]; simpl.
  - rewrite (span_whole _ _ Hn). destruct b; [ congruence | reflexivity ].
  - simpl in Ha. apply andb_prop in Ha. destruct Ha as [Hx Ha].
    apply negb_true_iff in Hx. rewrite Hx, (IH Ha). reflexivity.
Qed.

Lemma keep_early_dashes_app a : forall n b,
  keep_early_dashes n (a ++ b)
  = keep_early_dashes n a ++ keep_early_dashes (n + String.length a) b.
Proof.
  induction a as [ | x a IH]; intros n b; simpl.
  - rewrite Nat.add_0_r. reflexivity.
  - rewrite IH. replace (S n + String.length a)%nat
      with (n + S (String.length a))%nat by lia.
    destruct (Ascii.eqb x "-" && negb (n <? 8)%nat)%bool; reflexivity.
Qed.

Lemma keep_early_dashes_lacks a : forall n,
  lacks "-" a = true -> keep_early_dashes n a = a.
Proof.
  unfold lacks. induction a as [ | x a IH]; intros n; simpl; [ reflexivity | ].
  intros H. apply andb_prop in H. destruct H as [Hx Ha].
  apply negb_true_iff in Hx. rewrite Hx, (IH _ Ha). reflexivity.
Qed.

Lemma digit_is_not_newline s :
  all_chars is_digit s = true -> all_chars not_newline s = true.
Proof.
  apply all_chars_impl. intros c Hc. unfold not_newline, is_digit in *.
  apply andb_prop in Hc. destruct Hc as [H1 H2].
  apply Nat.leb_le in H1.
  destruct (Nat.eqb (code c) 10) eqn:E1;
    [ apply Nat.eqb_eq in E1; lia | ].
  destruct (Nat.eqb (code c) 13) eqn:E2;
    [ apply Nat.eqb_eq in E2; lia | ].
  reflexivity.
Qed.

Section IsoTimestamp.
Variables Y Mo D h mi s ms : string.
Hypothesis HY : digits 4 Y = true.
Hypothesis HMo : digits 2 Mo = true.
Hypothesis HD : digits 2 D = true.
Hypothesis Hh : digits 2 h = true.
Hypothesis Hmi : digits 2 mi = true.
Hypothesis Hs : digits 2 s = true.
Hypothesis Hms : digits 3 ms = true.

Lemma make_dateStr_iso :
  make_dateStr (iso_string Y Mo D h mi s ms)
  = Y ++ "-" ++ Mo ++ "-" ++ D ++ h ++ mi ++ s.
Proof.
  unfold make_dateStr, iso_string.
  assert (LT : forall n x, digits n x = true -> lacks "T" x = true)
    by (intros n x; apply digits_lacks; reflexivity).
  assert (LC : forall n x, digits n x = true -> lacks ":" x = true)
    by (intros n x; apply digits_lacks; reflexivity).
  assert (LD : forall n x, digits n x = true -> lacks "." x = true)
    by (intros n x; apply digits_lacks; reflexivity).
  assert (LM : forall n x, digits n x = true -> lacks "-" x = true)
    by (intros n x; apply digits_lacks; reflexivity).
  (* T becomes a dash *)
  replace (Y ++ "-" ++ Mo ++ "-" ++ D ++ "T" ++ h ++ ":" ++ mi ++ ":" ++ s
           ++ "." ++ ms ++ "Z")
    with ((Y ++ "-" ++ Mo ++ "-" ++ D)
          ++ String "T" (h ++ ":" ++ mi ++ ":" ++ s ++ "." ++ ms ++ "Z"))
    by (rewrite !string_app_assoc; reflexivity).
  rewrite replace_first_app.
  2:{ unfold lacks. rewrite !all_chars_app. simpl.
      fold (lacks "T" Y). fold (lacks "T" Mo). fold (lacks "T" D).
      rewrite (LT _ _ HY), (LT _ _ HMo), (LT _ _ HD). reflexivity. }
  (* the colons go *)
  repeat (rewrite remove_all_app; simpl remove_all).
  rewrite !(remove_all_lacks ":" _ (LC _ _ HY)),
    !(remove_all_lacks ":" _ (LC _ _ HMo)),
    !(remove_all_lacks ":" _ (LC _ _ HD)),
    !(remove_all_lacks ":" _ (LC _ _ Hh)),
    !(remove_all_lacks ":" _ (LC _ _ Hmi)),
    !(remove_all_lacks ":" _ (LC _ _ Hs)),
    !(remove_all_lacks ":" _ (LC _ _ Hms)).
  (* the fraction goes *)
  match goal with
  | |- keep_early_dashes 0 (cut_fraction ?x) = _ =>
      replace x
        with ((Y ++ "-" ++ Mo ++ "-" ++ D ++ "-" ++ h ++ mi ++ s)
              ++ String "." (ms ++ "Z"))
        by (rewrite !string_app_assoc; simpl; rewrite !string_app_assoc;
            reflexivity)
  end.
  rewrite cut_fraction_app.
  2:{ unfold lacks. rewrite !all_chars_app. simpl.
      fold (lacks "." Y). fold (lacks "." Mo). fold (lacks "." D).
      fold (lacks "." h). fold (lacks "." mi). fold (lacks "." s).
      rewrite (LD _ _ HY), (LD _ _ HMo), (LD _ _ HD), (LD _ _ Hh),
        (LD _ _ Hmi), (LD _ _ Hs). reflexivity. }
  2:{ destruct ms; discriminate. }
  2:{ rewrite all_chars_app.
      rewrite (digit_is_not_newline _ (digits_all _ _ Hms)). reflexivity. }
  (* the dashes from offset 8 on go *)
  rewrite keep_early_dashes_app, (keep_early_dashes_lacks _ _ (LM _ _ HY)).
  simpl Nat.add. rewrite (digits_length _ _ HY).
  cbn [append keep_early_dashes Ascii.eqb Bool.eqb andb negb Nat.ltb Nat.leb].
  rewrite keep_early_dashes_app, (keep_early_dashes_lacks _ _ (LM _ _ HMo)).
  rewrite (digits_length _ _ HMo).
  cbn [append keep_early_dashes Ascii.eqb Bool.eqb andb negb Nat.ltb Nat.leb
       Nat.add].
  rewrite keep_early_dashes_app, (keep_early_dashes_lacks _ _ (LM _ _ HD)).
  rewrite (digits_length _ _ HD).
  cbn [append keep_early_dashes Ascii.eqb Bool.eqb andb negb Nat.ltb Nat.leb
       Nat.add].
  rewrite keep_early_dashes_lacks.
  2:{ unfold lacks. rewrite !all_chars_app.
      fold (lacks "-" h). fold (lacks "-" mi). fold (lacks "-" s).
      rewrite (LM _ _ Hh), (LM _ _ Hmi), (LM _ _ Hs). reflexivity. }
  reflexivity.
Qed.
End IsoTimestamp.

Lemma runMulti_names executor appName prompt options oenv envs w dir md w' :
  runMultiRunnerBenchmark_with executor appName prompt options oenv envs w
  = (Ok (dir, md), w') ->
  dateStr md = make_dateStr (iso_now oenv)
  /\ dir = path_join_all
             [dirname oenv; "benchmarks";
              prefix 15 (make_dateStr (iso_now oenv)); appName].
Proof.
  unfold runMultiRunnerBenchmark_with.
  unfold bind at 1. unfold of_res.
  destruct (parseRunnerFilter _ _) as [sel | e | ]; try discriminate.
  unfold bind at 1. unfold fs_call at 1. unfold bind at 1. unfold emit at 1.
  unfold modify at 1.
  destruct (mkdir_rejects oenv); [ discriminate | ].
  unfold ret at 1. unfold with_locals. unfold bind at 1.
  match goal with
  | |- context [run_loop ?x1 ?x2 ?x3 ?x4 ?x5 ?x6 ?x7 ?x8 ?x9 ?x10] =>
      destruct (run_loop x1 x2 x3 x4 x5 x6 x7 x8 x9 x10)
        as [[u | err | ] [w1 rs]]
  end; try discriminate.
  unfold bind at 1. unfold local at 1. simpl snd.
  unfold bind at 1. unfold lift at 1. unfold fs_call, bind, emit, modify.
  simpl. destruct (write_rejects oenv); simpl; [ discriminate | ].
  intros E. inversion E. subst. split; reflexivity.
Qed.

Lemma split_on_app c a b :
  lacks c a = true -> split_on c (a ++ String c b) = a :: split_on c b.
Proof.
  unfold lacks. induction a as [ | x a IH]; simpl.
  - intros _. rewrite Ascii.eqb_refl. reflexivity.
  - intros H. apply andb_prop in H. destruct H as [Hx Ha].
    apply negb_true_iff in Hx. rewrite Hx, (IH Ha). reflexivity.
Qed.

Lemma split_on_lacks c a : lacks c a = true -> split_on c a = [a].
Proof.
  unfold lacks. induction a as [ | x a IH]; simpl; [ reflexivity | ].
  intros H. apply andb_prop in H. destruct H as [Hx Ha].
  apply negb_true_iff in Hx. rewrite Hx, (IH Ha). reflexivity.
Qed.

(** X9.  For a clock reading [YYYY-MM-DDTHH:mm:ss.sssZ] the orchestrator's
    [dateStr] is [YYYY-MM-DDHHmmss]: the two dashes of the date stay. The
    benchmark directory is named by its first 15 characters, which end with
    the first digit of the seconds. *)
Theorem benchmark_directory_name
  appName prompt options oenv envs w dir md w' Y Mo D h mi s ms :
  digits 4 Y = true -> digits 2 Mo = true -> digits 2 D = true ->
  digits 2 h = true -> digits 2 mi = true -> digits 2 s = true ->
  digits 3 ms = true ->
  iso_now oenv = iso_string Y Mo D h mi s ms ->
  runMultiRunnerBenchmark appName prompt options oenv envs w
  = (Ok (dir, md), w') ->
  dateStr md = Y ++ "-" ++ Mo ++ "-" ++ D ++ h ++ mi ++ s
  /\ dir = path_join_all
             [dirname oenv; "benchmarks";
              Y ++ "-" ++ Mo ++ "-" ++ D ++ h ++ mi ++ prefix 1 s; appName].
Proof.
  intros HY HMo HD Hh Hmi Hs Hms Hiso E.
  destruct (runMulti_names _ _ _ _ _ _ _ _ _ _ E) as [E1 E2].
  rewrite Hiso, (make_dateStr_iso Y Mo D h mi s ms HY HMo HD Hh Hmi Hs Hms)
    in E1, E2.
  split; [ exact E1 | ]. rewrite E2.
  replace (prefix 15 (Y ++ "-" ++ Mo ++ "-" ++ D ++ h ++ mi ++ s))
    with (Y ++ "-" ++ Mo ++ "-" ++ D ++ h ++ mi ++ prefix 1 s);
    [ reflexivity | ].
  apply digits_length in HY, HMo, HD, Hh, Hmi, Hs.
  destruct Y as [ | y1 [ | y2 [ | y3 [ | y4 [ | ? ?]]]]]; try discriminate.
  destruct Mo as [ | m1 [ | m2 [ | ? ?]]]; try discriminate.
  destruct D as [ | d1 [ | d2 [ | ? ?]]]; try discriminate.
  destruct h as [ | h1 [ | h2 [ | ? ?]]]; try discriminate.
  destruct mi as [ | i1 [ | i2 [ | ? ?]]]; try discriminate.
  destruct s as [ | s1 [ | s2 [ | ? ?]]]; try discriminate.
  reflexivity.
Qed.

Lemma benchmark_directory_name_witness :
  dateStr scenario_md = "2025-10-15123456"
  /\ scenario_dir = "/abe/benchmarks/2025-10-1512345/todo-app".
Proof.
  apply (benchmark_directory_name "todo-app" "Build a todo app" both_runners
           sample_oenv two_successes w0 scenario_dir scenario_md
           (snd scenario) "2025" "10" "15" "12" "34" "56" "789");
    reflexivity.
Defined.

(** X10.  Given the orchestrator's [dateStr], [copyScreenshot] names the copy
    [<runner>_<YYYY>.png], with the year alone; it copies the source to
    that name in the benchmark directory, returns the name, and throws what
    the copy throws. *)
Theorem copyScreenshot_file_name
  src bdir runnerId rejects w Y Mo D h mi s ms :
  digits 4 Y = true -> digits 2 Mo = true -> digits 2 D = true ->
  digits 2 h = true -> digits 2 mi = true -> digits 2 s = true ->
  digits 3 ms = true ->
  copyScreenshot src bdir runnerId
    (make_dateStr (iso_string Y Mo D h mi s ms)) rejects w
  = (match rejects with
     | Some e => Throw e
     | None => Ok (runnerId ++ "_" ++ Y ++ ".png")
     end,
     mkWorld (now w)
       (trace w
        ++ [EvCopyFile src
              (path_join bdir (runnerId ++ "_" ++ Y ++ ".png"))])).
Proof.
  intros HY HMo HD Hh Hmi Hs Hms.
  rewrite (make_dateStr_iso Y Mo D h mi s ms HY HMo HD Hh Hmi Hs Hms).
  unfold copyScreenshot.
  change (Y ++ "-" ++ Mo ++ "-" ++ D ++ h ++ mi ++ s)
    with (Y ++ String "-" (Mo ++ "-" ++ D ++ h ++ mi ++ s)).
  rewrite split_on_app by (apply (digits_lacks 4); [ reflexivity | exact HY ]).
  unfold hd_string, bind, emit, modify, throw, ret. simpl.
  destruct rejects; reflexivity.
Qed.

Lemma copyScreenshot_file_name_witness :
  copyScreenshot "/abe/results/screenshots/sigrid-temp-1760531696789.png"
    "/abe/benchmarks/2025-10-1512345/todo-app" "sigrid"
    (make_dateStr "2025-10-15T12:34:56.789Z") None w0
  = (Ok "sigrid_2025.png",
     mkWorld (now w0)
       (trace w0
        ++ [EvCopyFile
              "/abe/results/screenshots/sigrid-temp-1760531696789.png"
              "/abe/benchmarks/2025-10-1512345/todo-app/sigrid_2025.png"])).
Proof.
  apply (copyScreenshot_file_name
           "/abe/results/screenshots/sigrid-temp-1760531696789.png"
           "/abe/benchmarks/2025-10-1512345/todo-app" "sigrid" None w0
           "2025" "10" "15" "12" "34" "56" "789");
    reflexivity.
Defined.

(** ** The runner filter, continued *)

Lemma split_on_join c pieces :
  pieces <> [] -> forallb (lacks c) pieces = true ->
  split_on c (join (String c "") pieces) = pieces.
Proof.
  induction pieces as [ | x rest IH]; [ congruence | ].
  intros _ H. simpl in H. apply andb_prop in H. destruct H as [Hx Hr].
  destruct rest as [ | y rest'].
  - simpl. apply split_on_lacks. exact Hx.
  - change (join (String c "") (x :: y :: rest'))
      with (x ++ String c (join (String c "") (y :: rest'))).
    rewrite (split_on_app c x _ Hx). f_equal.
    apply IH; [ discriminate | exact Hr ].
Qed.

Lemma In_includes x l : In x l -> includes x l = true.
Proof.
  intros H. unfold includes. apply existsb_exists. exists x.
  split; [ exact H | apply String.eqb_refl ].
Qed.

Lemma filter_none {A} (p : A -> bool) (l : list A) :
  Forall (fun x => p x = false) l -> List.filter p l = [].
Proof.
  induction 1 as [ | x l Hx Hl IH]; simpl; [ reflexivity | ].
  rewrite Hx. exact IH.
Qed.

(** X11.  A filter made by joining with commas a non-empty list of pieces that
    hold no comma, each naming a known runner once trimmed, is parsed into
    the trimmed pieces, in order and with repetitions kept. *)
Theorem parseRunnerFilter_reads_back_joined_names pieces all :
  pieces <> [] -> join "," pieces <> "" ->
  forallb (lacks ",") pieces = true ->
  Forall (fun p => In (trim p) all) pieces ->
  parseRunnerFilter (join "," pieces) all = Ok (map trim pieces).
Proof.
  intros Hne Hj Hc Hin. unfold parseRunnerFilter.
  destruct (join "," pieces) as [ | c0 j] eqn:J; [ congruence | ].
  cbn [truthy negb]. cbv iota. rewrite <- J.
  rewrite (split_on_join "," pieces Hne Hc).
  rewrite filter_none; [ reflexivity | ].
  apply Forall_forall. intros r Hr. apply in_map_iff in Hr.
  destruct Hr as [p [Ep Hp]]. subst r.
  rewrite Forall_forall in Hin. rewrite (In_includes _ _ (Hin p Hp)).
  reflexivity.
Qed.

Lemma parseRunnerFilter_reads_back_joined_names_witness :
  parseRunnerFilter " claude ,sigrid,claude" getAvailableRunners
  = Ok ["claude"; "sigrid"; "claude"].
Proof.
  apply (parseRunnerFilter_reads_back_joined_names
           [" claude "; "sigrid"; "claude"] getAvailableRunners).
  - discriminate.
  - discriminate.
  - reflexivity.
  - repeat (apply Forall_cons; [ vm_compute; auto | ]). apply Forall_nil.
Defined.

Lemma split_on_not_nil c a : split_on c a <> [].
Proof.
  destruct a as [ | x a]; simpl; [ discriminate | ].
  destruct (Ascii.eqb x c); [ discriminate | ].
  destruct (split_on c a); discriminate.
Qed.

Lemma split_on_snoc c a :
  split_on c (a ++ String c "") = (split_on c a ++ [""])%list.
Proof.
  induction a as [ | x a IH]; simpl.
  - rewrite Ascii.eqb_refl. reflexivity.
  - destruct (Ascii.eqb x c); [ rewrite IH; reflexivity | ].
    rewrite IH. pose proof (split_on_not_nil c a) as N.
    destruct (split_on c a) as [ | p r]; [ congruence | reflexivity ].
Qed.

(** A piece that is no registered name makes the filter invalid. *)
Lemma parseRunnerFilter_invalid_piece flt all p :
  truthy flt = true -> In p (split_on "," flt) ->
  includes (trim p) all = false ->
  exists invalid,
    In (trim p) invalid
    /\ parseRunnerFilter flt all
       = Throw (Error ("Invalid runner(s): " ++ join ", " invalid ++ ". "
                       ++ "Available runners: " ++ join ", " all)).
Proof.
  intros Ht Hp Hi. unfold parseRunnerFilter. rewrite Ht. cbn [negb]. cbv iota.
  set (invalid := List.filter (fun r => negb (includes r all))
                    (map trim (split_on "," flt))).
  assert (Hin : In (trim p) invalid).
  { apply filter_In. split; [ apply in_map; exact Hp | ].
    rewrite Hi. reflexivity. }
  exists invalid. split; [ exact Hin | ].
  destruct invalid as [ | bad rest]; [ contradiction | ].
  reflexivity.
Qed.

Lemma not_In_includes x l : ~ In x l -> includes x l = false.
Proof.
  intros H. destruct (includes x l) eqn:E; [ | reflexivity ].
  exfalso. apply H. apply includes_In. exact E.
Qed.

(** X12.  When the empty string is no runner, a filter that ends or starts with
    a comma is rejected, whatever else it holds: the empty name is among the
    invalid names of the error message. *)
Theorem parseRunnerFilter_rejects_an_empty_name flt all :
  ~ In "" all ->
  (exists invalid,
      In "" invalid
      /\ parseRunnerFilter (flt ++ ",") all
         = Throw (Error ("Invalid runner(s): " ++ join ", " invalid ++ ". "
                         ++ "Available runners: " ++ join ", " all)))
  /\ (exists invalid,
         In "" invalid
         /\ parseRunnerFilter ("," ++ flt) all
            = Throw (Error ("Invalid runner(s): " ++ join ", " invalid
                            ++ ". " ++ "Available runners: "
                            ++ join ", " all))).
Proof.
  intros Hno. apply not_In_includes in Hno. split.
  - apply (parseRunnerFilter_invalid_piece (flt ++ ",") all "").
    + destruct flt; reflexivity.
    + change (flt ++ ",") with (flt ++ String "," ""). rewrite split_on_snoc.
      apply in_or_app. right. left. reflexivity.
    + exact Hno.
  - apply (parseRunnerFilter_invalid_piece ("," ++ flt) all "").
    + reflexivity.
    + simpl. left. reflexivity.
    + exact Hno.
Qed.

Lemma parseRunnerFilter_rejects_an_empty_name_witness :
  (exists invalid,
      In "" invalid
      /\ parseRunnerFilter ("sigrid" ++ ",") getAvailableRunners
         = Throw (Error ("Invalid runner(s): " ++ join ", " invalid ++ ". "
                         ++ "Available runners: "
                         ++ join ", " getAvailableRunners)))
  /\ (exists invalid,
         In "" invalid
         /\ parseRunnerFilter ("," ++ "sigrid") getAvailableRunners
            = Throw (Error ("Invalid runner(s): " ++ join ", " invalid
                            ++ ". " ++ "Available runners: "
                            ++ join ", " getAvailableRunners))).
Proof.
  apply (parseRunnerFilter_rejects_an_empty_name "sigrid"
           getAvailableRunners).
  vm_compute. intros [H | [H | []]]; discriminate H.
Defined.

(** ** Prompts *)

Lemma insert_by_perm {A} (cmp : A -> A -> Z) x l :
  Permutation (insert_by cmp x l) (x :: l).
Proof.
  induction l as [ | y l IH]; simpl; [ apply Permutation_refl | ].
  destruct (cmp x y <=? 0); [ apply Permutation_refl | ].
  eapply perm_trans; [ apply perm_skip; exact IH | apply perm_swap ].
Qed.

Lemma sort_by_perm {A} (cmp : A -> A -> Z) l : Permutation (sort_by cmp l) l.
Proof.
  induction l as [ | x l IH]; simpl; [ apply perm_nil | ].
  eapply perm_trans; [ apply insert_by_perm | apply perm_skip; exact IH ].
Qed.

Lemma loadPromptFromFile_run p fs w :
  loadPromptFromFile p fs w
  = (match readFile fs p with
     | inl content => Ok (trim content)
     | inr e => Throw e
     end, w).
Proof.
  unfold loadPromptFromFile, bind, of_sum, ret, throw.
  destruct (readFile fs p); reflexivity.
Qed.

Lemma load_each_ok dirname fs files : forall w acc,
  forallb (fun f => is_inl (readFile fs
                              (path_join (path_join dirname "prompts") f)))
    files = true ->
  load_each (path_join dirname "prompts") fs files (w, acc)
  = (Ok tt, (w, (acc ++ map (prompt_of_file dirname fs) files)%list)).
Proof.
  induction files as [ | f files IH]; intros w acc H; simpl.
  - rewrite app_nil_r. reflexivity.
  - simpl in H. apply andb_prop in H. destruct H as [Hf Hr].
    pose proof (loadPromptFromFile_run
                  (path_join (path_join dirname "prompts") f) fs w) as E.
    unfold prompt_of_file at 1.
    destruct (readFile fs (path_join (path_join dirname "prompts") f))
      as [content | e]; [ | discriminate ].
    rewrite (bind_ok _ _ _ _ _ (lift_run _ _ acc _ _ E)).
    unfold bind at 1. unfold push_to at 1. cbn [fst snd].
    rewrite (IH w _ Hr). rewrite <- app_assoc. reflexivity.
Qed.

Lemma load_each_fails dirname fs files : forall w acc,
  forallb (fun f => is_inl (readFile fs
                              (path_join (path_join dirname "prompts") f)))
    files = false ->
  exists e acc',
    load_each (path_join dirname "prompts") fs files (w, acc)
    = (Throw e, (w, acc')).
Proof.
  induction files as [ | f files IH]; intros w acc H; simpl.
  - discriminate.
  - simpl in H.
    pose proof (loadPromptFromFile_run
                  (path_join (path_join dirname "prompts") f) fs w) as E.
    destruct (readFile fs (path_join (path_join dirname "prompts") f))
      as [content | e].
    + rewrite (bind_ok _ _ _ _ _ (lift_run _ _ acc _ _ E)).
      unfold bind at 1. unfold push_to at 1. cbn [fst snd].
      apply IH. exact H.
    + rewrite (bind_throw _ _ _ _ _ (lift_run _ _ acc _ _ E)).
      eexists. eexists. reflexivity.
Qed.

(** X13.  [loadAllPrompts] never throws. When the prompts directory can be
    listed and every [.txt] file in it can be read, it returns one entry per
    such file, a rearrangement of the listing, and logs nothing; otherwise
    it returns no entry at all and logs one warning. *)
Theorem loadAllPrompts_all_or_nothing dirname fs w :
  exists prompts w',
    loadAllPrompts dirname fs w = (Ok prompts, w')
    /\ (if prompts_readable dirname fs then
          w' = w
          /\ Permutation prompts
               (map (prompt_of_file dirname fs) (txt_files dirname fs))
        else
          prompts = []
          /\ w' = mkWorld (now w)
                    (trace w
                     ++ [EvWarn ("Warning: Could not load prompts from "
                                 ++ path_join dirname "prompts")])).
Proof.
  unfold loadAllPrompts, prompts_readable, txt_files.
  destruct (readdir fs (path_join dirname "prompts")) as [files | e] eqn:R.
  - cbn [is_inl andb].
    destruct (forallb _ (List.filter (ends_with ".txt") files)) eqn:F.
    + unfold try_catch, bind at 1. unfold of_sum, ret at 1.
      unfold with_locals. unfold bind at 1.
      rewrite (load_each_ok dirname fs _ w [] F).
      unfold bind, local, ret. simpl.
      eexists. eexists. split; [ reflexivity | ].
      split; [ reflexivity | apply sort_by_perm ].
    + destruct (load_each_fails dirname fs _ w [] F) as [e [acc' E]].
      unfold try_catch, bind at 1. unfold of_sum, ret at 1.
      unfold with_locals. unfold bind at 1. rewrite E.
      unfold bind, emit, modify, ret. simpl.
      eexists. eexists. split; [ reflexivity | ]. split; reflexivity.
  - cbn [is_inl andb].
    unfold try_catch, bind, of_sum, throw, emit, modify, ret. simpl.
    eexists. eexists. split; [ reflexivity | ]. split; reflexivity.
Qed.

Lemma resolvePrompt_plain_run input dirname fs w :
  (contains "/" input || contains backslash input
   || ends_with ".txt" input)%bool = false ->
  resolvePrompt input dirname fs w
  = (Ok (if access fs (path_join (path_join dirname "prompts")
                         (input ++ ".txt"))
         then match readFile fs (path_join (path_join dirname "prompts")
                                   (input ++ ".txt")) with
              | inl content => TestPrompt.mk input (trim content)
              | inr _ => TestPrompt.mk "custom" input
              end
         else TestPrompt.mk "custom" input), w).
Proof.
  intros H. unfold resolvePrompt. rewrite H.
  unfold try_catch, bind at 1.
  destruct (access fs _).
  - unfold ret at 1. unfold bind at 1. rewrite loadPromptFromFile_run.
    destruct (readFile fs _); reflexivity.
  - reflexivity.
Qed.

(** X14.  For an input without slash, backslash or [.txt] ending,
    [resolvePrompt] never throws and changes nothing: it returns the
    built-in prompt of that name when its file is there and readable, and
    the input itself as a prompt with id [custom] otherwise. *)
Theorem resolvePrompt_of_a_plain_name input dirname fs w :
  contains "/" input = false -> contains backslash input = false ->
  ends_with ".txt" input = false ->
  exists r,
    resolvePrompt input dirname fs w = (Ok r, w)
    /\ (r = TestPrompt.mk "custom" input
        \/ exists content,
             readFile fs (path_join (path_join dirname "prompts")
                            (input ++ ".txt")) = inl content
             /\ r = TestPrompt.mk input (trim content)).
Proof.
  intros H1 H2 H3. rewrite resolvePrompt_plain_run
    by (rewrite H1, H2, H3; reflexivity).
  eexists. split; [ reflexivity | ].
  destruct (access fs _); [ | left; reflexivity ].
  destruct (readFile fs _) as [content | e]; [ | left; reflexivity ].
  right. exists content. split; reflexivity.
Qed.

Lemma resolvePrompt_of_a_plain_name_witness :
  exists r,
    resolvePrompt "Build a calculator" "/abe" sample_fs w0 = (Ok r, w0)
    /\ (r = TestPrompt.mk "custom" "Build a calculator"
        \/ exists content,
             readFile sample_fs
               (path_join (path_join "/abe" "prompts")
                  ("Build a calculator" ++ ".txt")) = inl content
             /\ r = TestPrompt.mk "Build a calculator" (trim content)).
Proof.
  apply (resolvePrompt_of_a_plain_name "Build a calculator" "/abe" sample_fs
           w0); reflexivity.
Defined.

Lemma list_ascii_app a b :
  list_ascii_of_string (a ++ b)
  = (list_ascii_of_string a ++ list_ascii_of_string b)%list.
Proof. induction a as [ | c a IH]; simpl; [ | rewrite IH ]; reflexivity. Qed.

Lemma lacks_not_slash s :
  lacks "/" s = true ->
  Forall (fun c => is_slash c = false) (list_ascii_of_string s).
Proof.
  unfold lacks. induction s as [ | c s IH]; simpl; [ constructor | ].
  intros H. apply andb_prop in H. destruct H as [Hc Hs].
  constructor; [ | apply IH; exact Hs ].
  apply negb_true_iff in Hc. unfold is_slash, code.
  destruct (Nat.eqb (nat_of_ascii c) 47) eqn:E; [ | reflexivity ].
  apply Nat.eqb_eq in E.
  assert (c = "/"%char).
  { rewrite <- (ascii_nat_embedding c), E. reflexivity. }
  subst. discriminate.
Qed.

Lemma take_while_all p l rest :
  Forall (fun c => p c = true) l ->
  match rest with [] => True | x :: _ => p x = false end ->
  take_while p (l ++ rest) = l.
Proof.
  intros Hl Hr. induction Hl as [ | c l Hc Hl IH]; simpl.
  - destruct rest as [ | x rest]; simpl; [ reflexivity | ].
    rewrite Hr. reflexivity.
  - rewrite Hc, IH. reflexivity.
Qed.

Lemma basename_join a b :
  b <> "" -> lacks "/" b = true -> basename (a ++ "/" ++ b) = b.
Proof.
  intros Hb Hl. unfold basename.
  rewrite list_ascii_app. simpl list_ascii_of_string.
  rewrite rev_app_distr. simpl rev. rewrite <- app_assoc. simpl app.
  pose proof (lacks_not_slash b Hl) as F.
  apply Forall_rev in F.
  assert (N : rev (list_ascii_of_string b) <> []).
  { destruct b; [ congruence | ]. simpl. apply app_eq_nil_inv. }
  set (rb := rev (list_ascii_of_string b)) in *.
  assert (D : drop_while is_slash (rb ++ "/"%char :: rev (list_ascii_of_string a))
              = (rb ++ "/"%char :: rev (list_ascii_of_string a))%list).
  { destruct rb as [ | x rb']; [ congruence | ].
    inversion F. subst. simpl. rewrite H1. reflexivity. }
  rewrite D. rewrite take_while_all.
  - unfold rb. rewrite rev_involutive.
    apply string_of_list_ascii_of_string.
  - eapply Forall_impl; [ | exact F ]. intros c Hc. simpl in Hc.
    rewrite Hc. reflexivity.
  - reflexivity.
Qed.

Lemma string_eqb_longer a b :
  (String.length a < String.length b)%nat -> String.eqb a b = false.
Proof.
  intros H. destruct (String.eqb a b) eqn:E; [ | reflexivity ].
  apply String.eqb_eq in E. subst. lia.
Qed.

Lemma strip_suffix_app ext a : strip_suffix ext (a ++ ext) = Some a.
Proof.
  induction a as [ | c a IH].
  - simpl. destruct ext; simpl.
    + reflexivity.
    + rewrite Ascii.eqb_refl, String.eqb_refl. reflexivity.
  - cbn [append strip_suffix].
    rewrite string_eqb_longer
      by (simpl; rewrite string_app_length; lia).
    rewrite IH. reflexivity.
Qed.

Lemma contains_char_app c a b : contains (String c "") (a ++ String c b) = true.
Proof.
  unfold contains. induction a as [ | x a IH]; simpl.
  - destruct (ascii_dec c c); [ | congruence ].
    destruct b; reflexivity.
  - destruct (ascii_dec c x).
    + destruct (a ++ String c b); reflexivity.
    + destruct (index 0 (String c "") (a ++ String c b)); [ reflexivity | ].
      discriminate.
Qed.

Lemma contains_char_lacks c s :
  contains (String c "") s = false -> lacks c s = true.
Proof.
  unfold contains, lacks. induction s as [ | x s IH]; simpl;
    [ reflexivity | ].
  destruct (ascii_dec c x) as [E | N].
  - subst. destruct s; discriminate.
  - intros H.
    destruct (Ascii.eqb x c) eqn:E;
      [ apply Ascii.eqb_eq in E; congruence | ].
    simpl. apply IH.
    destruct (index 0 (String c "") s); [ discriminate | reflexivity ].
Qed.

(** ** Joining a path with a simple segment *)

Lemma simple_segment_inv b :
  simple_segment b = true ->
  b <> "" /\ lacks "/" b = true /\ String.eqb b "." = false
  /\ String.eqb b ".." = false.
Proof.
  unfold simple_segment. intros H.
  apply andb_prop in H. destruct H as [H H4].
  apply andb_prop in H. destruct H as [H H3].
  apply andb_prop in H. destruct H as [H1 H2].
  apply negb_true_iff in H3, H4.
  repeat split; try assumption.
  intros E. subst. discriminate.
Qed.

Lemma split_on_cat c a b :
  split_on c (a ++ String c b) = (split_on c a ++ split_on c b)%list.
Proof.
  induction a as [ | x a IH]; simpl.
  - rewrite Ascii.eqb_refl. reflexivity.
  - destruct (Ascii.eqb x c); [ rewrite IH; reflexivity | ].
    rewrite IH.
    destruct (split_on c a) as [ | piece rest] eqn:E;
      [ exfalso; exact (split_on_not_nil c a E) | reflexivity ].
Qed.

Lemma normalize_segments_snoc above b segments : forall kept,
  simple_segment b = true ->
  exists kept',
    normalize_segments above (segments ++ [b]) kept = rev (b :: kept').
Proof.
  induction segments as [ | x segments IH]; intros kept Hb.
  - destruct (simple_segment_inv b Hb) as [Hne [_ [Hd Hdd]]].
    exists kept. cbn [app normalize_segments].
    assert (He : String.eqb b "" = false).
    { destruct b; [ congruence | reflexivity ]. }
    rewrite He, Hd, Hdd. reflexivity.
  - cbn [app normalize_segments].
    destruct (String.eqb x "" || String.eqb x ".")%bool; [ apply IH, Hb | ].
    destruct (String.eqb x ".."); apply IH, Hb.
Qed.

Lemma join_snoc sep b l :
  l <> [] -> join sep (l ++ [b]) = join sep l ++ sep ++ b.
Proof.
  induction l as [ | x l IH]; [ congruence | intros _ ].
  destruct l as [ | y l]; [ reflexivity | ].
  change (join sep ((x :: y :: l) ++ [b]))
    with (x ++ sep ++ join sep ((y :: l) ++ [b])).
  rewrite IH by discriminate.
  change (join sep (x :: y :: l)) with (x ++ sep ++ join sep (y :: l)).
  rewrite !string_app_assoc. reflexivity.
Qed.

Lemma last_is_slash_app a b :
  b <> "" -> last_is_slash (a ++ b) = last_is_slash b.
Proof.
  intros Hb. unfold last_is_slash.
  rewrite list_ascii_app, rev_app_distr.
  destruct (rev (list_ascii_of_string b)) as [ | c l] eqn:E; [ | reflexivity ].
  exfalso. apply Hb.
  apply (f_equal (@rev ascii)) in E. rewrite rev_involutive in E.
  simpl in E. destruct b; [ reflexivity | discriminate ].
Qed.

Lemma last_is_slash_lacks b : lacks "/" b = true -> last_is_slash b = false.
Proof.
  intros Hl. unfold last_is_slash.
  pose proof (lacks_not_slash b Hl) as F. apply Forall_rev in F.
  destruct (rev (list_ascii_of_string b)) as [ | c l]; [ reflexivity | ].
  inversion F. assumption.
Qed.

Lemma head_not_slash_lacks c b :
  lacks "/" (String c b) = true -> is_slash c = false.
Proof.
  intros Hl. pose proof (lacks_not_slash _ Hl) as F.
  inversion F. assumption.
Qed.

(** The join of any path with a simple segment ends with that segment, right
    after a slash or as the whole result. *)
Lemma path_join_simple a b :
  simple_segment b = true ->
  exists pre,
    path_join a b = pre ++ b /\ (pre = "" \/ exists x, pre = x ++ "/").
Proof.
  intros Hb. destruct (simple_segment_inv b Hb) as [Hne [Hl [Hd Hdd]]].
  assert (Tb : truthy b = true) by (destruct b; [ congruence | reflexivity ]).
  unfold path_join, path_join_all. cbn [List.filter]. rewrite Tb.
  destruct a as [ | c a]; cbn [truthy].
  - (* the first argument is empty *)
    cbn [join]. unfold path_normalize. rewrite Tb.
    rewrite (split_on_lacks _ _ Hl).
    cbn [normalize_segments].
    assert (He : String.eqb b "" = false)
      by (destruct b; [ congruence | reflexivity ]).
    rewrite He, Hd, Hdd. cbn [orb rev app join]. rewrite Tb.
    rewrite (last_is_slash_lacks b Hl).
    destruct b as [ | x b]; [ congruence | ].
    rewrite (head_not_slash_lacks x b Hl).
    exists "". split; [ rewrite string_app_nil_r; reflexivity | left; reflexivity ].
  - cbn [join]. unfold path_normalize.
    change (truthy (String c a ++ "/" ++ b)) with true. cbv iota.
    change (String c a ++ "/" ++ b) with (String c (a ++ String "/" b)).
    cbn [split_on].
    replace (last_is_slash (String c (a ++ String "/" b))) with false.
    2:{ change (String c (a ++ String "/" b)) with (String c a ++ "/" ++ b).
        rewrite <- string_app_assoc.
        rewrite (last_is_slash_app _ b Hne).
        symmetry. apply last_is_slash_lacks, Hl. }
    match goal with
    | |- context [normalize_segments ?f ?segs []] =>
        assert (S : exists kept', normalize_segments f segs [] = rev (b :: kept'))
    end.
    { destruct (Ascii.eqb c "/").
      - rewrite split_on_cat, (split_on_lacks _ b Hl).
        change ("" :: (split_on "/" a ++ [b])%list)
          with (("" :: split_on "/" a) ++ [b])%list.
        apply normalize_segments_snoc, Hb.
      - rewrite split_on_cat, (split_on_lacks _ b Hl).
        destruct (split_on "/" a) as [ | piece rest] eqn:E;
          [ exfalso; exact (split_on_not_nil _ a E) | ].
        cbn [app].
        change (String c piece :: (rest ++ [b])%list)
          with ((String c piece :: rest) ++ [b])%list.
        apply normalize_segments_snoc, Hb. }
    destruct S as [kept' S]. rewrite S. cbn [rev].
    destruct (rev kept') as [ | k ks] eqn:R.
    + cbn [app join]. rewrite Tb.
      exists (if is_slash c then "/" else "").
      split; [ rewrite string_app_nil_r; reflexivity | ].
      destruct (is_slash c); [ right; exists ""; reflexivity | left; reflexivity ].
    + rewrite join_snoc by discriminate.
      assert (T : truthy (join "/" (k :: ks) ++ "/" ++ b) = true).
      { destruct (join "/" (k :: ks)); reflexivity. }
      rewrite T.
      exists ((if is_slash c then "/" else "") ++ join "/" (k :: ks) ++ "/").
      split.
      * rewrite string_app_nil_r, !string_app_assoc. reflexivity.
      * right. exists ((if is_slash c then "/" else "") ++ join "/" (k :: ks)).
        rewrite !string_app_assoc. reflexivity.
Qed.

Lemma basename_simple b :
  b <> "" -> lacks "/" b = true -> basename b = b.
Proof.
  intros Hb Hl. unfold basename.
  pose proof (lacks_not_slash b Hl) as F.
  apply Forall_rev in F.
  set (rb := rev (list_ascii_of_string b)) in *.
  assert (N : rb <> []).
  { unfold rb. destruct b; [ congruence | ]. simpl. apply app_eq_nil_inv. }
  assert (D : drop_while is_slash rb = rb).
  { destruct rb as [ | x rb']; [ congruence | ].
    inversion F. subst. simpl. rewrite H1. reflexivity. }
  rewrite D. rewrite <- (app_nil_r rb) at 1. rewrite take_while_all.
  - unfold rb. rewrite rev_involutive.
    apply string_of_list_ascii_of_string.
  - eapply Forall_impl; [ | exact F ]. intros c Hc. simpl in Hc.
    rewrite Hc. reflexivity.
  - exact I.
Qed.

Lemma basename_path_join a b :
  simple_segment b = true -> basename (path_join a b) = b.
Proof.
  intros Hb. destruct (simple_segment_inv b Hb) as [Hne [Hl _]].
  destruct (path_join_simple a b Hb) as [pre [E [P | [x P]]]];
    rewrite E; subst pre.
  - apply basename_simple; assumption.
  - rewrite string_app_assoc. apply basename_join; assumption.
Qed.

Lemma ends_with_app suffix a : ends_with suffix (a ++ suffix) = true.
Proof.
  induction a as [ | c a IH]; cbn [append].
  - destruct suffix; simpl; [ reflexivity | ].
    rewrite Ascii.eqb_refl, String.eqb_refl. reflexivity.
  - cbn [ends_with]. rewrite IH.
    destruct (String.eqb suffix (String c (a ++ suffix))); reflexivity.
Qed.

Lemma simple_segment_with_extension id ext :
  lacks "/" id = true -> lacks "/" ext = true ->
  (2 < String.length ext)%nat -> simple_segment (id ++ ext) = true.
Proof.
  intros Hi He Hn. unfold simple_segment.
  assert (L : (2 < String.length (id ++ ext))%nat)
    by (rewrite string_app_length; lia).
  assert (T : truthy (id ++ ext) = true).
  { destruct (id ++ ext); [ simpl in L; lia | reflexivity ]. }
  rewrite T. unfold lacks in *. rewrite all_chars_app, Hi, He.
  rewrite !(String.eqb_sym (id ++ ext)).
  rewrite !string_eqb_longer by (simpl; lia).
  reflexivity.
Qed.

(** X15.  A built-in prompt is resolved to the same entry by its id and by the
    path of its file. *)
Theorem resolvePrompt_of_a_built_in_path id dirname fs w content :
  id <> "" -> contains "/" id = false -> contains backslash id = false ->
  ends_with ".txt" id = false ->
  access fs (path_join (path_join dirname "prompts") (id ++ ".txt")) = true ->
  readFile fs (path_join (path_join dirname "prompts") (id ++ ".txt"))
  = inl content ->
  resolvePrompt id dirname fs w
  = (Ok (TestPrompt.mk id (trim content)), w)
  /\ resolvePrompt (path_join (path_join dirname "prompts") (id ++ ".txt"))
       dirname fs w
     = (Ok (TestPrompt.mk id (trim content)), w).
Proof.
  intros Hne H1 H2 H3 Ha Hr. split.
  - rewrite resolvePrompt_plain_run by (rewrite H1, H2, H3; reflexivity).
    rewrite Ha, Hr. reflexivity.
  - unfold resolvePrompt.
    assert (S : simple_segment (id ++ ".txt") = true).
    { apply simple_segment_with_extension;
        [ apply (contains_char_lacks _ _ H1) | reflexivity | simpl; lia ]. }
    destruct (path_join_simple (path_join dirname "prompts") _ S)
      as [pre [E _]].
    assert (C : ends_with ".txt" (path_join (path_join dirname "prompts")
                                    (id ++ ".txt")) = true).
    { rewrite E, <- string_app_assoc. apply ends_with_app. }
    rewrite C, !orb_true_r. cbv iota.
    unfold try_catch, bind. rewrite loadPromptFromFile_run, Hr.
    unfold ret. f_equal. f_equal. f_equal.
    unfold basename_ext.
    rewrite string_eqb_longer.
    2:{ rewrite E, !string_app_length.
        destruct id; [ congruence | simpl; lia ]. }
    rewrite (basename_path_join _ _ S), strip_suffix_app.
    destruct id; [ congruence | reflexivity ].
Qed.

Lemma resolvePrompt_of_a_built_in_path_witness :
  resolvePrompt "todo-app" "/abe" sample_fs w0
  = (Ok (TestPrompt.mk "todo-app" (trim "  Build a todo app  ")), w0)
  /\ resolvePrompt
       (path_join (path_join "/abe" "prompts") ("todo-app" ++ ".txt"))
       "/abe" sample_fs w0
     = (Ok (TestPrompt.mk "todo-app" (trim "  Build a todo app  ")), w0).
Proof.
  apply (resolvePrompt_of_a_built_in_path "todo-app" "/abe" sample_fs w0
           "  Build a todo app  "); try reflexivity.
  discriminate.
Defined.

(** ** The legacy benchmark *)

Lemma runApp_ok_shape cwd evs w r w' :
  runApp cwd evs w = (Ok r, w') ->
  RunResult.success r = true
  /\ RunResult.process r = Some (mkChild cwd false).
Proof.
  destruct (serve_outcome_exists cwd evs) as [t [s E]].
  rewrite (runApp_run cwd evs w t s E).
  destruct s as [r0 | e]; intros H; inversion H; subst; clear H.
  destruct (serve_resolved_shape cwd evs t r E) as [Hs [Hp _]].
  split; assumption.
Qed.

Lemma legacy_run_step id dir env w rs procs :
  exists rr more w',
    legacy_run id dir env (w, (rs, procs))
    = (Ok rr, (w', (rs, (procs ++ more)%list)))
    /\ map fst more = (if RunResult.success rr then [id] else [])
    /\ Forall unkilled more.
Proof.
  unfold legacy_run.
  destruct (runApp dir (serve_env env) w) as [[r | e | ] w1] eqn:Er.
  - destruct (runApp_ok_shape _ _ _ _ _ Er) as [Hs Hp].
    exists r, [(id, mkChild dir false)], w1. rewrite Hs.
    split; [ | split; [ reflexivity | repeat constructor ] ].
    apply try_catch_ok.
    rewrite (bind_ok _ _ _ _ _ (lift_run _ _ _ _ _ Er)). rewrite Hp.
    reflexivity.
  - exists (failed_run (message e)), [], w1. rewrite app_nil_r.
    split; [ | split; [ reflexivity | constructor ] ].
    rewrite (try_catch_throw _ _ _ e (w1, (rs, procs))); [ reflexivity | ].
    apply bind_throw. apply lift_run. exact Er.
  - exfalso. apply (runApp_settles dir (serve_env env) w). rewrite Er.
    reflexivity.
Qed.

Lemma legacy_analyze_step rr id rdir env w (l : LegacyLocals) :
  exists ar w', legacy_analyze rr id rdir env (w, l) = (Ok ar, (w', l)).
Proof.
  unfold legacy_analyze. destruct (RunResult.success rr).
  - destruct (analyzeApp (non_null (RunResult.serverUrl rr)) id rdir
                (analyze_env env) w) as [[ar | e | ] w1] eqn:Ea.
    + exists ar, w1. apply try_catch_ok. apply lift_run. exact Ea.
    + exists (failed_analysis (message e)), w1.
      rewrite (try_catch_throw _ _ _ e (w1, l)); [ reflexivity | ].
      apply lift_run. exact Ea.
    + exfalso.
      apply (analyzeApp_settles (non_null (RunResult.serverUrl rr)) id rdir
               (analyze_env env) w).
      rewrite Ea. reflexivity.
  - eexists. eexists. reflexivity.
Qed.

Lemma legacy_stages_step b id rdir env w rs procs :
  exists r more w',
    legacy_stages b id rdir env (w, (rs, procs))
    = (Ok tt, (w', ((rs ++ [r])%list, (procs ++ more)%list)))
    /\ FullBenchmarkResult.id r = id
    /\ FullBenchmarkResult.success r = all_stages_ok r
    /\ map fst more = (if server_started r then [id] else [])
    /\ Forall unkilled more
    /\ FullBenchmarkResult.error r = None.
Proof.
  unfold legacy_stages.
  destruct (BuildResult.success (BenchmarkResult.build b)) eqn:Hb;
    cbn [negb]; cbv iota.
  - destruct (compileApp_total (BenchmarkResult.workspaceDir b)
                (compile_env env) w) as [cr [w2 Ec]].
    rewrite (bind_ok _ _ _ _ _ (lift_run _ _ _ _ _ Ec)).
    destruct (CompileResult.success cr) eqn:Hc; cbn [negb]; cbv iota.
    + destruct (legacy_run_step id (BenchmarkResult.workspaceDir b) env w2 rs
                  procs) as [rr [more [w3 [Er [Hm Hk]]]]].
      rewrite (bind_ok _ _ _ _ _ Er).
      destruct (legacy_analyze_step rr id rdir env w3
                  (rs, (procs ++ more)%list)) as [ar [w4 Ea]].
      rewrite (bind_ok _ _ _ _ _ Ea).
      eexists. exists more, w4. split; [ reflexivity | ].
      unfold all_stages_ok, server_started, spread. simpl.
      rewrite Hb, Hc. simpl.
      repeat split; assumption.
    + eexists. exists [], w2. rewrite app_nil_r. split; [ reflexivity | ].
      unfold all_stages_ok, server_started, spread. simpl. rewrite Hb, Hc.
      repeat split. constructor.
  - eexists. exists [], w. rewrite app_nil_r. split; [ reflexivity | ].
    unfold all_stages_ok, server_started, spread. simpl. rewrite Hb.
    repeat split. constructor.
Qed.

Lemma legacy_catch_step model lenv tp e w rs procs :
  exists r w',
    legacy_catch model lenv tp e (w, (rs, procs))
    = (Ok tt, (w', ((rs ++ [r])%list, procs)))
    /\ FullBenchmarkResult.id r = TestPrompt.id tp
    /\ FullBenchmarkResult.success r = false
    /\ all_stages_ok r = false
    /\ server_started r = false
    /\ FullBenchmarkResult.error r = Some (message e)
    /\ FullBenchmarkResult.workspaceDir r = "".
Proof.
  eexists. eexists. split; [ reflexivity | ]. repeat split.
Qed.

Lemma legacy_iteration_step cfgo model rdir lenv i tp w rs procs :
  exists r more w',
    legacy_iteration cfgo model rdir lenv i tp (w, (rs, procs))
    = (Ok tt, (w', ((rs ++ [r])%list, (procs ++ more)%list)))
    /\ FullBenchmarkResult.id r = TestPrompt.id tp
    /\ FullBenchmarkResult.success r = all_stages_ok r
    /\ map fst more = (if server_started r then [TestPrompt.id tp] else [])
    /\ Forall unkilled more
    /\ (cfgo = None ->
        FullBenchmarkResult.error r = Some not_a_function
        /\ FullBenchmarkResult.success r = false).
Proof.
  unfold legacy_iteration.
  assert (G :
    (exists b w1,
        cfgo <> None
        /\ legacy_generate cfgo model (TestPrompt.prompt tp)
             (lg_prompt_env lenv i) (w, (rs, procs))
           = (Ok b, (w1, (rs, procs))))
    \/ (exists e w1,
           (cfgo = None -> message e = not_a_function)
           /\ legacy_generate cfgo model (TestPrompt.prompt tp)
                (lg_prompt_env lenv i) (w, (rs, procs))
              = (Throw e, (w1, (rs, procs))))).
  { unfold legacy_generate.
    destruct cfgo as [cfg | ]; [ destruct model as [m | ] | ].
    - destruct (call_runBenchmark cfg (TestPrompt.prompt tp) m
                  (generate_env (lg_prompt_env lenv i)) w)
        as [[b | e | ] w1] eqn:Eg.
      + left. exists b, w1. split; [ discriminate | ].
        apply lift_run. exact Eg.
      + right. exists e, w1. split; [ discriminate | ].
        apply lift_run. exact Eg.
      + exfalso.
        apply (call_runBenchmark_settles cfg (TestPrompt.prompt tp) m
                 (generate_env (lg_prompt_env lenv i)) w).
        rewrite Eg. reflexivity.
    - right. exists (Error not_a_function), w.
      split; [ discriminate | reflexivity ].
    - right. exists (Error not_a_function), w.
      split; [ intros _; reflexivity | reflexivity ]. }
  destruct G as [[b [w1 [Hc Eg]]] | [e [w1 [He Eg]]]].
  - destruct (legacy_stages_step b (TestPrompt.id tp) rdir
                (lg_prompt_env lenv i) w1 rs procs)
      as [r [more [w2 [Es [H1 [H2 [H3 [H4 H5]]]]]]]].
    exists r, more, w2. split.
    + apply try_catch_ok. rewrite (bind_ok _ _ _ _ _ Eg). exact Es.
    + repeat split; try assumption; congruence.
  - destruct (legacy_catch_step model lenv tp e w1 rs procs)
      as [r [w2 [Ec [H1 [H2 [H3 [H4 [H5 H6]]]]]]]].
    exists r, [], w2. rewrite app_nil_r. split.
    + rewrite (try_catch_throw _ _ _ e (w1, (rs, procs)));
        [ exact Ec | apply bind_throw; exact Eg ].
    + rewrite H2, H3, H4. repeat split; try assumption; try constructor.
      * rewrite H5, (He H). reflexivity.
Qed.

Lemma legacy_loop_run cfgo model rdir lenv ps : forall i w rs procs,
  exists rs' more w',
    legacy_loop cfgo model rdir lenv i ps (w, (rs, procs))
    = (Ok tt, (w', ((rs ++ rs')%list, (procs ++ more)%list)))
    /\ map FullBenchmarkResult.id rs' = map TestPrompt.id ps
    /\ Forall (fun r => FullBenchmarkResult.success r = all_stages_ok r) rs'
    /\ map fst more
       = map FullBenchmarkResult.id (List.filter server_started rs')
    /\ Forall unkilled more
    /\ (cfgo = None ->
        Forall (fun r => FullBenchmarkResult.error r = Some not_a_function
                         /\ FullBenchmarkResult.success r = false) rs').
Proof.
  induction ps as [ | tp ps IH]; intros i w rs procs; simpl.
  - exists [], [], w. rewrite !app_nil_r.
    split; [ reflexivity | ]. repeat split; constructor.
  - destruct (legacy_iteration_step cfgo model rdir lenv i tp w rs procs)
      as [r [m1 [w1 [E1 [A1 [A2 [A3 [A4 A5]]]]]]]].
    destruct (IH (S i) w1 (rs ++ [r])%list (procs ++ m1)%list)
      as [rs' [m2 [w2 [E2 [B1 [B2 [B3 [B4 B5]]]]]]]].
    exists (r :: rs'), (m1 ++ m2)%list, w2.
    split; [ | split; [ | split; [ | split; [ | split ] ] ] ].
    + rewrite (bind_ok _ _ _ _ _ E1). rewrite E2.
      rewrite <- !app_assoc. reflexivity.
    + simpl. rewrite A1, B1. reflexivity.
    + constructor; assumption.
    + rewrite map_app, A3, B3. simpl.
      destruct (server_started r); simpl; rewrite ?A1; reflexivity.
    + apply Forall_app. split; assumption.
    + intros H. constructor; [ apply A5; exact H | apply B5; exact H ].
Qed.

Lemma emits_push_result (P : Event -> Prop) r : emits_only P (push_result r).
Proof.
  intros s. exists []. simpl. unfold trace_of, Traced_locals. simpl.
  rewrite app_nil_r. split; [ reflexivity | constructor ].
Qed.

Lemma emits_push_process (P : Event -> Prop) p :
  emits_only P (push_process p).
Proof.
  intros s. exists []. simpl. unfold trace_of, Traced_locals. simpl.
  rewrite app_nil_r. split; [ reflexivity | constructor ].
Qed.

Ltac legacy_emits :=
  repeat first
    [ apply emits_push_result | apply emits_push_process
    | apply call_runBenchmark_emits; simpl; exact I
    | apply compileApp_emits; intros; simpl; exact I
    | apply runApp_emits; intros; simpl; exact I
    | apply analyzeApp_emits; intros; simpl; exact I
    | emits_step ].

Lemma legacy_iteration_emits cfgo model rdir lenv i tp :
  emits_only loop_event (legacy_iteration cfgo model rdir lenv i tp).
Proof.
  unfold legacy_iteration, legacy_generate, legacy_stages, legacy_run,
    legacy_analyze, legacy_catch.
  legacy_emits.
Qed.

Lemma legacy_loop_emits cfgo model rdir lenv ps : forall i,
  emits_only loop_event (legacy_loop cfgo model rdir lenv i ps).
Proof.
  induction ps as [ | tp ps IH]; intros i; simpl.
  - apply emits_ret.
  - apply emits_bind; [ apply legacy_iteration_emits | intros; apply IH ].
Qed.

Lemma stop_all_run lenv procs : forall k w,
  Forall unkilled procs ->
  exists w',
    stop_all lenv k procs w = (Ok tt, w')
    /\ trace w' = (trace w ++ stop_events lenv k procs)%list.
Proof.
  induction procs as [ | [id [cwd kd]] procs IH]; intros k w F; simpl.
  - exists w. rewrite app_nil_r. split; reflexivity.
  - inversion F as [ | x l Hk Hrest]. subst. unfold unkilled in Hk.
    simpl in Hk. subst kd.
    assert (E : exists w1,
               try_catch
                 (_ <- stopApp (Some (mkChild cwd false)) (lg_stop_env lenv k);;
                  ret tt)
                 (fun error =>
                    emit (EvWarn ("Failed to stop " ++ id ++ ": "
                                  ++ message error))) w
               = (Ok tt, w1)
               /\ trace w1
                  = (trace w
                     ++ (if proc_alive (lg_stop_env lenv k)
                         then [EvKill SIGTERM true]
                         else [EvKill SIGTERM false; EvKill SIGKILL false]))%list).
    { unfold try_catch, stopApp, kill_process, grace_period, bind, emit,
        sleep, modify, ret. simpl.
      destruct (proc_alive (lg_stop_env lenv k)); simpl;
        destruct (exit_delay (lg_stop_env lenv k)) as [d | ]; simpl;
        try destruct (d <? 5000); simpl;
        eexists; (split; [ reflexivity | ]); simpl;
        rewrite <- ?app_assoc; reflexivity. }
    destruct E as [w1 [E1 T1]].
    destruct (IH (S k) w1 Hrest) as [w2 [E2 T2]].
    exists w2. split.
    + rewrite (bind_ok _ _ _ _ _ E1). exact E2.
    + rewrite T2, T1, <- app_assoc. reflexivity.
Qed.

Lemma cleanup_all_run lenv results : forall k w,
  exists w',
    cleanup_all lenv k results w = (Ok tt, w')
    /\ trace w' = (trace w ++ cleanup_events lenv k results)%list.
Proof.
  induction results as [ | r results IH]; intros k w; simpl.
  - exists w. rewrite app_nil_r. split; reflexivity.
  - assert (E : exists w1,
               (if truthy (FullBenchmarkResult.workspaceDir r) then
                  try_catch
                    (call_cleanupWorkspace (FullBenchmarkResult.workspaceDir r)
                       (lg_cleanup_env lenv k))
                    (fun error =>
                       emit (EvWarn ("Failed to delete workspace "
                                     ++ FullBenchmarkResult.workspaceDir r
                                     ++ ": " ++ message error)))
                else ret tt) w
               = (Ok tt, w1)
               /\ trace w1
                  = (trace w
                     ++ (if truthy (FullBenchmarkResult.workspaceDir r) then
                           match cleanup_rejects (lg_cleanup_env lenv k) with
                           | None =>
                               [EvCleanup (FullBenchmarkResult.workspaceDir r)
                                  true]
                           | Some e =>
                               [EvCleanup (FullBenchmarkResult.workspaceDir r)
                                  false;
                                EvWarn ("Failed to delete workspace "
                                        ++ FullBenchmarkResult.workspaceDir r
                                        ++ ": " ++ message e)]
                           end
                         else []))%list).
    { destruct (truthy (FullBenchmarkResult.workspaceDir r)).
      - unfold try_catch, call_cleanupWorkspace, bind, emit, sleep, modify,
          throw, ret. simpl.
        destruct (cleanup_rejects (lg_cleanup_env lenv k)); simpl;
          eexists; (split; [ reflexivity | ]); simpl;
          rewrite <- ?app_assoc; reflexivity.
      - exists w. rewrite app_nil_r. split; reflexivity. }
    destruct E as [w1 [E1 T1]].
    destruct (IH (S k) w1) as [w2 [E2 T2]].
    exists w2. split.
    + rewrite (bind_ok _ _ _ _ _ E1). exact E2.
    + rewrite T2, T1, <- app_assoc. reflexivity.
Qed.

(** The legacy benchmark in full: the loop, then the stop of the servers,
    then the deletion of the workspaces, then the summary. *)
Lemma runBenchmark_phases prompts options lenv w ps :
  RUNNERS_at (runner_of options) <> Undefined ->
  normalize_prompts prompts = Ok ps ->
  lg_mkdir_rejects lenv = None -> lg_write_rejects lenv = None ->
  exists summary w' loop_evs procs file,
    runBenchmark prompts options lenv w = (Ok summary, w')
    /\ BenchmarkSummary.runner summary = runner_of options
    /\ map FullBenchmarkResult.id (BenchmarkSummary.results summary)
       = map TestPrompt.id ps
    /\ Forall (fun r => FullBenchmarkResult.success r = all_stages_ok r)
         (BenchmarkSummary.results summary)
    /\ BenchmarkSummary.totalPrompts summary
       = Z.of_nat (List.length (BenchmarkSummary.results summary))
    /\ BenchmarkSummary.successCount summary
       = Z.of_nat (List.length
                     (List.filter FullBenchmarkResult.success
                        (BenchmarkSummary.results summary)))
    /\ BenchmarkSummary.failureCount summary
       = BenchmarkSummary.totalPrompts summary
         - BenchmarkSummary.successCount summary
    /\ map fst procs
       = map FullBenchmarkResult.id
           (List.filter server_started (BenchmarkSummary.results summary))
    /\ Forall loop_event loop_evs
    /\ BenchmarkSummary.summaryFile summary = Some file
    /\ trace w'
       = (trace w ++ [EvMkdir (resultsDir_of options lenv)] ++ loop_evs
          ++ stop_events lenv 0 procs
          ++ (if deletes options
              then cleanup_events lenv 0 (BenchmarkSummary.results summary)
              else [])
          ++ [EvWriteFile file])%list
    /\ (RUNNERS_at (runner_of options) = Inherited ->
        Forall (fun r => FullBenchmarkResult.error r = Some not_a_function
                         /\ FullBenchmarkResult.success r = false)
          (BenchmarkSummary.results summary)).
Proof.
  intros Hm Hn Hmk Hwr.
  unfold runBenchmark, deletes.
  fold (runner_of options). fold (resultsDir_of options lenv).
  fold (keeps options).
  set (cfgo := match RUNNERS_at (runner_of options) with
               | Own cfg => Some cfg
               | _ => None
               end).
  set (model := match cfgo with
                | Some cfg =>
                    Some (or_else (BenchmarkOptions.model options)
                            (defaultModel cfg))
                | None => truthy_string (BenchmarkOptions.model options)
                end).
  set (w1 := mkWorld (now w) (trace w ++ [EvMkdir (resultsDir_of options lenv)])).
  destruct (legacy_loop_run cfgo model (resultsDir_of options lenv) lenv ps 0
              w1 [] [])
    as [rs [procs [w2 [El [L1 [L2 [L3 [L4 L5]]]]]]]].
  simpl app in El.
  destruct (legacy_loop_emits cfgo model (resultsDir_of options lenv) lenv ps
              0 (w1, ([], []))) as [levs [Tl Fl]].
  rewrite El in Tl. unfold trace_of, Traced_locals in Tl. simpl in Tl.
  destruct (stop_all_run lenv procs 0 w2 L4) as [w3 [Es Ts]].
  destruct (cleanup_all_run lenv rs 0 w3) as [w4 [Ec Tc]].
  assert (R : exists summary w' file,
             (promptsToRun <- of_res (normalize_prompts prompts);;
              startTime <- date_now;;
              fs_call (EvMkdir (resultsDir_of options lenv))
                (lg_mkdir_rejects lenv);;
              with_locals (([], []) : LegacyLocals)
                (legacy_loop cfgo model (resultsDir_of options lenv) lenv 0
                   promptsToRun;;
                 locals <- local;;
                 let results := fst locals in
                 let runningProcesses := snd locals in
                 lift (stop_all lenv 0 runningProcesses);;
                 t1 <- lift date_now;;
                 let totalDuration := t1 - startTime in
                 let successCount :=
                   Z.of_nat (List.length
                               (List.filter FullBenchmarkResult.success
                                  results)) in
                 (if (negb (keeps options)
                      && match cfgo with
                         | Some cfg => cleanupWorkspace cfg
                         | None => false
                         end)%bool
                  then lift (cleanup_all lenv 0 results)
                  else ret tt);;
                 t2 <- lift date_now;;
                 let summaryFile :=
                   path_join (resultsDir_of options lenv)
                     ("summary-" ++ show_Z t2 ++ ".json") in
                 t3 <- lift date_now;;
                 let summary :=
                   BenchmarkSummary.mk (runner_of options) model
                     (lg_iso lenv t3) totalDuration
                     (Z.of_nat (List.length results)) successCount
                     (Z.of_nat (List.length results) - successCount)
                     (keeps options) results (Some summaryFile) in
                 lift (fs_call (EvWriteFile summaryFile)
                         (lg_write_rejects lenv));;
                 ret summary)) w
             = (Ok summary, w')
             /\ BenchmarkSummary.runner summary = runner_of options
             /\ BenchmarkSummary.results summary = rs
             /\ BenchmarkSummary.totalPrompts summary
                = Z.of_nat (List.length rs)
             /\ BenchmarkSummary.successCount summary
                = Z.of_nat (List.length
                              (List.filter FullBenchmarkResult.success rs))
             /\ BenchmarkSummary.failureCount summary
                = BenchmarkSummary.totalPrompts summary
                  - BenchmarkSummary.successCount summary
             /\ BenchmarkSummary.summaryFile summary = Some file
             /\ trace w'
                = (trace (if (negb (keeps options)
                              && match cfgo with
                                 | Some cfg => cleanupWorkspace cfg
                                 | None => false
                                 end)%bool then w4 else w3)
                   ++ [EvWriteFile file])%list).
  { unfold bind at 1. unfold of_res at 1. rewrite Hn.
    unfold bind at 1. unfold date_now at 1.
    unfold bind at 1. unfold fs_call at 1. unfold bind at 1.
    unfold emit at 1. unfold modify at 1. rewrite Hmk. unfold ret at 1.
    fold w1. unfold with_locals.
    rewrite (bind_ok _ _ _ _ _ El).
    unfold bind at 1. unfold local at 1. cbn [fst snd].
    rewrite (bind_ok _ _ _ _ _ (lift_run _ _ _ _ _ Es)).
    unfold bind at 1. unfold lift at 1. unfold date_now at 1. cbn [fst snd].
    destruct (negb (keeps options)
              && match cfgo with
                 | Some cfg => cleanupWorkspace cfg
                 | None => false
                 end)%bool.
    - rewrite (bind_ok _ _ _ _ _ (lift_run _ _ _ _ _ Ec)).
      unfold bind, lift, date_now, fs_call, bind, emit, modify, ret.
      cbn [fst snd]. rewrite Hwr. cbn [fst snd].
      eexists. eexists. eexists. split; [ reflexivity | ].
      repeat split.
    - unfold bind at 1. unfold ret at 1.
      unfold bind, lift, date_now, fs_call, bind, emit, modify, ret.
      cbn [fst snd]. rewrite Hwr. cbn [fst snd].
      eexists. eexists. eexists. split; [ reflexivity | ].
      repeat split. }
  destruct R as [summary [w' [file [E [R1 [R2 [R3 [R4 [R5 [R6 R7]]]]]]]]]].
  exists summary, w', levs, procs, file.
  split.
  - clear - E Hm. subst model cfgo.
    destruct (RUNNERS_at (runner_of options)) as [cfg | | ];
      [ exact E | exact E | congruence ].
  - rewrite R2.
    split; [ exact R1 | ]. split; [ exact L1 | ]. split; [ exact L2 | ].
    split; [ exact R3 | ].
    split; [ exact R4 | ].
    split; [ exact R5 | ]. split; [ exact L3 | ]. split; [ exact Fl | ].
    split; [ exact R6 | ].
    split.
    + rewrite R7.
      assert (Ed : (negb (keeps options)
                    && match cfgo with
                       | Some cfg => cleanupWorkspace cfg
                       | None => false
                       end)%bool
                   = (negb (keeps options)
                      && match RUNNERS_at (runner_of options) with
                         | Own cfg => cleanupWorkspace cfg
                         | _ => false
                         end)%bool).
      { unfold cfgo. destruct (RUNNERS_at (runner_of options)); reflexivity. }
      rewrite <- Ed.
      destruct (negb (keeps options)
                && match cfgo with
                   | Some cfg => cleanupWorkspace cfg
                   | None => false
                   end)%bool.
      * rewrite Tc, Ts, Tl. unfold w1. simpl trace.
        rewrite <- !app_assoc. reflexivity.
      * rewrite Ts, Tl. unfold w1. simpl trace.
        rewrite <- !app_assoc. reflexivity.
    + intros Hi. apply L5. unfold cfgo. rewrite Hi. reflexivity.
Qed.

Lemma filter_length_le {A} (p : A -> bool) (l : list A) :
  (List.length (List.filter p l) <= List.length l)%nat.
Proof.
  induction l as [ | x l IH]; simpl; [ lia | ].
  destruct (p x); simpl; lia.
Qed.

Lemma filter_ext_Forall {A} (p q : A -> bool) (l : list A) :
  Forall (fun x => p x = q x) l -> List.filter p l = List.filter q l.
Proof.
  induction 1 as [ | x l Hx Hl IH]; simpl; [ reflexivity | ].
  rewrite Hx, IH. reflexivity.
Qed.

Lemma stop_events_loop lenv procs : forall k,
  Forall loop_event (stop_events lenv k procs).
Proof.
  induction procs as [ | p procs IH]; intros k; simpl; [ constructor | ].
  apply Forall_app. split; [ | apply IH ].
  destruct (proc_alive (lg_stop_env lenv k)); repeat constructor.
Qed.


Lemma loop_event_no_deletion evs :
  Forall loop_event evs -> Forall no_deletion_or_warning evs.
Proof.
  apply Forall_impl. intros ev. destruct ev; simpl; auto.
Qed.

(** X16.  When the runner name selects a member of the registry object, the
    prompts are a string or an array and the two file-system calls succeed,
    the legacy benchmark does not throw, whatever fails in the stages. A
    summary it returns has one result per prompt, in the order of the
    prompts and under their ids, and its success and failure counts add up
    to the number of prompts. *)
Theorem runBenchmark_one_result_per_prompt prompts options lenv w ps :
  RUNNERS_at (runner_of options) <> Undefined ->
  normalize_prompts prompts = Ok ps ->
  lg_mkdir_rejects lenv = None -> lg_write_rejects lenv = None ->
  match fst (runBenchmark prompts options lenv w) with
  | Ok summary =>
      map FullBenchmarkResult.id (BenchmarkSummary.results summary)
      = map TestPrompt.id ps
      /\ BenchmarkSummary.totalPrompts summary = Z.of_nat (List.length ps)
      /\ BenchmarkSummary.successCount summary
         + BenchmarkSummary.failureCount summary
         = BenchmarkSummary.totalPrompts summary
      /\ 0 <= BenchmarkSummary.successCount summary
         <= BenchmarkSummary.totalPrompts summary
  | Throw _ => False
  | Hang => True
  end.
Proof.
  intros Hm Hn Hmk Hwr.
  destruct (runBenchmark_phases prompts options lenv w ps Hm Hn Hmk Hwr)
    as [summary [w' [levs [procs [file [E [_ [Hid [_ [Ht [Hs [Hf [_ [_ [_ [_ _]]]]]]]]]]]]]]]].
  rewrite E. cbn [fst]. split; [ exact Hid | ].
  assert (L : List.length (BenchmarkSummary.results summary)
              = List.length ps).
  { rewrite <- (length_map FullBenchmarkResult.id), Hid, length_map.
    reflexivity. }
  pose proof (filter_length_le FullBenchmarkResult.success
                (BenchmarkSummary.results summary)) as Le.
  rewrite Hf, Hs, Ht, L in *.
  split; [ reflexivity | ]. split; lia.
Qed.

Lemma runBenchmark_one_result_per_prompt_witness :
  match fst (runBenchmark two_prompts default_options sample_lenv w0) with
  | Ok summary =>
      map FullBenchmarkResult.id (BenchmarkSummary.results summary)
      = map TestPrompt.id
          [TestPrompt.mk "todo-app" "Build a todo app";
           TestPrompt.mk "custom" "Build a counter"]
      /\ BenchmarkSummary.totalPrompts summary
         = Z.of_nat (List.length
                       [TestPrompt.mk "todo-app" "Build a todo app";
                        TestPrompt.mk "custom" "Build a counter"])
      /\ BenchmarkSummary.successCount summary
         + BenchmarkSummary.failureCount summary
         = BenchmarkSummary.totalPrompts summary
      /\ 0 <= BenchmarkSummary.successCount summary
         <= BenchmarkSummary.totalPrompts summary
  | Throw _ => False
  | Hang => True
  end.
Proof.
  apply (runBenchmark_one_result_per_prompt two_prompts default_options
           sample_lenv w0);
    [ vm_compute; discriminate | reflexivity | reflexivity | reflexivity ].
Defined.

(** X17.  A result of the legacy benchmark reports success exactly when its
    build, compile, run and analyze entries all report success, and
    [successCount] counts those results. *)
Theorem runBenchmark_success_needs_every_stage prompts options lenv w ps :
  RUNNERS_at (runner_of options) <> Undefined ->
  normalize_prompts prompts = Ok ps ->
  lg_mkdir_rejects lenv = None -> lg_write_rejects lenv = None ->
  exists summary w',
    runBenchmark prompts options lenv w = (Ok summary, w')
    /\ Forall (fun r => FullBenchmarkResult.success r = all_stages_ok r)
         (BenchmarkSummary.results summary)
    /\ BenchmarkSummary.successCount summary
       = Z.of_nat (List.length
                     (List.filter all_stages_ok
                        (BenchmarkSummary.results summary))).
Proof.
  intros Hm Hn Hmk Hwr.
  destruct (runBenchmark_phases prompts options lenv w ps Hm Hn Hmk Hwr)
    as [summary [w' [levs [procs [file [E [_ [_ [Ha [_ [Hs [_ [_ [_ [_ [_ _]]]]]]]]]]]]]]]].
  exists summary, w'. split; [ exact E | ]. split; [ exact Ha | ].
  rewrite Hs. rewrite (filter_ext_Forall _ _ _ Ha). reflexivity.
Qed.

Lemma runBenchmark_success_needs_every_stage_witness :
  exists summary w',
    runBenchmark two_prompts default_options sample_lenv w0 = (Ok summary, w')
    /\ Forall (fun r => FullBenchmarkResult.success r = all_stages_ok r)
         (BenchmarkSummary.results summary)
    /\ BenchmarkSummary.successCount summary
       = Z.of_nat (List.length
                     (List.filter all_stages_ok
                        (BenchmarkSummary.results summary))).
Proof.
  apply (runBenchmark_success_needs_every_stage two_prompts default_options
           sample_lenv w0
           [TestPrompt.mk "todo-app" "Build a todo app";
            TestPrompt.mk "custom" "Build a counter"]);
    [ vm_compute; discriminate | reflexivity | reflexivity | reflexivity ].
Defined.

(** X18.  In a run of the legacy benchmark that returns, no workspace is
    deleted and no warning is logged before every prompt is processed and
    the servers are stopped. When deletion is on, one deletion is then
    attempted for each result with a workspace, failed results included, in
    order, and a deletion that fails only logs a warning; the summary file
    is written last. *)
Theorem runBenchmark_deletes_after_the_loop
  prompts options lenv w ps summary w' :
  RUNNERS_at (runner_of options) <> Undefined ->
  normalize_prompts prompts = Ok ps ->
  lg_mkdir_rejects lenv = None -> lg_write_rejects lenv = None ->
  runBenchmark prompts options lenv w = (Ok summary, w') ->
  exists before file,
    Forall no_deletion_or_warning before
    /\ trace w'
       = (trace w ++ before
          ++ (if deletes options
              then cleanup_events lenv 0 (BenchmarkSummary.results summary)
              else [])
          ++ [EvWriteFile file])%list.
Proof.
  intros Hm Hn Hmk Hwr Run.
  destruct (runBenchmark_phases prompts options lenv w ps Hm Hn Hmk Hwr)
    as [summary0 [w0' [levs [procs [file [E [_ [_ [_ [_ [_ [_ [_ [Fl [_ [T _]]]]]]]]]]]]]]]].
  rewrite E in Run. inversion Run. subst summary0 w0'.
  exists ([EvMkdir (resultsDir_of options lenv)] ++ levs
          ++ stop_events lenv 0 procs)%list, file.
  split.
  - apply loop_event_no_deletion.
    apply Forall_app. split; [ repeat constructor | ].
    apply Forall_app. split; [ exact Fl | apply stop_events_loop ].
  - rewrite T. rewrite <- !app_assoc. reflexivity.
Qed.

Lemma runBenchmark_deletes_after_the_loop_witness :
  exists before file,
    Forall no_deletion_or_warning before
    /\ trace (snd (runBenchmark two_prompts default_options sample_lenv w0))
       = (trace w0 ++ before
          ++ [EvCleanup "/tmp/ws/a" true; EvCleanup "/tmp/ws/b" false;
              EvWarn ("Failed to delete workspace /tmp/ws/b: "
                      ++ "EBUSY: resource busy or locked")]
          ++ [EvWriteFile file])%list.
Proof.
  refine (runBenchmark_deletes_after_the_loop two_prompts default_options
            sample_lenv w0
            [TestPrompt.mk "todo-app" "Build a todo app";
             TestPrompt.mk "custom" "Build a counter"]
            (match fst (runBenchmark two_prompts default_options sample_lenv
                          w0) with
             | Ok s => s
             | _ => BenchmarkSummary.mk "" None "" 0 0 0 0 false [] None
             end)
            (snd (runBenchmark two_prompts default_options sample_lenv w0))
            _ _ _ _ _);
    [ vm_compute; discriminate | reflexivity | reflexivity | reflexivity
    | vm_compute; reflexivity ].
Defined.



Lemma inherited_member runnerId :
  includes runnerId object_prototype_names = true ->
  RUNNERS_at runnerId = Inherited.
Proof.
  intros H. unfold RUNNERS_at. rewrite H.
  apply includes_In in H. simpl in H.
  repeat (destruct H as [H | H]; [ subst; reflexivity | ]).
  contradiction.
Qed.

(** X20.  A runner name that is a member inherited from [Object.prototype],
    such as [toString], passes the lookup of the legacy benchmark: instead
    of the not-found error the call returns a summary under that name in
    which every prompt failed because [runBenchmark] is not a function. *)
Theorem runBenchmark_with_an_inherited_member prompts options lenv w ps :
  includes (runner_of options) object_prototype_names = true ->
  normalize_prompts prompts = Ok ps ->
  lg_mkdir_rejects lenv = None -> lg_write_rejects lenv = None ->
  exists summary w',
    runBenchmark prompts options lenv w = (Ok summary, w')
    /\ BenchmarkSummary.runner summary = runner_of options
    /\ BenchmarkSummary.totalPrompts summary = Z.of_nat (List.length ps)
    /\ BenchmarkSummary.successCount summary = 0
    /\ Forall (fun r => FullBenchmarkResult.error r = Some not_a_function
                        /\ FullBenchmarkResult.success r = false)
         (BenchmarkSummary.results summary).
Proof.
  intros Hi Hn Hmk Hwr. apply inherited_member in Hi.
  assert (Hm : RUNNERS_at (runner_of options) <> Undefined)
    by (rewrite Hi; discriminate).
  destruct (runBenchmark_phases prompts options lenv w ps Hm Hn Hmk Hwr)
    as [summary [w' [levs [procs [file [E [Hr [Hid [_ [Ht [Hs [_ [_ [_ [_ [_ Hinh]]]]]]]]]]]]]]]].
  specialize (Hinh Hi).
  exists summary, w'. split; [ exact E | ]. split; [ exact Hr | ].
  split; [ | split; [ | exact Hinh ] ].
  - rewrite Ht. rewrite <- (length_map FullBenchmarkResult.id), Hid,
      length_map. reflexivity.
  - rewrite Hs. rewrite filter_none; [ reflexivity | ].
    eapply Forall_impl; [ | exact Hinh ]. intros r [_ F]. exact F.
Qed.

Lemma runBenchmark_with_an_inherited_member_witness :
  exists summary w',
    runBenchmark two_prompts (with_runner "toString") sample_lenv w0
    = (Ok summary, w')
    /\ BenchmarkSummary.runner summary = runner_of (with_runner "toString")
    /\ BenchmarkSummary.totalPrompts summary
       = Z.of_nat (List.length
                     [TestPrompt.mk "todo-app" "Build a todo app";
                      TestPrompt.mk "custom" "Build a counter"])
    /\ BenchmarkSummary.successCount summary = 0
    /\ Forall (fun r => FullBenchmarkResult.error r = Some not_a_function
                        /\ FullBenchmarkResult.success r = false)
         (BenchmarkSummary.results summary).
Proof.
  apply (runBenchmark_with_an_inherited_member two_prompts
           (with_runner "toString") sample_lenv w0);
    reflexivity.
Defined.

(** ** The Claude Code back end *)

Lemma cli_loop_exit pre t code post : forall out err,
  Forall only_output pre ->
  ClaudeRunner.cli_loop (pre ++ (t, ExitEvent code) :: post) out err
  = Some (t,
          match code with
          | Some 0 =>
              ClaudeRunner.mkBuildOutcome true (Some (out ++ stdout_of pre)) t
                None
          | _ =>
              ClaudeRunner.mkBuildOutcome false None t
                (Some ("Process exited with code " ++ show_code code ++ ": "
                       ++ err ++ stderr_of pre))
          end).
Proof.
  induction pre as [ | [t0 ev] pre IH]; intros out err F.
  - simpl. rewrite !string_app_nil_r. reflexivity.
  - inversion F as [ | x l Hev Hrest]. subst. unfold only_output in Hev.
    simpl in Hev.
    destruct ev as [text | text | e | c]; try contradiction; simpl.
    + rewrite (IH _ _ Hrest). rewrite !string_app_assoc. reflexivity.
    + rewrite (IH _ _ Hrest). rewrite !string_app_assoc. reflexivity.
Qed.

(** X21.  Once the CLI is spawned, the Claude back end's build step resolves
    at its first [exit] event: with code 0 its content is all that was
    written to the standard output before, with any other code (or none) its
    error names the code and the standard error written before. What comes
    after the exit is not looked at, and the duration is the time of the
    exit. *)
Theorem claude_build_ends_at_the_first_exit
  workspace prompt model env w pre t code post :
  ClaudeRunner.cli_events env
  = inl (pre ++ (t, ExitEvent code) :: post)%list ->
  Forall only_output pre ->
  ClaudeRunner.buildAppWithPrompt workspace prompt model env w
  = (Ok (match code with
         | Some 0 =>
             ClaudeRunner.mkBuildOutcome true (Some (stdout_of pre)) t None
         | _ =>
             ClaudeRunner.mkBuildOutcome false None t
               (Some ("Process exited with code " ++ show_code code ++ ": "
                      ++ stderr_of pre))
         end),
     mkWorld (now w + t)
       (trace w ++ [EvSpawn (ClaudeRunner.path workspace)])).
Proof.
  intros E F. unfold ClaudeRunner.buildAppWithPrompt.
  rewrite E, (cli_loop_exit pre t code post "" "" F).
  unfold bind, emit, sleep, modify, ret. simpl. reflexivity.
Qed.

Lemma claude_build_ends_at_the_first_exit_witness :
  ClaudeRunner.buildAppWithPrompt
    (ClaudeRunner.mkWorkspace "/tmp/claude-workspaces/0123456789abcdef"
       "0123456789abcdef")
    "Build a todo app" "sonnet" claude_succeeds w0
  = (Ok (ClaudeRunner.mkBuildOutcome true (Some "Created src/App.tsx") 42000
           None),
     mkWorld (now w0 + 42000)
       (trace w0 ++ [EvSpawn "/tmp/claude-workspaces/0123456789abcdef"])).
Proof.
  apply (claude_build_ends_at_the_first_exit
           (ClaudeRunner.mkWorkspace "/tmp/claude-workspaces/0123456789abcdef"
              "0123456789abcdef")
           "Build a todo app" "sonnet" claude_succeeds w0
           [ (100, StderrData "warming up");
             (41000, StdoutData "Created src/App.tsx") ]
           42000 (Some 0) [ (42001, StdoutData "late") ]).
  - reflexivity.
  - repeat constructor.
Defined.

Lemma claude_workspace_path id :
  simple_segment id = true ->
  path_join_all ["/tmp"; "claude-workspaces"; id]
  = "/tmp/claude-workspaces/" ++ id.
Proof.
  intros S. destruct (simple_segment_inv id S) as [Hne [Hl [Hd Hdd]]].
  assert (T : truthy id = true) by (destruct id; [ congruence | reflexivity ]).
  assert (He : String.eqb id "" = false)
    by (destruct id; [ congruence | reflexivity ]).
  unfold path_join_all. cbn [List.filter truthy]. rewrite T. cbn [join].
  unfold path_normalize.
  change (truthy ("/tmp" ++ "/" ++ "claude-workspaces" ++ "/" ++ id)) with true.
  cbv iota.
  change ("/tmp" ++ "/" ++ "claude-workspaces" ++ "/" ++ id)
    with ("/tmp/claude-workspaces" ++ String "/" id).
  rewrite split_on_cat, (split_on_lacks _ id Hl).
  replace (last_is_slash ("/tmp/claude-workspaces" ++ String "/" id))
    with false.
  2:{ change ("/tmp/claude-workspaces" ++ String "/" id)
        with ("/tmp/claude-workspaces/" ++ id).
      rewrite (last_is_slash_app _ id Hne).
      symmetry. apply last_is_slash_lacks, Hl. }
  cbn. rewrite He, Hd, Hdd. cbn.
  destruct id; [ congruence | ]. cbn. rewrite string_app_nil_r. reflexivity.
Qed.

(** X22.  The Claude back end's [runBenchmark] throws only what creating the
    workspace directory, extracting the tarball or [spawn] throws; a build
    that fails after the spawn is a returned result. A returned result names
    the workspace, [/tmp/claude-workspaces/<id>] for an id that is a simple
    segment, the prompt and the model (default [sonnet]), and its content
    preview is absent or a non-empty string of at most 200 characters. The
    call stays pending only when the spawned CLI sends neither [exit] nor
    [error]. *)
Theorem claude_runBenchmark_outcome prompt model env w :
  match fst (ClaudeRunner.runBenchmark prompt model env w) with
  | Ok r =>
      ClaudeRunner.mkdir_fails env = None
      /\ ClaudeRunner.extract_fails env = None
      /\ (exists events, ClaudeRunner.cli_events env = inl events)
      /\ BenchmarkResult.workspaceDir r
         = path_join_all
             ["/tmp"; "claude-workspaces"; ClaudeRunner.random_hex env]
      /\ (simple_segment (ClaudeRunner.random_hex env) = true ->
          BenchmarkResult.workspaceDir r
          = "/tmp/claude-workspaces/" ++ ClaudeRunner.random_hex env)
      /\ BenchmarkResult.workspaceId r = ClaudeRunner.random_hex env
      /\ BenchmarkResult.prompt r = prompt
      /\ BenchmarkResult.model r
         = match model with Some m => m | None => "sonnet" end
      /\ match BuildResult.contentPreview (BenchmarkResult.build r) with
         | Some preview =>
             preview <> "" /\ (String.length preview <= 200)%nat
         | None => True
         end
  | Throw e =>
      ClaudeRunner.mkdir_fails env = Some e
      \/ (ClaudeRunner.mkdir_fails env = None
          /\ ClaudeRunner.extract_fails env = Some e)
      \/ (ClaudeRunner.mkdir_fails env = None
          /\ ClaudeRunner.extract_fails env = None
          /\ ClaudeRunner.cli_events env = inr e)
  | Hang =>
      ClaudeRunner.mkdir_fails env = None
      /\ ClaudeRunner.extract_fails env = None
      /\ exists events,
           ClaudeRunner.cli_events env = inl events
           /\ ClaudeRunner.cli_loop events "" "" = None
  end.
Proof.
  unfold ClaudeRunner.runBenchmark, ClaudeRunner.createTempWorkspace,
    ClaudeRunner.populateWorkspace, ClaudeRunner.buildAppWithPrompt,
    try_catch, fs_call, bind, emit, sleep, modify, throw, ret, date_now.
  cbn [fst snd].
  destruct (ClaudeRunner.mkdir_fails env) as [e1 | ]; cbn [fst snd];
    [ left; reflexivity | ].
  destruct (ClaudeRunner.extract_fails env) as [e2 | ]; cbn [fst snd];
    [ right; left; split; reflexivity | ].
  destruct (ClaudeRunner.cli_events env) as [events | e3]; cbn [fst snd];
    [ | right; right; repeat split ].
  destruct (ClaudeRunner.cli_loop events "" "") as [[t outcome] | ] eqn:L;
    cbn [fst snd];
    [ | split; [ reflexivity | split; [ reflexivity | ] ];
        exists events; split; [ reflexivity | exact L ] ].
  split; [ reflexivity | ]. split; [ reflexivity | ].
  split; [ exists events; reflexivity | ].
  split; [ reflexivity | ].
  split; [ intros S; apply claude_workspace_path, S | ].
  repeat split.
  unfold ClaudeRunner.contentPreview, truthy_string. cbn.
  destruct (ClaudeRunner.content outcome) as [c | ]; [ | exact I ].
  destruct (truthy (prefix 200 c)) eqn:T; [ | exact I ].
  split.
  - intros E. rewrite E in T. discriminate T.
  - apply substring_length.
Qed.

(** ** The command line *)

Lemma runMultiRunnerBenchmark_settles appName prompt options oenv envs :
  settles (runMultiRunnerBenchmark appName prompt options oenv envs).
Proof.
  intros w. unfold runMultiRunnerBenchmark, runMultiRunnerBenchmark_with.
  unfold bind at 1. unfold of_res.
  destruct (parseRunnerFilter (or_else (filter options) "")
              getAvailableRunners) as [sel | e | ] eqn:P;
    [ | simpl; discriminate | ].
  - unfold bind at 1. unfold fs_call at 1. unfold bind at 1.
    unfold emit at 1. unfold modify at 1.
    destruct (mkdir_rejects oenv); [ simpl; discriminate | ].
    unfold ret at 1. unfold with_locals.
    match goal with
    | |- context [bind (run_loop ?x1 ?x2 ?x3 ?x4 ?x5 ?x6 ?x7 ?x8 ?x9) _
                    (?w0, ?rs0)] =>
        destruct (run_loop_pushes x1 x2 x3 x4 x5 x6 runSingleRunner_settles
                    x7 x9 x8 w0 rs0 (parseRunnerFilter_valid _ _ _ P))
          as [rs [w1 [E F]]]
    end.
    rewrite (bind_ok _ _ _ _ _ E).
    unfold bind, local, lift, fs_call, bind, emit, modify. simpl.
    destruct (write_rejects oenv); simpl; discriminate.
  - exfalso. unfold parseRunnerFilter in P.
    destruct (negb (truthy (or_else (filter options) "")));
      [ discriminate | ].
    destruct (0 <? _); discriminate.
Qed.

Lemma loadAllPrompts_total dirname fs : total (loadAllPrompts dirname fs).
Proof.
  intros w. unfold loadAllPrompts.
  destruct (readdir fs (path_join dirname "prompts")) as [files | e] eqn:R.
  - destruct (forallb
                (fun f => is_inl (readFile fs
                                    (path_join (path_join dirname "prompts")
                                       f)))
                (List.filter (ends_with ".txt") files)) eqn:F.
    + unfold try_catch, bind at 1. unfold of_sum, ret at 1.
      unfold with_locals. unfold bind at 1.
      rewrite (load_each_ok dirname fs _ w [] F).
      unfold bind, local, ret. simpl. eexists. eexists. reflexivity.
    + destruct (load_each_fails dirname fs _ w [] F) as [e [acc' E]].
      unfold try_catch, bind at 1. unfold of_sum, ret at 1.
      unfold with_locals. unfold bind at 1. rewrite E.
      unfold bind, emit, modify, ret. simpl. eexists. eexists. reflexivity.
  - unfold try_catch, bind, of_sum, throw, emit, modify, ret. simpl.
    eexists. eexists. reflexivity.
Qed.

Lemma resolvePrompt_settles input dirname fs :
  settles (resolvePrompt input dirname fs).
Proof.
  intros w. unfold resolvePrompt.
  destruct (contains "/" input || contains backslash input
            || ends_with ".txt" input)%bool.
  - unfold try_catch, bind. rewrite loadPromptFromFile_run.
    destruct (readFile fs input); simpl; discriminate.
  - unfold try_catch, bind at 1.
    destruct (access fs _).
    + unfold ret at 1. unfold bind at 1. rewrite loadPromptFromFile_run.
      destruct (readFile fs _); simpl; discriminate.
    + simpl. discriminate.
Qed.

Lemma failedRunners_zero rs :
  (0 <? failedRunners (make_summary rs)) = false ->
  Forall (fun r => RunnerBenchmarkResult.success r = true) rs.
Proof.
  unfold make_summary. simpl. intros H. apply Z.ltb_ge in H.
  assert (E : List.filter (fun r => negb (RunnerBenchmarkResult.success r)) rs
              = []).
  { destruct (List.filter _ rs); [ reflexivity | simpl in H; lia ]. }
  apply filter_nil_all in E. eapply Forall_impl; [ | exact E ].
  intros r Hr. simpl in Hr. apply negb_false_iff in Hr. exact Hr.
Qed.

Lemma persisted_success rs :
  Forall (fun r => RunnerBenchmarkResult.success r = true) rs ->
  Forall (fun r => RunnerBenchmarkResult.success r = true) (map persisted rs).
Proof.
  induction 1 as [ | r rs Hr Hrs IH]; simpl; constructor; assumption.
Qed.

(** The last step of [main]: the benchmark and the exit code made of its
    summary. *)
Lemma main_run_step name prompt options oenv envs w :
  exists code w',
    try_catch
      (r <- runMultiRunnerBenchmark name prompt options oenv envs;;
       let hasFailures := 0 <? failedRunners (summary (snd r)) in
       ret (if hasFailures then 1 else 0))
      (fun error =>
         emit (EvErrorLog ("Unexpected error: " ++ message error));;
         ret 1) w
    = (Ok code, w')
    /\ (code = 0 \/ code = 1)
    /\ (code = 0 ->
        exists dir md,
          runMultiRunnerBenchmark name prompt options oenv envs w
          = (Ok (dir, md), w')
          /\ Forall (fun r => RunnerBenchmarkResult.success r = true)
               (runners md)).
Proof.
  destruct (runMultiRunnerBenchmark name prompt options oenv envs w)
    as [[[dir md] | e | ] w1] eqn:E.
  - destruct (0 <? failedRunners (summary md)) eqn:F.
    + exists 1, w1. split; [ | split; [ right; reflexivity | discriminate ] ].
      apply try_catch_ok. rewrite (bind_ok _ _ _ _ _ E). simpl. rewrite F.
      reflexivity.
    + exists 0, w1. split; [ | split; [ left; reflexivity | ] ].
      * apply try_catch_ok. rewrite (bind_ok _ _ _ _ _ E). simpl. rewrite F.
        reflexivity.
      * intros _. exists dir, md. split; [ reflexivity | ].
        destruct (runMulti_metadata _ _ _ _ _ _ _ _ _ _ E)
          as [results [Hr Hs]].
        rewrite Hr. apply persisted_success. apply failedRunners_zero.
        rewrite <- Hs. exact F.
  - eexists. eexists. split; [ | split; [ right; reflexivity | discriminate ] ].
    rewrite (try_catch_throw _ _ _ e w1);
      [ reflexivity | apply bind_throw; exact E ].
  - exfalso. apply (runMultiRunnerBenchmark_settles name prompt options oenv
                      envs w). rewrite E. reflexivity.
Qed.

(** Without the list flag and with parsed options, [main] ends with exit
    code 0 or 1 in every environment of the model. *)
Lemma main_returns_a_code env w options appName :
  (includes "--list-prompts" (argv env) || includes "-l" (argv env))%bool
  = false ->
  parsed env = inr (options, appName) ->
  exists code w',
    main env w = (Ok code, w')
    /\ (code = 0 \/ code = 1)
    /\ (code = 0 ->
        exists name prompt w1 dir md,
          runMultiRunnerBenchmark name prompt
            (mkOptions (Some (opt_filter options))
               (Some (opt_keepWorkspaces options)))
            (main_oenv env) (main_envs env) w1
          = (Ok (dir, md), w')
          /\ Forall (fun r => RunnerBenchmarkResult.success r = true)
               (runners md)).
Proof.
  intros Hl Hp. unfold main. rewrite Hl, Hp.
  (* the filter *)
  assert (V : exists valid wv,
             (if truthy (opt_filter options) then
                try_catch
                  (_ <- of_res (parseRunnerFilter (opt_filter options)
                                  getAvailableRunners);;
                   ret true)
                  (fun error => emit (EvErrorLog (message error));; ret false)
              else ret true) w
             = (Ok valid, wv)).
  { destruct (truthy (opt_filter options)); [ | eexists; eexists; reflexivity ].
    unfold try_catch, bind, of_res, emit, modify, ret.
    destruct (parseRunnerFilter (opt_filter options) getAvailableRunners)
      as [sel | e | ] eqn:P; try (eexists; eexists; reflexivity).
    exfalso. unfold parseRunnerFilter in P.
    destruct (negb (truthy (opt_filter options))); [ discriminate | ].
    destruct (0 <? _); discriminate. }
  destruct V as [valid [wv Ev]].
  rewrite (bind_ok _ _ _ _ _ Ev).
  destruct valid; cbn [negb]; cbv iota.
  2:{ exists 1, wv. split; [ reflexivity | ].
      split; [ right; reflexivity | discriminate ]. }
  (* the prompt *)
  assert (R : exists resolved wr,
             (if truthy (opt_prompt options)
              then ret (Some (opt_prompt options, appName))
              else
                try_catch
                  (r <- resolvePrompt appName (dirname (main_oenv env))
                          (main_fs env);;
                   ret (Some (TestPrompt.prompt r, TestPrompt.id r)))
                  (fun error =>
                     allPrompts <- loadAllPrompts (dirname (main_oenv env))
                                     (main_fs env);;
                     emit (EvErrorLog ("App/Prompt " ++ quote ++ appName
                                       ++ quote ++ " not found"));;
                     emit (EvErrorLog
                             ("Available prompt IDs: "
                              ++ join ", " (map TestPrompt.id allPrompts)));;
                     emit (EvErrorLog
                             "Use --list-prompts to see all available prompts");;
                     emit (EvErrorLog
                             "Or provide a file path (e.g., prompts/todo-app.txt)");;
                     emit (EvErrorLog
                             "Or use --prompt to provide a custom prompt string");;
                     ret None)) wv
             = (Ok resolved, wr)).
  { destruct (truthy (opt_prompt options)); [ eexists; eexists; reflexivity | ].
    destruct (resolvePrompt appName (dirname (main_oenv env)) (main_fs env) wv)
      as [[r | e | ] w2] eqn:Er.
    - eexists. eexists. apply try_catch_ok.
      rewrite (bind_ok _ _ _ _ _ Er). reflexivity.
    - destruct (loadAllPrompts_total (dirname (main_oenv env)) (main_fs env)
                  w2) as [ps [w3 El]].
      eexists. eexists.
      rewrite (try_catch_throw _ _ _ e w2); [ | apply bind_throw; exact Er ].
      rewrite (bind_ok _ _ _ _ _ El).
      unfold bind, emit, modify, ret. simpl. reflexivity.
    - exfalso. apply (resolvePrompt_settles appName (dirname (main_oenv env))
                        (main_fs env) wv). rewrite Er. reflexivity. }
  destruct R as [resolved [wr Er]].
  rewrite (bind_ok _ _ _ _ _ Er).
  destruct resolved as [[prompt name] | ].
  - destruct (main_run_step name prompt
                (mkOptions (Some (opt_filter options))
                   (Some (opt_keepWorkspaces options)))
                (main_oenv env) (main_envs env) wr)
      as [code [w' [E [C Z0]]]].
    exists code, w'. split; [ exact E | ]. split; [ exact C | ].
    intros Hc. destruct (Z0 Hc) as [dir [md [Em Fm]]].
    exists name, prompt, wr, dir, md. split; assumption.
  - exists 1, wr. split; [ reflexivity | ].
    split; [ right; reflexivity | discriminate ].
Qed.

(** X23.  Without the list flag and with parsed options, [main] never throws,
    and when it ends it ends with exit code 0 or 1: with 0 only when the
    orchestrator returned and every runner in its metadata succeeded. *)
Theorem main_exits_with_zero_only_if_all_succeed env w options appName :
  (includes "--list-prompts" (argv env) || includes "-l" (argv env))%bool
  = false ->
  parsed env = inr (options, appName) ->
  match main env w with
  | (Ok code, w') =>
      (code = 0 \/ code = 1)
      /\ (code = 0 ->
          exists name prompt w1 dir md,
            runMultiRunnerBenchmark name prompt
              (mkOptions (Some (opt_filter options))
                 (Some (opt_keepWorkspaces options)))
              (main_oenv env) (main_envs env) w1
            = (Ok (dir, md), w')
            /\ Forall (fun r => RunnerBenchmarkResult.success r = true)
                 (runners md))
  | (Throw _, _) => False
  | (Hang, _) => True
  end.
Proof.
  intros Hl Hp.
  destruct (main_returns_a_code env w options appName Hl Hp)
    as [code [w' [E [C Z0]]]].
  rewrite E. split; assumption.
Qed.

Lemma main_exits_with_zero_only_if_all_succeed_witness :
  match main cli_todo_app w0 with
  | (Ok code, w') =>
      (code = 0 \/ code = 1)
      /\ (code = 0 ->
          exists name prompt w1 dir md,
            runMultiRunnerBenchmark name prompt
              (mkOptions (Some (opt_filter (mkCliOptions "" "" false)))
                 (Some (opt_keepWorkspaces (mkCliOptions "" "" false))))
              (main_oenv cli_todo_app) (main_envs cli_todo_app) w1
            = (Ok (dir, md), w')
            /\ Forall (fun r => RunnerBenchmarkResult.success r = true)
                 (runners md))
  | (Throw _, _) => False
  | (Hang, _) => True
  end.
Proof.
  apply (main_exits_with_zero_only_if_all_succeed cli_todo_app w0
           (mkCliOptions "" "" false) "todo-app");
    reflexivity.
Defined.

(** X24.  With a filter that [parseRunnerFilter] rejects, [main] logs the
    message of that error and exits with code 1 before anything else is
    done: no prompt is read and no runner is started. *)
Theorem main_rejects_an_invalid_filter env w options appName e :
  (includes "--list-prompts" (argv env) || includes "-l" (argv env))%bool
  = false ->
  parsed env = inr (options, appName) ->
  truthy (opt_filter options) = true ->
  parseRunnerFilter (opt_filter options) getAvailableRunners = Throw e ->
  main env w
  = (Ok 1, mkWorld (now w) (trace w ++ [EvErrorLog (message e)])).
Proof.
  intros Hl Hp Ht He. unfold main. rewrite Hl, Hp, Ht.
  unfold bind at 1. unfold try_catch, bind, of_res, emit, modify, ret.
  rewrite He. reflexivity.
Qed.

Lemma main_rejects_an_invalid_filter_witness :
  main cli_unknown_runner w0
  = (Ok 1,
     mkWorld (now w0)
       (trace w0
        ++ [EvErrorLog
              (message
                 (Error "Invalid runner(s): gemini. Available runners: sigrid, claude"))])).
Proof.
  apply (main_rejects_an_invalid_filter cli_unknown_runner w0
           (mkCliOptions "gemini" "" false) "todo-app");
    reflexivity.
Defined.

(** ** The screenshot named in the metadata *)

Lemma ensures_bind_post {S A B} (m : M S A) (k : A -> M S B)
  (P : A -> Prop) (Q : B -> Prop) :
  ensures m P -> (forall a, P a -> ensures (k a) Q) -> ensures (bind m k) Q.
Proof.
  intros Hm Hk s b s'. unfold bind.
  destruct (m s) as [[a | e | ] s1] eqn:Em; intros E.
  - eapply Hk; [ eapply Hm; exact Em | exact E ].
  - discriminate.
  - discriminate.
Qed.

Lemma ensures_lift {L A} (m : M World A) (Q : A -> Prop) :
  ensures m Q -> ensures (lift (L:=L) m) Q.
Proof.
  intros Hm [w l] a s'. unfold lift. simpl.
  destruct (m w) as [r w1] eqn:Em. intros E. inversion E. subst.
  eapply Hm. exact Em.
Qed.

Lemma analyzeApp_screenshot url testId rdir env :
  ensures (analyzeApp url testId rdir env)
    (fun ar => shot_of rdir testId (AnalyzeResult.screenshotPath ar)).
Proof.
  unfold analyzeApp. repeat ensures_step.
  - right. eexists. reflexivity.
  - left. reflexivity.
Qed.

Lemma runSingleRunner_screenshot runnerId prompt keep dir env :
  ensures (runSingleRunner runnerId prompt keep dir env)
    (fun r => shot_of (path_join dir "results") (runnerId ++ "-temp")
                (RunnerBenchmarkResult.screenshotPath r)).
Proof.
  unfold runSingleRunner. destruct (getRunner runnerId) as [cfg | ];
    [ | apply ensures_throw ].
  unfold runner_try, runner_catch.
  repeat first
    [ match goal with
      | |- ensures (bind (lift (analyzeApp _ _ _ _)) _) _ =>
          eapply ensures_bind_post;
          [ apply ensures_lift; apply analyzeApp_screenshot
          | intros ar Har ]
      end
    | ensures_step ];
    try (left; reflexivity).
  exact Har.
Qed.

Lemma string_of_uint_lacks_slash d :
  lacks "/" (NilEmpty.string_of_uint d) = true.
Proof. induction d; simpl; try reflexivity; exact IHd. Qed.

Lemma show_Z_lacks_slash z : lacks "/" (show_Z z) = true.
Proof.
  unfold show_Z, NilZero.string_of_int, NilZero.string_of_uint.
  destruct (Z.to_int z) as [d | d].
  - destruct d; try reflexivity; apply (string_of_uint_lacks_slash _).
  - change (lacks "/" (String "-" match d with
                                  | Decimal.Nil => "0"
                                  | _ => NilEmpty.string_of_uint d
                                  end) = true).
    unfold lacks. simpl.
    destruct d; try reflexivity; apply (string_of_uint_lacks_slash _).
Qed.

Lemma lacks_app c a b : lacks c (a ++ b) = (lacks c a && lacks c b)%bool.
Proof. apply all_chars_app. Qed.

Lemma string_app_inv_head (a x y : string) : a ++ x = a ++ y -> x = y.
Proof.
  induction a as [ | c a IH]; simpl; intros E; [ exact E | ].
  inversion E. apply IH. assumption.
Qed.

Lemma persisted_screenshot rdir testId r :
  lacks "/" testId = true ->
  shot_of rdir testId (RunnerBenchmarkResult.screenshotPath r) ->
  RunnerBenchmarkResult.screenshotPath (persisted r) = None
  \/ exists t,
       RunnerBenchmarkResult.screenshotPath (persisted r)
       = Some (screenshot_file testId t).
Proof.
  intros Hl [E | [t E]]; unfold persisted; simpl; rewrite E;
    [ left; reflexivity | ].
  right. exists t. unfold screenshot_at.
  assert (S : simple_segment (screenshot_file testId t) = true).
  { unfold screenshot_file.
    replace (testId ++ "-" ++ show_Z t ++ ".png")
      with ((testId ++ "-" ++ show_Z t) ++ ".png")
      by (rewrite !string_app_assoc; reflexivity).
    apply simple_segment_with_extension; [ | reflexivity | simpl; lia ].
    rewrite !lacks_app, Hl, show_Z_lacks_slash. reflexivity. }
  destruct (simple_segment_inv _ S) as [Hne _].
  destruct (path_join_simple (path_join rdir "screenshots") _ S)
    as [pre [E' _]].
  assert (T : truthy (path_join (path_join rdir "screenshots")
                        (screenshot_file testId t)) = true).
  { rewrite E'. destruct pre; [ | reflexivity ].
    destruct (screenshot_file testId t); [ congruence | reflexivity ]. }
  rewrite T. f_equal. apply basename_path_join, S.
Qed.

(** X25.  For a runner id without a slash, the [screenshotPath] saved in the
    metadata is the bare file name of the temporary screenshot,
    [<runner>-temp-<ms>.png]; it is never the name under which
    [copyScreenshot] stores the copy in the benchmark directory. *)
Theorem metadata_names_the_temporary_screenshot
  runnerId prompt keep dir env w r w' q :
  lacks "/" runnerId = true ->
  runSingleRunner runnerId prompt keep dir env w = (Ok r, w') ->
  RunnerBenchmarkResult.screenshotPath (persisted r) = Some q ->
  (exists t, q = screenshot_file (runnerId ++ "-temp") t)
  /\ forall src bdir dateStr rejects w1 f w2,
       copyScreenshot src bdir runnerId dateStr rejects w1 = (Ok f, w2) ->
       q <> f.
Proof.
  intros Hl E Hq.
  pose proof (runSingleRunner_screenshot runnerId prompt keep dir env
                w r w' E) as S.
  assert (Hl' : lacks "/" (runnerId ++ "-temp") = true)
    by (rewrite lacks_app, Hl; reflexivity).
  destruct (persisted_screenshot _ _ r Hl' S) as [N | [t P]];
    [ congruence | ].
  rewrite P in Hq. inversion Hq. subst q. clear Hq.
  split; [ exists t; reflexivity | ].
  intros src bdir dateStr rejects w1 f w2.
  unfold copyScreenshot, bind, emit, modify, throw, ret.
  destruct rejects; [ discriminate | ].
  intros C. inversion C. subst f. clear C.
  unfold screenshot_file. rewrite !string_app_assoc.
  intros X. apply string_app_inv_head in X. discriminate X.
Qed.

Lemma metadata_names_the_temporary_screenshot_witness :
  (exists t,
      "sigrid-temp-1010700.png" = screenshot_file ("sigrid" ++ "-temp") t)
  /\ forall src bdir dateStr rejects w1 f w2,
       copyScreenshot src bdir "sigrid" dateStr rejects w1 = (Ok f, w2) ->
       "sigrid-temp-1010700.png" <> f.
Proof.
  apply (metadata_names_the_temporary_screenshot "sigrid" "Build a todo app"
           true "/abe" (smooth_run 7000 "/tmp/ws/a") w0
           (match fst (runSingleRunner "sigrid" "Build a todo app" true "/abe"
                         (smooth_run 7000 "/tmp/ws/a") w0) with
            | Ok r => r
            | _ => synthetic_failure "" "" (Error "")
            end)
           (snd (runSingleRunner "sigrid" "Build a todo app" true "/abe"
                   (smooth_run 7000 "/tmp/ws/a") w0)));
    vm_compute; reflexivity.
Defined.

(** ** The executor stops the server it started *)

Lemma stopApp_sends_sigterm p env w :
  killed p = false ->
  exists p' w' more,
    stopApp (Some p) env w = (Ok p', w')
    /\ trace w' = (trace w ++ EvKill SIGTERM (proc_alive env) :: more)%list.
Proof.
  intros K. destruct p as [cwd k]. simpl in K. subst k.
  unfold stopApp, kill_process, grace_period, bind, emit, sleep, modify, ret.
  simpl.
  destruct (proc_alive env); simpl;
    destruct (exit_delay env) as [d | ]; simpl;
    try destruct (d <? 5000); simpl;
    eexists; eexists; eexists; (split; [ reflexivity | ]); simpl;
    rewrite <- ?app_assoc; reflexivity.
Qed.

Lemma runner_try_stops cfg runnerId prompt keep dir env br t rr w out s1 :
  gen_outcome (generate_env env) = inl br ->
  BuildResult.success (BenchmarkResult.build br) = true ->
  compile_succeeds (compile_env env) = true ->
  serve_outcome (BenchmarkResult.workspaceDir br) (serve_env env)
  = Some (t, Resolved rr) ->
  runner_try cfg runnerId prompt keep dir env (now w) (w, None) = (out, s1) ->
  exists evs,
    trace (fst s1) = (trace w ++ evs)%list
    /\ (In (EvKill SIGTERM (proc_alive (stop_env env))) evs
        \/ ((exists e, out = Throw e)
            /\ snd s1 = Some (mkChild (BenchmarkResult.workspaceDir br)
                                false))).
Proof.
  intros Hg Hs Hc Ho.
  destruct (serve_resolved_shape _ _ _ _ Ho) as [Rs [Rp [[url Ru] Rd]]].
  set (w1 := mkWorld (now w + gen_ms (generate_env env))
               (trace w ++ [EvGenerate (id cfg) prompt (defaultModel cfg)])).
  destruct (compileApp_total (BenchmarkResult.workspaceDir br)
              (compile_env env) w1) as [cr [w2 Ec]].
  destruct (compileApp_emits (fun _ => True) (BenchmarkResult.workspaceDir br)
              (compile_env env) (fun _ => I) w1) as [evc [Tc _]].
  rewrite Ec in Tc. unfold trace_of, Traced_World in Tc. simpl in Tc.
  pose proof (compileApp_success _ _ _ _ _ Ec) as Hcs. simpl in Hcs.
  rewrite Hc in Hcs.
  pose proof (runApp_run _ _ w2 _ _ Ho) as Er. cbv iota in Er.
  match type of Er with _ = (_, ?w3') => set (w3 := w3') in * end.
  unfold runner_try.
  step_ok (call_runBenchmark_returns cfg prompt (defaultModel cfg)
             (generate_env env) br w Hg).
  fold w1. rewrite Hs. cbn [negb]. cbv iota.
  step_ok Ec. rewrite Hcs. cbn [negb]. cbv iota.
  step_ok Er.
  unfold bind at 1. unfold set_local at 1. cbn [fst snd].
  rewrite Rs. cbn [negb]. cbv iota.
  destruct (analyzeApp (non_null (RunResult.serverUrl rr))
              (runnerId ++ "-temp") (path_join dir "results")
              (analyze_env env) w3) as [[ar | e | ] w4] eqn:Ea.
  - destruct (analyzeApp_emits (fun _ => True)
                (non_null (RunResult.serverUrl rr)) (runnerId ++ "-temp")
                (path_join dir "results") (analyze_env env) I (fun _ => I)
                (fun _ => I) I
                w3) as [eva [Ta _]].
    rewrite Ea in Ta. unfold trace_of, Traced_World in Ta. simpl in Ta.
    step_ok Ea.
    unfold bind at 1. unfold local at 1. cbn [fst snd]. rewrite Rp.
    destruct (stopApp_sends_sigterm
                (mkChild (BenchmarkResult.workspaceDir br) false)
                (stop_env env) w4 eq_refl) as [p5 [w5 [more [Es Ts]]]].
    unfold bind at 1. unfold bind at 1.
    rewrite (lift_run _ _ _ _ _ Es). unfold set_local at 1. cbn [fst snd].
    unfold bind at 1. unfold lift at 1. unfold date_now at 1. cbn [fst snd].
    match goal with
    | |- ?m (w5, p5) = _ -> _ =>
        assert (Em : emits_only (fun _ => True) m)
    end.
    { apply emits_bind; [ | intros; apply emits_ret ].
      destruct (negb keep && cleanupWorkspace cfg
                && truthy (BenchmarkResult.workspaceDir br))%bool;
        [ apply emits_lift, call_cleanupWorkspace_emits; intros; exact I
        | apply emits_ret ]. }
    intros E. destruct (Em (w5, p5)) as [evr [Tr _]].
    rewrite E in Tr. unfold trace_of, Traced_locals in Tr. simpl in Tr.
    eexists. split.
    + rewrite Tr, Ts, Ta. unfold w3. simpl trace. rewrite Tc. unfold w1.
      simpl trace. rewrite <- !app_assoc. reflexivity.
    + left. apply in_or_app. right. apply in_or_app. right.
      simpl. right. apply in_or_app. right.
      apply in_or_app. right. left. reflexivity.
  - destruct (analyzeApp_emits (fun _ => True)
                (non_null (RunResult.serverUrl rr)) (runnerId ++ "-temp")
                (path_join dir "results") (analyze_env env) I (fun _ => I)
                (fun _ => I) I
                w3) as [eva [Ta _]].
    rewrite Ea in Ta. unfold trace_of, Traced_World in Ta. simpl in Ta.
    rewrite (bind_throw _ _ _ _ _ (lift_run _ _ _ _ _ Ea)).
    intros E. inversion E. subst. simpl.
    eexists. split.
    + rewrite Ta. unfold w3. simpl trace. rewrite Tc. unfold w1.
      simpl trace. rewrite <- !app_assoc. reflexivity.
    + right. split; [ exists e; reflexivity | exact Rp ].
  - exfalso.
    apply (analyzeApp_settles (non_null (RunResult.serverUrl rr))
             (runnerId ++ "-temp") (path_join dir "results")
             (analyze_env env) w3).
    rewrite Ea. reflexivity.
Qed.

Lemma runner_catch_stops cfg runnerId env startTime e w p :
  killed p = false ->
  exists r s' more,
    runner_catch cfg runnerId env startTime e (w, Some p) = (Ok r, s')
    /\ trace (fst s')
       = (trace w ++ EvKill SIGTERM (proc_alive (stop_env env)) :: more)%list.
Proof.
  intros K.
  destruct (stopApp_sends_sigterm p (stop_env env) w K)
    as [p' [w' [more [Es Ts]]]].
  unfold runner_catch.
  unfold bind at 1. unfold local at 1. cbn [fst snd].
  unfold bind at 1.
  rewrite (try_catch_ok _ _ _ tt (w', p')).
  - unfold bind, lift, date_now, ret. cbn [fst snd].
    eexists. eexists. exists more. split; [ reflexivity | exact Ts ].
  - unfold bind at 1. rewrite (lift_run _ _ _ _ _ Es). reflexivity.
Qed.

(** A server that came up is stopped on every path of the executor. *)
Lemma runSingleRunner_stop_run
  runnerId prompt keep dir env cfg br t rr w :
  getRunner runnerId = Some cfg ->
  gen_outcome (generate_env env) = inl br ->
  BuildResult.success (BenchmarkResult.build br) = true ->
  compile_succeeds (compile_env env) = true ->
  serve_outcome (BenchmarkResult.workspaceDir br) (serve_env env)
  = Some (t, Resolved rr) ->
  exists r w' evs,
    runSingleRunner runnerId prompt keep dir env w = (Ok r, w')
    /\ trace w' = (trace w ++ evs)%list
    /\ In (EvKill SIGTERM (proc_alive (stop_env env))) evs.
Proof.
  intros G Hg Hs Hc Ho.
  unfold runSingleRunner. rewrite G.
  unfold bind at 1. unfold date_now at 1. unfold with_locals.
  destruct (runner_try cfg runnerId prompt keep dir env (now w) (w, None))
    as [out s1] eqn:Et.
  destruct (runner_try_stops _ _ _ _ _ _ _ _ _ _ _ _ Hg Hs Hc Ho Et)
    as [evs [T D]].
  destruct out as [r | e | ].
  - rewrite (try_catch_ok _ _ _ _ _ Et).
    exists r, (fst s1), evs. split; [ reflexivity | ]. split; [ exact T | ].
    destruct D as [D | [[e D] _]]; [ exact D | discriminate ].
  - rewrite (try_catch_throw _ _ _ _ _ Et).
    destruct D as [D | [_ D]].
    + destruct (runner_catch_total cfg runnerId env (now w) e s1)
        as [r [s2 Ec]].
      destruct (runner_catch_emits (fun _ => True) cfg runnerId env (now w) e
                  (fun _ _ => I) s1) as [more [Tm _]].
      rewrite Ec in Tm. unfold trace_of, Traced_locals in Tm. simpl in Tm.
      rewrite Ec. exists r, (fst s2), (evs ++ more)%list.
      split; [ reflexivity | ]. split.
      * unfold trace_of, Traced_World in Tm. rewrite Tm, T.
        rewrite <- app_assoc. reflexivity.
      * apply in_or_app. left. exact D.
    + destruct s1 as [w1 l1]. simpl in D, T. subst l1.
      destruct (runner_catch_stops cfg runnerId env (now w) e w1
                  (mkChild (BenchmarkResult.workspaceDir br) false) eq_refl)
        as [r [s2 [more [Ec Tm]]]].
      rewrite Ec. exists r, (fst s2). eexists.
      split; [ reflexivity | ]. split.
      * rewrite Tm, T. rewrite <- app_assoc. reflexivity.
      * apply in_or_app. right. left. reflexivity.
  - exfalso. apply (runner_try_settles cfg runnerId prompt keep dir env
                      (now w) (w, None)).
    rewrite Et. reflexivity.
Qed.

(** X26.  When the generated application was built and its server came up,
    a run of the executor that returns has called [stopApp] on that server
    before: among the events it added is the call of [kill()], which sends
    SIGTERM to the server if it still runs. This holds whether the later
    stages succeed, fail or throw. *)
Theorem runSingleRunner_stops_a_started_server
  runnerId prompt keep dir env cfg br t rr w r w' :
  getRunner runnerId = Some cfg ->
  gen_outcome (generate_env env) = inl br ->
  BuildResult.success (BenchmarkResult.build br) = true ->
  compile_succeeds (compile_env env) = true ->
  serve_outcome (BenchmarkResult.workspaceDir br) (serve_env env)
  = Some (t, Resolved rr) ->
  runSingleRunner runnerId prompt keep dir env w = (Ok r, w') ->
  exists evs,
    trace w' = (trace w ++ evs)%list
    /\ In (EvKill SIGTERM (proc_alive (stop_env env))) evs.
Proof.
  intros G Hg Hs Hc Ho Run.
  destruct (runSingleRunner_stop_run runnerId prompt keep dir env cfg br t rr w G Hg Hs Hc Ho)
    as [r0 [w0' [evs [E [T I]]]]].
  rewrite E in Run. inversion Run. subst r0 w0'.
  exists evs. split; assumption.
Qed.

Lemma runSingleRunner_stops_a_started_server_witness :
  exists evs,
    trace (snd (runSingleRunner "sigrid" "Build a todo app" false "/abe/dist"
                  (smooth_run 7000 "/tmp/ws/a") w0))
    = (trace w0 ++ evs)%list
    /\ In (EvKill SIGTERM true) evs.
Proof.
  eapply (runSingleRunner_stops_a_started_server "sigrid" "Build a todo app"
            false "/abe/dist" (smooth_run 7000 "/tmp/ws/a") _ _ _ _ w0
            (match fst (runSingleRunner "sigrid" "Build a todo app" false
                          "/abe/dist" (smooth_run 7000 "/tmp/ws/a") w0) with
             | Ok r => r
             | _ => synthetic_failure "" "" (Error "")
             end)
            (snd (runSingleRunner "sigrid" "Build a todo app" false
                    "/abe/dist" (smooth_run 7000 "/tmp/ws/a") w0)));
    vm_compute; reflexivity.
Defined.
